(** * Review aggregation engine: a shallow embedding and its properties

    The development follows the core package of the pull-request review tool:
    - [Js]              the JavaScript built-ins the code relies on
                        (strings, numbers), written out;
    - the data model    of [types.ts] and [llm/types.ts];
    - [dedupeUtils]     confidence filter, exclusion list, signatures, dedup;
    - [commentLocator]  repositioning of approximate thread positions;
    - [openAiClient]    parsing and validation of the raw model output;
    - [reviewEngine]    the per-file orchestration loop;
    - the callers       of the engine: the exit code and the diffs of the
                        command line, the route of the server, the previous
                        comments and the publisher of the pipeline task, and
                        the file filter they share;
    then the properties, and their evaluation on the data of the unit tests.

    Conventions. Text is modelled by [string] (a character is one code unit,
    ASCII range). A JavaScript [number] that carries a fraction (confidence
    scores, thresholds) is a binary64 [float], exactly as in the runtime; a
    number that is a line, an offset or a count is an integer ([Z] or [nat]).
    An exception thrown by the code is the result [None]. Objects are values:
    the threads a client returns are taken as fresh at each call (the code
    rewrites their positions in place and nothing else), and an object that
    [JSON.parse] returns has each key once. *)

From Stdlib Require Import ZArith Floats Ascii String List Bool Lia DecimalString.
From stdpp Require Import base option list gmap strings.

Set Warnings "-inexact-float,-register-all,-clear-no-such-hyp".

(** ** JavaScript built-ins *)

Module Js.

(** [c] is white space for [String.prototype.trim]. *)
Definition isWhiteSpace (c : ascii) : bool :=
  match N_of_ascii c with
  | 9%N | 10%N | 11%N | 12%N | 13%N | 32%N | 160%N => true
  | _ => false
  end.

Fixpoint trimStart (s : string) : string :=
  match s with
  | EmptyString => EmptyString
  | String c s' => if isWhiteSpace c then trimStart s' else s
  end.

Fixpoint trimEnd (s : string) : string :=
  match s with
  | EmptyString => EmptyString
  | String c s' =>
      match trimEnd s' with
      | EmptyString => if isWhiteSpace c then EmptyString else String c EmptyString
      | r => String c r
      end
  end.

(** [s.trim()] *)
Definition trim (s : string) : string := trimEnd (trimStart s).

(** [s.startsWith(p)] *)
Definition startsWith (s p : string) : bool := String.prefix p s.

(** Position of the first occurrence of [t] in [s]. *)
Fixpoint find (t s : string) : option nat :=
  if String.prefix t s then Some 0
  else match s with
       | EmptyString => None
       | String _ s' => S <$> find t s'
       end.

(** Position of the last occurrence of [t] in [s]. *)
Fixpoint findLast (t s : string) : option nat :=
  match s with
  | EmptyString => if String.prefix t s then Some 0 else None
  | String _ s' =>
      match findLast t s' with
      | Some i => Some (S i)
      | None => if String.prefix t s then Some 0 else None
      end
  end.

(** [s.indexOf(t)]: -1 when [t] does not occur. *)
Definition indexOf (s t : string) : Z :=
  match find t s with Some i => Z.of_nat i | None => (-1)%Z end.

(** [s.lastIndexOf(t)] *)
Definition lastIndexOf (s t : string) : Z :=
  match findLast t s with Some i => Z.of_nat i | None => (-1)%Z end.

(** [s.includes(t)] *)
Definition includes (s t : string) : bool :=
  match find t s with Some _ => true | None => false end.

(** [s.slice(b, e)] for [0 <= b]; an [e] at or below [b] gives the empty
    string, an [e] past the end stops at the end. *)
Definition slice (s : string) (b e : nat) : string := String.substring b (e - b) s.

Definition isLineBreak (c : ascii) : bool :=
  match N_of_ascii c with 10%N | 13%N => true | _ => false end.

(** The pieces of [s] between maximal runs of CR and LF. The head of the
    result is the piece under construction; [inSep] tells that the previous
    character belonged to a separator, so that a run counts once. *)
Fixpoint splitAux (s : string) (inSep : bool) : list string :=
  match s with
  | EmptyString => [EmptyString]
  | String c s' =>
      if isLineBreak c then
        (if inSep then splitAux s' true else EmptyString :: splitAux s' true)
      else
        match splitAux s' false with
        | p :: ps => String c p :: ps
        | [] => [String c EmptyString]
        end
  end.

(** [s.split(/[\r\n]+/)] *)
Definition splitLines (s : string) : list string := splitAux s false.

Definition upperChar (c : ascii) : ascii :=
  let n := N_of_ascii c in
  if ((97 <=? n) && (n <=? 122))%N then ascii_of_N (n - 32) else c.

(** [s.toUpperCase()] *)
Fixpoint toUpperCase (s : string) : string :=
  match s with
  | EmptyString => EmptyString
  | String c s' => String (upperChar c) (toUpperCase s')
  end.

(** Template-literal rendering of an array length. *)
Definition showNat (n : nat) : string := NilEmpty.string_of_uint (Nat.to_uint n).

(** A [number] that holds an array length. *)
Definition numberOfLength (n : nat) : float :=
  PrimFloat.of_uint63 (Uint63.of_Z (Z.of_nat n)).

(** [Math.min(a, b)] and [Math.max(a, b)]: NaN is contagious and the
    negative zero is below the positive one. *)
Definition isNegZero (x : float) : bool :=
  PrimFloat.eqb x 0 && PrimFloat.ltb (1 / x) 0.

Definition min (a b : float) : float :=
  if PrimFloat.is_nan a || PrimFloat.is_nan b then nan
  else if PrimFloat.ltb a b then a
  else if PrimFloat.ltb b a then b
  else if isNegZero a then a else b.

Definition max (a b : float) : float :=
  if PrimFloat.is_nan a || PrimFloat.is_nan b then nan
  else if PrimFloat.ltb b a then a
  else if PrimFloat.ltb a b then b
  else if isNegZero a then b else a.

End Js.

(** ** Data model ([types.ts], [llm/types.ts]) *)

Module Position.
Record t := mk { line : Z; offset : Z; snippet : option string }.
End Position.

Module ThreadContext.
Record t := mk {
  filePath : string;
  leftFileStart : option Position.t;
  leftFileEnd : option Position.t;
  rightFileStart : option Position.t;
  rightFileEnd : option Position.t }.
End ThreadContext.

Module ReviewComment.
Record t := mk {
  content : string;
  commentType : Z;
  confidenceScore : option float;
  confidenceScoreJustification : option string;
  fixSuggestion : option string;
  issueType : option string }.
End ReviewComment.

Module ReviewThread.
Record t := mk {
  comments : list ReviewComment.t;
  status : Z;
  threadContext : option ThreadContext.t }.
End ReviewThread.

Inductive Severity := low | medium | high | critical.

Module Finding.
Record t := mk {
  id : string;
  filePath : string;
  lineStart : option Z;
  lineEnd : option Z;
  severity : Severity;
  category : option string;
  title : string;
  content : string;
  confidence : option float;
  suggestion : option string;
  threadContext : option ThreadContext.t;
  sourceThread : option ReviewThread.t }.

(** [{ ...f, id: i }] *)
Definition withId (f : t) (i : string) : t :=
  mk i (filePath f) (lineStart f) (lineEnd f) (severity f) (category f) (title f)
     (content f) (confidence f) (suggestion f) (threadContext f) (sourceThread f).

(** [{ ...f, sourceThread: undefined }] *)
Definition withoutSourceThread (f : t) : t :=
  mk (id f) (filePath f) (lineStart f) (lineEnd f) (severity f) (category f) (title f)
     (content f) (confidence f) (suggestion f) (threadContext f) None.
End Finding.

Module PreviousComment.
Record t := mk {
  id : option string;
  filePath : option string;
  content : string;
  line : option Z }.
End PreviousComment.

Module FileDiff.
Record t := mk { path : string; diff : string }.
End FileDiff.

Module Checks.
Record t := mk { bugs : bool; performance : bool; bestPractices : bool }.
End Checks.

Module Confidence.
Record t := mk { enabled : bool; minimum : float }.
End Confidence.

Module DedupeAcrossFiles.
Record t := mk { enabled : bool; threshold : float }.
End DedupeAcrossFiles.

Module Prompts.
Record t := mk { additional : list string; systemPrompt : option string }.
End Prompts.

Module ReviewPolicy.
Record t := mk {
  checks : Checks.t;
  modifiedLinesOnly : bool;
  confidence : Confidence.t;
  dedupeAcrossFiles : DedupeAcrossFiles.t;
  prompts : Prompts.t }.
End ReviewPolicy.

Module ReviewInput.
Record t := mk {
  files : list FileDiff.t;
  policy : ReviewPolicy.t;
  previousComments : option (list PreviousComment.t) }.
End ReviewInput.

Module ReviewReport.
Record t := mk {
  summaryMarkdown : string;
  findings : list Finding.t;
  filteredOut : list Finding.t }.
End ReviewReport.

Module ReviewSummary.
Record t := mk { total : nat; filtered : nat; remaining : nat }.
End ReviewSummary.

Module LlmOptions.
Record t := mk {
  checks : Checks.t;
  modifiedLinesOnly : bool;
  additionalPrompts : list string;
  confidenceMode : bool;
  systemPrompt : option string }.
End LlmOptions.

Module LlmReviewRequest.
Record t := mk {
  filePath : string;
  diff : string;
  existingComments : list string;
  options : LlmOptions.t }.
End LlmReviewRequest.

Module LlmReviewResponse.
Record t := mk { threads : list ReviewThread.t }.
End LlmReviewResponse.

(** The injected review capability: an object with private state whose
    [reviewCode] answers a request or fails ([None], a rejected promise). *)
Module LlmClient.
Record t := mk {
  state : Type;
  init : state;
  reviewCode : state -> LlmReviewRequest.t -> option (LlmReviewResponse.t * state) }.
End LlmClient.

(** ** dedupe/dedupeUtils *)

(** [c.confidenceScore !== undefined && c.confidenceScore < minimum] *)
Definition belowMinimum (score : option float) (minimum : float) : bool :=
  match score with
  | Some c => PrimFloat.ltb c minimum
  | None => false
  end.

(** Returns the pair (filteredOut, remaining). *)
Fixpoint filterCommentsByConfidence (comments : list ReviewComment.t) (confidenceMinimum : float)
  : list ReviewComment.t * list ReviewComment.t :=
  match comments with
  | [] => ([], [])
  | comment :: rest =>
      let '(filteredOut, remaining) := filterCommentsByConfidence rest confidenceMinimum in
      if belowMinimum (ReviewComment.confidenceScore comment) confidenceMinimum
      then (comment :: filteredOut, remaining)
      else (filteredOut, comment :: remaining)
  end.

Definition filterCommentsByPolicy (comments : list ReviewComment.t) (policy : ReviewPolicy.t)
  : list ReviewComment.t * list ReviewComment.t :=
  if negb (Confidence.enabled (ReviewPolicy.confidence policy)) then ([], comments)
  else filterCommentsByConfidence comments (Confidence.minimum (ReviewPolicy.confidence policy)).

Definition getCommentContentForExclusion
    (fileComments runComments : list ReviewComment.t)
    (policy : ReviewPolicy.t) (deduplicationCriteriaMet : bool) : list string * bool :=
  let dedupe := ReviewPolicy.dedupeAcrossFiles policy in
  let dedupeMet :=
    if DedupeAcrossFiles.enabled dedupe then
      if negb deduplicationCriteriaMet then
        let currentRunCommentCount := length (snd (filterCommentsByPolicy runComments policy)) in
        if PrimFloat.ltb (DedupeAcrossFiles.threshold dedupe) (Js.numberOfLength currentRunCommentCount)
        then true else deduplicationCriteriaMet
      else deduplicationCriteriaMet
    else deduplicationCriteriaMet in
  let commentsForExclusion :=
    if DedupeAcrossFiles.enabled dedupe && dedupeMet
    then fileComments ++ runComments
    else fileComments in
  (map ReviewComment.content commentsForExclusion, dedupeMet).

(** Returns the pair (remaining, filteredOut). *)
Fixpoint confidencePartition (findings : list Finding.t) (minimum : float)
  : list Finding.t * list Finding.t :=
  match findings with
  | [] => ([], [])
  | finding :: rest =>
      let '(remaining, filteredOut) := confidencePartition rest minimum in
      if belowMinimum (Finding.confidence finding) minimum
      then (remaining, finding :: filteredOut)
      else (finding :: remaining, filteredOut)
  end.

Definition applyConfidenceFilterToFindings (findings : list Finding.t) (policy : ReviewPolicy.t)
  : list Finding.t * list Finding.t :=
  if negb (Confidence.enabled (ReviewPolicy.confidence policy)) then (findings, [])
  else confidencePartition findings (Confidence.minimum (ReviewPolicy.confidence policy)).

(** ** sanitize/commentLocator *)

(** The parsed form of a unified diff, as the diff parser's type
    declarations give it: line records tagged by kind, grouped in chunks
    (a chunk of a binary file has no line records), grouped by file. *)
Inductive AnyLineChange :=
| AddedLine (lineAfter : Z) (content : string)
| DeletedLine (lineBefore : Z) (content : string)
| UnchangedLine (lineBefore lineAfter : Z) (content : string)
| MessageLine (content : string).

Inductive AnyChunk :=
| Chunk (changes : list AnyLineChange)
| CombinedChunk (changes : list AnyLineChange)
| BinaryFilesChunk.

Module AnyFileChange.
Record t := mk { chunks : list AnyChunk }.
End AnyFileChange.

Module GitDiff.
Record t := mk { files : list AnyFileChange.t }.
End GitDiff.

Definition lineContent (l : AnyLineChange) : string :=
  match l with
  | AddedLine _ c | DeletedLine _ c | UnchangedLine _ _ c | MessageLine c => c
  end.

(** [l.lineAfter], [undefined] on a record that has none. *)
Definition lineAfterOf (l : AnyLineChange) : option Z :=
  match l with
  | AddedLine n _ | UnchangedLine _ n _ => Some n
  | _ => None
  end.

(** [l.lineBefore] *)
Definition lineBeforeOf (l : AnyLineChange) : option Z :=
  match l with
  | DeletedLine n _ | UnchangedLine n _ _ => Some n
  | _ => None
  end.

Definition getLineNumber (diffLineMeta : AnyLineChange) (isRightSide : bool) : option Z :=
  if isRightSide then lineAfterOf diffLineMeta else lineBeforeOf diffLineMeta.

(** ['changes' in chunk ? chunk.changes : []] *)
Definition chunkChanges (chunk : AnyChunk) : list AnyLineChange :=
  match chunk with
  | Chunk cs | CombinedChunk cs => cs
  | BinaryFilesChunk => []
  end.

Definition getChangesFromDiff (diff : GitDiff.t) : list AnyLineChange :=
  match GitDiff.files diff with
  | [] => []
  | file0 :: _ => flat_map chunkChanges (AnyFileChange.chunks file0)
  end.

(** [change.type === 'UnchangedLine' || change.type === (right ? 'AddedLine' : 'DeletedLine')] *)
Definition sideType (change : AnyLineChange) (shouldSearchRightSide : bool) : bool :=
  match change with
  | UnchangedLine _ _ _ => true
  | AddedLine _ _ => shouldSearchRightSide
  | DeletedLine _ _ => negb shouldSearchRightSide
  | MessageLine _ => false
  end.

Definition filterChanges (changes : list AnyLineChange) (searchText : string)
    (shouldSearchRightSide : bool) : list AnyLineChange :=
  filter (fun change =>
            Is_true (Js.includes (lineContent change) searchText
                     && sideType change shouldSearchRightSide))
         changes.

(** [Math.abs(current.line - original) < Math.abs(previous.line - original)];
    a missing line number makes the difference NaN and the test false. *)
Definition strictlyCloser (originalLineNumber : Z) (shouldSearchRightSide : bool)
    (current previous : AnyLineChange) : bool :=
  match getLineNumber current shouldSearchRightSide,
        getLineNumber previous shouldSearchRightSide with
  | Some c, Some p => (Z.abs (c - originalLineNumber) <? Z.abs (p - originalLineNumber))%Z
  | _, _ => false
  end.

(** The reducer: starts from [lines[0]] and visits every element. *)
Definition findClosestLine (lines : list AnyLineChange) (originalLineNumber : Z)
    (shouldSearchRightSide : bool) : option AnyLineChange :=
  match lines with
  | [] => None
  | line0 :: _ =>
      Some (fold_left
              (fun previous current =>
                 if strictlyCloser originalLineNumber shouldSearchRightSide current previous
                 then current else previous)
              lines line0)
  end.

Definition getGitDiffLine (diff : GitDiff.t) (searchText : string) (originalLineNumber : Z)
    (shouldSearchRightSide : bool) : option AnyLineChange :=
  let changes := getChangesFromDiff diff in
  let lines := filterChanges changes searchText shouldSearchRightSide in
  findClosestLine lines originalLineNumber shouldSearchRightSide.

(** Returns [(lineNumber, offset)], each possibly [undefined]. *)
Definition getLineNumberAndOffset (parsedDiff : GitDiff.t) (searchText : string)
    (originalLineNumber : Z) (shouldSearchRightSide : bool) : option Z * option Z :=
  match getGitDiffLine parsedDiff searchText originalLineNumber shouldSearchRightSide with
  | None => (None, None)
  | Some line =>
      (getLineNumber line shouldSearchRightSide,
       Some (Js.indexOf (lineContent line) searchText + 1)%Z)
  end.

Definition strLen (s : string) : Z := Z.of_nat (String.length s).

(** [snippets[snippets.length - 1]] *)
Definition lastSnippet (snippets : list string) : string := List.last snippets EmptyString.

Definition updateFileEndForMultilineSnippet (fileEnd : Position.t) (snippets : list string)
    (parsedDiff : GitDiff.t) (isRightSide : bool) : Position.t :=
  let snippetLast := lastSnippet snippets in
  match getLineNumberAndOffset parsedDiff snippetLast (Position.line fileEnd) isRightSide with
  | (Some lastLineNumber, Some lastLineOffset) =>
      Position.mk lastLineNumber (lastLineOffset + strLen snippetLast) (Position.snippet fileEnd)
  | _ => fileEnd
  end.

(** [fileStart] is present and carries the snippet text [snippet]; [fileEnd]
    may be absent, and then writing to it throws. The result is the pair of
    the two positions after the update. *)
Definition updateFileStartAndEnd (fileStart : Position.t) (snippet : string)
    (fileEnd : option Position.t) (parsedDiff : GitDiff.t) (isRightSide : bool)
  : option (Position.t * option Position.t) :=
  let snippets := Js.splitLines snippet in
  let isMultilineSnippet := (1 <? length snippets)%nat in
  let snippetFirst := hd EmptyString snippets in
  match getLineNumberAndOffset parsedDiff snippetFirst (Position.line fileStart) isRightSide with
  | (Some lineNumber, Some offset) =>
      let fileStart' := Position.mk lineNumber offset (Position.snippet fileStart) in
      match fileEnd with
      | None => None
      | Some e =>
          let e' := Position.mk lineNumber (offset + strLen snippetFirst) (Position.snippet e) in
          Some (fileStart',
                Some (if isMultilineSnippet
                      then updateFileEndForMultilineSnippet e' snippets parsedDiff isRightSide
                      else e'))
      end
  | _ => Some (fileStart, fileEnd)
  end.

Definition sideStart (ctx : ThreadContext.t) (isRightSide : bool) : option Position.t :=
  if isRightSide then ThreadContext.rightFileStart ctx else ThreadContext.leftFileStart ctx.

Definition sideEnd (ctx : ThreadContext.t) (isRightSide : bool) : option Position.t :=
  if isRightSide then ThreadContext.rightFileEnd ctx else ThreadContext.leftFileEnd ctx.

Definition setSide (ctx : ThreadContext.t) (isRightSide : bool)
    (fileStart fileEnd : option Position.t) : ThreadContext.t :=
  if isRightSide
  then ThreadContext.mk (ThreadContext.filePath ctx)
         (ThreadContext.leftFileStart ctx) (ThreadContext.leftFileEnd ctx) fileStart fileEnd
  else ThreadContext.mk (ThreadContext.filePath ctx)
         fileStart fileEnd (ThreadContext.rightFileStart ctx) (ThreadContext.rightFileEnd ctx).

(** [fileStart?.snippet?.length]: the snippet when it is there and not empty. *)
Definition startSnippet (fileStart : option Position.t) : option (Position.t * string) :=
  match fileStart with
  | Some p =>
      match Position.snippet p with
      | Some s => if (0 <? String.length s)%nat then Some (p, s) else None
      | None => None
      end
  | None => None
  end.

Definition fixThreadContextLineNumberAndOffsets (threadContext : ThreadContext.t)
    (parsedDiff : GitDiff.t) (isRightSide : bool) : option ThreadContext.t :=
  match startSnippet (sideStart threadContext isRightSide) with
  | Some (fileStart, snippet) =>
      '(fileStart', fileEnd') ←
        updateFileStartAndEnd fileStart snippet (sideEnd threadContext isRightSide)
                              parsedDiff isRightSide;
      Some (setSide threadContext isRightSide (Some fileStart') fileEnd')
  | None => Some threadContext
  end.

Definition fixThread (parsedDiff : GitDiff.t) (thread : ReviewThread.t) : option ReviewThread.t :=
  match ReviewThread.threadContext thread with
  | Some ctx =>
      ctx1 ← fixThreadContextLineNumberAndOffsets ctx parsedDiff true;
      ctx2 ← fixThreadContextLineNumberAndOffsets ctx1 parsedDiff false;
      Some (ReviewThread.mk (ReviewThread.comments thread) (ReviewThread.status thread) (Some ctx2))
  | None => Some thread
  end.

(** [fixThreadPositions] on an already parsed diff. *)
Definition fixThreadsIn (parsedDiff : GitDiff.t) (threads : list ReviewThread.t)
  : option (list ReviewThread.t) :=
  mapM (fixThread parsedDiff) threads.

(** ** llm/openAiClient

    The client works on the value that [JSON.parse] returns and hands the
    parsed threads on as they are, so this part keeps JavaScript values as
    values: a thread here is a [Json.t]. *)

Module Json.

Inductive t :=
| Null
| Bool (b : bool)
| Num (x : float)
| Str (s : string)
| Arr (items : list t)
| Obj (fields : list (string * t)).

Fixpoint lookup (k : string) (fields : list (string * t)) : option t :=
  match fields with
  | [] => None
  | (k', v) :: rest => if String.eqb k k' then Some v else lookup k rest
  end.

(** [v.k]; [undefined] on a value that is not an object with that key. *)
Definition get (v : t) (k : string) : option t :=
  match v with
  | Obj fields => lookup k fields
  | _ => None
  end.

(** [o.k = v] on the fields of an object; assigning [undefined] is kept as
    the absence of the key. *)
Fixpoint assign (k : string) (v : option t) (fields : list (string * t))
  : list (string * t) :=
  match fields with
  | [] => match v with Some x => [(k, x)] | None => [] end
  | (k', v') :: rest =>
      if String.eqb k k'
      then match v with Some x => (k, x) :: rest | None => rest end
      else (k', v') :: assign k v rest
  end.

Definition truthy (v : option t) : bool :=
  match v with
  | None | Some Null => false
  | Some (Bool b) => b
  | Some (Num x) => negb (PrimFloat.eqb x 0 || PrimFloat.is_nan x)
  | Some (Str s) => (0 <? String.length s)%nat
  | Some (Arr _) | Some (Obj _) => true
  end.

Definition isNumber (v : option t) : bool :=
  match v with Some (Num _) => true | _ => false end.

Definition isArray (v : option t) : bool :=
  match v with Some (Arr _) => true | _ => false end.

Definition items (v : option t) : list t :=
  match v with Some (Arr l) => l | _ => [] end.

End Json.

Module LlmModelConfig.
Record t := mk { model : string; maxInputTokens : option nat }.
End LlmModelConfig.

Definition newline : string := String (ascii_of_nat 10) EmptyString.

Definition normalizeConfidence (score : option float) : option float :=
  match score with
  | None => None
  | Some s =>
      if PrimFloat.ltb 1 s
      then Some (Js.max 0 (Js.min 1 (s / 10)))
      else Some (Js.max 0 (Js.min 1 s))
  end.

Definition tryExtractJsonObject (text : string) : option string :=
  let start := Js.indexOf text "{" in
  let end_ := Js.lastIndexOf text "}" in
  if ((start =? -1) || (end_ =? -1) || (end_ <=? start))%Z then None
  else Some (Js.slice text (Z.to_nat start) (Z.to_nat (end_ + 1))).

Definition diagnosticThread (filePath issueType content : string) : list Json.t :=
  let P1 := Json.Obj [("line", Json.Num 1); ("offset", Json.Num 1)] in
  let threadContext :=
    Json.Obj [("filePath", Json.Str filePath);
              ("leftFileStart", P1); ("leftFileEnd", P1);
              ("rightFileStart", P1); ("rightFileEnd", P1)] in
  let comment :=
    Json.Obj [("content", Json.Str content);
              ("commentType", Json.Num 0);
              ("issueType", Json.Str issueType);
              ("confidenceScore", Json.Num 1);
              ("confidenceScoreJustification",
               Json.Str "Diagnostic message produced by the tool.");
              ("fixSuggestion",
               Json.Str "Inspect the raw LLM output and adjust the prompt/schema.")] in
  [Json.Obj [("status", Json.Num 1);
             ("threadContext", threadContext);
             ("comments", Json.Arr [comment])]].

Definition isValidReviewThread (value : Json.t) : bool :=
  Json.truthy (Some value)
  && Json.isNumber (Json.get value "status")
  && Json.truthy (tc ← Json.get value "threadContext"; Json.get tc "filePath")
  && Json.isArray (Json.get value "comments").

Definition isValidResponse (response : Json.t) : bool :=
  Json.truthy (Some response)
  && Json.isArray (Json.get response "threads")
  && forallb isValidReviewThread (Json.items (Json.get response "threads")).

(** What the runtime and the libraries provide: [JSON.parse] ([None] when
    it throws) and the number a value that is not a number converts to; the
    tokenizer and the chat endpoint, which fails ([None]) or answers with
    the content of its first choice, if it has one. The wording of the two
    prompts plays no part below and is left open. *)
Class JsRuntime := {
  JSON_parse : string -> option Json.t;
  toNumber : Json.t -> float }.

Class ChatEndpoint := {
  encode : string -> list nat;
  buildSystemPrompt : LlmReviewRequest.t -> string;
  buildUserPrompt : LlmReviewRequest.t -> string;
  chatCompletion : string -> string -> option (option string) }.

Section Gateway.

Context {runtime : JsRuntime} {endpoint : ChatEndpoint}.

Definition exceedsTokenLimit (config : LlmModelConfig.t) (message : string) : bool :=
  match LlmModelConfig.maxInputTokens config with
  | None | Some 0%nat => false
  | Some maxInputTokens => (maxInputTokens <? length (encode message))%nat
  end.

(** The argument of [normalizeConfidence] read off a comment. *)
Definition scoreOf (v : option Json.t) : option float :=
  match v with
  | None | Some Json.Null => None
  | Some (Json.Num x) => Some x
  | Some other => Some (toNumber other)
  end.

(** [comment.confidenceScore = normalizeConfidence(comment.confidenceScore)];
    [None] when the statement throws: [comment] is [null], or a primitive
    that takes no property. An array takes the property beside its items. *)
Definition normalizeComment (comment : Json.t) : option Json.t :=
  match comment with
  | Json.Obj fields =>
      Some (Json.Obj
              (Json.assign "confidenceScore"
                 (Json.Num <$> normalizeConfidence (scoreOf (Json.lookup "confidenceScore" fields)))
                 fields))
  | Json.Arr _ => Some comment
  | _ => None
  end.

(** The inner loop over [thread.comments ?? []]; the thread has passed
    [isValidReviewThread], so it is an object. *)
Definition normalizeThread (thread : Json.t) : option Json.t :=
  match thread with
  | Json.Obj fields =>
      match Json.lookup "comments" fields with
      | Some (Json.Arr comments) =>
          comments' ← mapM normalizeComment comments;
          Some (Json.Obj (Json.assign "comments" (Some (Json.Arr comments')) fields))
      | _ => Some thread
      end
  | _ => Some thread
  end.

(** Lines 60 to 104: from the raw content of the first choice to the threads. *)
Definition threadsOfChoice (filePath choice : string) : list Json.t :=
  match tryExtractJsonObject choice with
  | None =>
      diagnosticThread filePath "BUG"
        ("LLM_OUTPUT_PARSE_ERROR: No JSON object found in output. Output snippet:"
         +:+ newline +:+ Js.slice choice 0 800)
  | Some extractedJson =>
      let parseFailure :=
        diagnosticThread filePath "BUG"
          ("LLM_OUTPUT_PARSE_ERROR: Failed to parse JSON. Output snippet:"
           +:+ newline +:+ Js.slice choice 0 800) in
      match JSON_parse extractedJson with
      | None => parseFailure
      | Some parsed =>
          if negb (isValidResponse parsed)
          then diagnosticThread filePath "BUG" "LLM_OUTPUT_INVALID_SHAPE: missing threads[]"
          else
            match mapM normalizeThread (Json.items (Json.get parsed "threads")) with
            | Some threads => threads
            | None => parseFailure
            end
      end
  end.

(** [OpenAiLlmClient.reviewCode]: [None] when the endpoint fails. *)
Definition gatewayReviewCode (config : LlmModelConfig.t) (request : LlmReviewRequest.t)
  : option (list Json.t) :=
  let systemPrompt := buildSystemPrompt request in
  let userPrompt := buildUserPrompt request in
  let fullPrompt := systemPrompt +:+ newline +:+ userPrompt in
  if exceedsTokenLimit config fullPrompt then Some []
  else
    content ← chatCompletion systemPrompt userPrompt;
    Some (threadsOfChoice (LlmReviewRequest.filePath request) (default EmptyString content)).

End Gateway.

(** ** State of a run *)

(** The accumulators of one invocation, and the state of the client.
    [generated] is a ghost: the findings built from the threads of every
    file so far, in order. No code reads it; the statements about what
    becomes of each generated finding are phrased with it. *)
Record RunState (S : Type) := mkRun {
  filteredOut : list Finding.t;
  findings : list Finding.t;
  runComments : list ReviewComment.t;
  seenSignatures : gset string;
  dedupeCriteriaMet : bool;
  llmState : S;
  generated : list Finding.t }.
Arguments mkRun {S}.
Arguments filteredOut {S}.
Arguments findings {S}.
Arguments runComments {S}.
Arguments seenSignatures {S}.
Arguments dedupeCriteriaMet {S}.
Arguments llmState {S}.
Arguments generated {S}.

(** ** Signatures, final dedup and the orchestration loop

    Two library functions are taken as they come, as interfaces: the SHA-256
    digest in hexadecimal ([createHash('sha256').update(s).digest('hex')])
    and the unified-diff parser ([parseGitDiff]). *)

Class Sha256Hex := sha256Hex : string -> string.
Class ParseGitDiff := parseGitDiff : string -> GitDiff.t.

Section Engine.

Context {hash : Sha256Hex} {parser : ParseGitDiff}.

(** *** dedupe/dedupeUtils, continued *)

(** [`${input.filePath ?? ''}|${input.content.trim()}`], hashed. *)
Definition buildFindingSignature (filePath : option string) (content : string) : string :=
  sha256Hex (default EmptyString filePath +:+ "|" +:+ Js.trim content).

(** [finding.id && finding.id.length ? finding.id : buildFindingSignature(finding)] *)
Definition signatureOf (finding : Finding.t) : string :=
  if (0 <? String.length (Finding.id finding))%nat
  then Finding.id finding
  else buildFindingSignature (Some (Finding.filePath finding)) (Finding.content finding).

Definition previousSignaturesOf (previousComments : option (list PreviousComment.t))
  : gset string :=
  list_to_set
    (map (fun c => buildFindingSignature (PreviousComment.filePath c) (PreviousComment.content c))
         (default [] previousComments)).

(** The loop of [dedupeAgainstPrevious]: the result is
    [(deduped, removed, seenSignatures)], the last being the caller's set
    after the additions made in place. *)
Fixpoint dedupeLoop (previousSignatures : gset string) (findings : list Finding.t)
    (seenSignatures : gset string) : list Finding.t * list Finding.t * gset string :=
  match findings with
  | [] => ([], [], seenSignatures)
  | finding :: rest =>
      let signature := signatureOf finding in
      let alreadySeen :=
        bool_decide (signature ∈ seenSignatures)
        || bool_decide (signature ∈ previousSignatures) in
      if alreadySeen then
        let '(deduped, removed, seen') := dedupeLoop previousSignatures rest seenSignatures in
        (deduped, finding :: removed, seen')
      else
        let '(deduped, removed, seen') :=
          dedupeLoop previousSignatures rest ({[signature]} ∪ seenSignatures) in
        (Finding.withId finding signature :: deduped, removed, seen')
  end.

Definition dedupeAgainstPrevious (findings : list Finding.t)
    (previousComments : option (list PreviousComment.t)) (seenSignatures : gset string)
  : list Finding.t * list Finding.t * gset string :=
  dedupeLoop (previousSignaturesOf previousComments) findings seenSignatures.

(** *** sanitize/commentLocator: the entry point *)

Definition fixThreadPositions (threads : list ReviewThread.t) (diff : string)
  : option (list ReviewThread.t) :=
  match threads with
  | [] => Some threads
  | _ => fixThreadsIn (parseGitDiff diff) threads
  end.

(** *** reviewEngine *)

Definition normalizePath (path : string) : string :=
  if Js.startsWith path "/" then path else "/" +:+ path.

Definition buildLlmRequest (filePath diff : string) (existingComments : list string)
    (policy : ReviewPolicy.t) : LlmReviewRequest.t :=
  LlmReviewRequest.mk (normalizePath filePath) diff existingComments
    (LlmOptions.mk (ReviewPolicy.checks policy)
                   (ReviewPolicy.modifiedLinesOnly policy)
                   (Prompts.additional (ReviewPolicy.prompts policy))
                   (Confidence.enabled (ReviewPolicy.confidence policy))
                   (Prompts.systemPrompt (ReviewPolicy.prompts policy))).

(** [a ?? b] on optional positions, projected on the line. *)
Definition lineOf (first second : option Position.t) : option Z :=
  match first with
  | Some p => Some (Position.line p)
  | None => Position.line <$> second
  end.

Definition deriveLineRange (ctx : option ThreadContext.t) : option Z * option Z :=
  match ctx with
  | None => (None, None)
  | Some c =>
      (lineOf (ThreadContext.rightFileStart c) (ThreadContext.leftFileStart c),
       lineOf (ThreadContext.rightFileEnd c) (ThreadContext.leftFileEnd c))
  end.

Definition deriveSeverity (issueType : option string) : Severity :=
  let t := Js.toUpperCase (default EmptyString issueType) in
  if String.eqb t "SECURITY" then critical
  else if String.eqb t "BUG" then high
  else if String.eqb t "PERFORMANCE" then high
  else if String.eqb t "BEST_PRACTICE" then medium
  else medium.

Definition threadToFindings (thread : ReviewThread.t) (filePath : string) : list Finding.t :=
  let '(lineStart, lineEnd) := deriveLineRange (ReviewThread.threadContext thread) in
  map (fun comment =>
         Finding.mk EmptyString filePath lineStart lineEnd
           (deriveSeverity (ReviewComment.issueType comment))
           (ReviewComment.issueType comment)
           (default "Code review" (ReviewComment.issueType comment))
           (ReviewComment.content comment)
           (ReviewComment.confidenceScore comment)
           (ReviewComment.fixSuggestion comment)
           (ReviewThread.threadContext thread)
           (Some thread))
      (ReviewThread.comments thread).

Definition summarize (summary : ReviewSummary.t) : string :=
  "Findings: " +:+ Js.showNat (ReviewSummary.remaining summary)
  +:+ " (" +:+ Js.showNat (ReviewSummary.filtered summary)
  +:+ " filtered out, total generated " +:+ Js.showNat (ReviewSummary.total summary)
  +:+ ").".

Definition computeSummary (findings filteredOut : list Finding.t) : ReviewSummary.t :=
  let total := (length findings + length filteredOut)%nat in
  let remaining := length findings in
  ReviewSummary.mk total (length filteredOut) remaining.

Definition stripSourceThreads (report : ReviewReport.t) : ReviewReport.t :=
  ReviewReport.mk (ReviewReport.summaryMarkdown report)
    (map Finding.withoutSourceThread (ReviewReport.findings report))
    (map Finding.withoutSourceThread (ReviewReport.filteredOut report)).

(** [(input.previousComments ?? []).filter(..).map(..)] *)
Definition previousFileCommentsOf (previousComments : option (list PreviousComment.t))
    (file : FileDiff.t) : list ReviewComment.t :=
  map (fun c => ReviewComment.mk (PreviousComment.content c) 0 None None None None)
      (List.filter
         (fun c => String.eqb (normalizePath (default EmptyString (PreviousComment.filePath c)))
                              (normalizePath (FileDiff.path file)))
         (default [] previousComments)).

(** One turn of the loop over [input.files]. *)
Definition reviewFile (input : ReviewInput.t) (llmClient : LlmClient.t)
    (st : RunState (LlmClient.state llmClient)) (file : FileDiff.t)
  : option (RunState (LlmClient.state llmClient)) :=
  let previousFileComments := previousFileCommentsOf (ReviewInput.previousComments input) file in
  let '(commentsForExclusion, newDedupeMet) :=
    getCommentContentForExclusion previousFileComments (runComments st)
      (ReviewInput.policy input) (dedupeCriteriaMet st) in
  let request :=
    buildLlmRequest (FileDiff.path file) (FileDiff.diff file) commentsForExclusion
      (ReviewInput.policy input) in
  '(response, llm') ← LlmClient.reviewCode llmClient (llmState st) request;
  sanitizedThreads ← fixThreadPositions (LlmReviewResponse.threads response) (FileDiff.diff file);
  let currentRunComments := flat_map ReviewThread.comments sanitizedThreads in
  let threadFindings :=
    flat_map (fun thread => threadToFindings thread (normalizePath (FileDiff.path file)))
             sanitizedThreads in
  let '(confidenceRemaining, confidenceFiltered) :=
    applyConfidenceFilterToFindings threadFindings (ReviewInput.policy input) in
  let '(deduped, removed, seen') :=
    dedupeAgainstPrevious confidenceRemaining (ReviewInput.previousComments input)
      (seenSignatures st) in
  Some (mkRun ((filteredOut st ++ confidenceFiltered) ++ removed)
              (findings st ++ deduped)
              (runComments st ++ currentRunComments)
              seen'
              newDedupeMet
              llm'
              (generated st ++ threadFindings)).

Fixpoint reviewFiles (input : ReviewInput.t) (llmClient : LlmClient.t)
    (files : list FileDiff.t) (st : RunState (LlmClient.state llmClient))
  : option (RunState (LlmClient.state llmClient)) :=
  match files with
  | [] => Some st
  | file :: rest => st' ← reviewFile input llmClient st file; reviewFiles input llmClient rest st'
  end.

Definition initialState (llmClient : LlmClient.t) : RunState (LlmClient.state llmClient) :=
  mkRun [] [] [] ∅ false (LlmClient.init llmClient) [].

Definition reportOf {S : Type} (st : RunState S) : ReviewReport.t :=
  let summary := computeSummary (findings st) (filteredOut st) in
  stripSourceThreads (ReviewReport.mk (summarize summary) (findings st) (filteredOut st)).

(** The run with its ghost: the report and the findings generated on the way. *)
Definition reviewRun (input : ReviewInput.t) (llmClient : LlmClient.t)
  : option (ReviewReport.t * list Finding.t) :=
  match ReviewInput.files input with
  | [] => Some (ReviewReport.mk "No files to review." [] [], [])
  | files =>
      st ← reviewFiles input llmClient files (initialState llmClient);
      Some (reportOf st, generated st)
  end.

Definition reviewCode (input : ReviewInput.t) (llmClient : LlmClient.t)
  : option ReviewReport.t :=
  fst <$> reviewRun input llmClient.

End Engine.

(** ** Notions used in the statements *)

(** [f] passes the confidence filter of [policy]. *)
Definition passesConfidence (policy : ReviewPolicy.t) (f : Finding.t) : bool :=
  negb (Confidence.enabled (ReviewPolicy.confidence policy)
        && belowMinimum (Finding.confidence f)
             (Confidence.minimum (ReviewPolicy.confidence policy))).

(** A client in the manner of the test stub: what it answers depends on the
    path and the diff of the request alone, and it never fails. *)
Definition stubClient (respond : string -> string -> list ReviewThread.t) : LlmClient.t :=
  LlmClient.mk unit tt
    (fun _ request =>
       Some (LlmReviewResponse.mk
               (respond (LlmReviewRequest.filePath request) (LlmReviewRequest.diff request)),
             tt)).

(** The threads the stub's answer for [file] becomes, and the findings that
    threads give for [file]. *)
Definition stubThreads {parser : ParseGitDiff}
    (respond : string -> string -> list ReviewThread.t) (file : FileDiff.t)
  : option (list ReviewThread.t) :=
  fixThreadPositions (respond (normalizePath (FileDiff.path file)) (FileDiff.diff file))
                     (FileDiff.diff file).

Definition findingsOf (file : FileDiff.t) (threads : list ReviewThread.t) : list Finding.t :=
  flat_map (fun thread => threadToFindings thread (normalizePath (FileDiff.path file))) threads.



(** What holds of the accumulators between two turns of the loop. *)
Record RunInvariant {hash : Sha256Hex} (input : ReviewInput.t) {S : Type}
    (st : RunState S) : Prop := {
  inv_fresh : Forall (fun g => Finding.id g = EmptyString) (generated st);
  inv_partition :
    map (fun f => Finding.withId f EmptyString) (findings st) ++ filteredOut st
    ≡ₚ generated st;
  inv_seen : seenSignatures st = list_to_set (map Finding.id (findings st));
  inv_ids :
    ∀ f, f ∈ findings st ->
         Finding.id f = buildFindingSignature (Some (Finding.filePath f)) (Finding.content f);
  inv_confident :
    ∀ f, f ∈ findings st -> passesConfidence (ReviewInput.policy input) f = true;
  inv_covered :
    ∀ g, g ∈ generated st -> passesConfidence (ReviewInput.policy input) g = true ->
         signatureOf g ∈ seenSignatures st
         ∨ signatureOf g ∈ previousSignaturesOf (ReviewInput.previousComments input);
  inv_paths :
    ∀ g, g ∈ generated st -> Js.startsWith (Finding.filePath g) "/" = true }.

(** The choice among candidate records, in words: [r] stands in [lines], its
    line number on the side searched is at least as close to [approx] as
    that of every candidate, and strictly closer than that of every
    candidate that comes before it. *)
Definition isClosestFirst (lines : list AnyLineChange) (side : bool) (approx : Z)
    (r : AnyLineChange) : Prop :=
  ∃ i n, lines !! i = Some r
         ∧ getLineNumber r side = Some n
         ∧ ∀ j r', lines !! j = Some r' ->
             ∃ n', getLineNumber r' side = Some n'
                   ∧ (Z.abs (n - approx) <= Z.abs (n' - approx))%Z
                   ∧ ((j < i)%nat -> (Z.abs (n - approx) < Z.abs (n' - approx))%Z).

(** No record of the file searched matches the first line of the snippet
    that the start position of [ctx] carries on [side], if it carries one. *)
Definition noMatchOn (ctx : ThreadContext.t) (searched : AnyFileChange.t) (side : bool) : Prop :=
  match startSnippet (sideStart ctx side) with
  | Some (_, snippet) =>
      ∀ change, change ∈ flat_map chunkChanges (AnyFileChange.chunks searched) ->
                sideType change side = true ->
                Js.includes (lineContent change) (hd EmptyString (Js.splitLines snippet)) = false
  | None => True
  end.

(** ** Sample data, after the unit tests of the engine *)

(** Stand-ins for the two libraries where a statement is evaluated: the
    digest that returns its input (no two texts collide) and the parse of a
    diff without files. *)
Definition identityDigest : Sha256Hex := fun s => s.
Definition emptyParse : ParseGitDiff := fun _ => GitDiff.mk [].

Definition sampleComment (content : string) (score : option float) : ReviewComment.t :=
  ReviewComment.mk content 2 score None None None.

Definition sampleThread (comments : list ReviewComment.t) : ReviewThread.t :=
  ReviewThread.mk comments 1
    (Some (ThreadContext.mk "/src/file.ts" None None
             (Some (Position.mk 1 1 None)) (Some (Position.mk 1 10 None)))).

Definition samplePolicy : ReviewPolicy.t :=
  ReviewPolicy.mk (Checks.mk true false false) true
    (Confidence.mk true 0.8) (DedupeAcrossFiles.mk false 10) (Prompts.mk [] None).

Definition sampleFile : FileDiff.t :=
  FileDiff.mk "src/file.ts" "diff --git a/src/file.ts b/src/file.ts".

Definition sampleInput (previous : option (list PreviousComment.t)) : ReviewInput.t :=
  ReviewInput.mk [sampleFile] samplePolicy previous.

(** The stub of the first test: one thread, two comments. *)
Definition sampleRespond : string -> string -> list ReviewThread.t :=
  fun _ _ => [sampleThread [sampleComment "Old issue" (Some 0.9%float);
                            sampleComment "Low confidence" (Some 0.1%float)]].

Definition previousAt (path : string) (content : string) : PreviousComment.t :=
  PreviousComment.mk None (Some path) content None.

(** A runtime for evaluation: it parses the one text the statements below
    feed it, the empty object, and converts the booleans. *)
Definition sampleRuntime : JsRuntime :=
  {| JSON_parse := fun text => if String.eqb text "{}" then Some (Json.Obj []) else None;
     toNumber := fun v => match v with Json.Bool true => 1%float | Json.Bool false => 0%float
                                  | _ => nan end |}.

(** The diff and the thread of the repositioning example: one added line,
    numbered 2543 on the new side, and a start position near it that carries
    the text of the statement. *)
Definition exampleDiff : GitDiff.t :=
  GitDiff.mk [AnyFileChange.mk [Chunk [AddedLine 2543 "  const x = 1;"]]].

Definition exampleContext : ThreadContext.t :=
  ThreadContext.mk "/src/file.ts" None None
    (Some (Position.mk 2540 1 (Some "const x = 1;")))
    (Some (Position.mk 2540 1 None)).

Definition exampleThread : ReviewThread.t :=
  ReviewThread.mk [sampleComment "Unused constant" None] 1 (Some exampleContext).

(** A parse with two files: the statement stands in the second one only. *)
Definition twoFiles : GitDiff.t :=
  GitDiff.mk [AnyFileChange.mk [Chunk [UnchangedLine 7 7 "  return y;"]];
              AnyFileChange.mk [Chunk [AddedLine 2543 "  const x = 1;"]]].

Definition twoFilesParse : ParseGitDiff := fun _ => twoFiles.

(** The run of the engine on the sample input, evaluated. *)
Definition sampleRun : option (ReviewReport.t * list Finding.t) :=
  Eval vm_compute in
    reviewRun (hash := identityDigest) (parser := emptyParse)
      (sampleInput None) (stubClient sampleRespond).

Definition sampleReport : ReviewReport.t :=
  match sampleRun with
  | Some (report, _) => report
  | None => ReviewReport.mk EmptyString [] []
  end.

Definition sampleGenerated : list Finding.t :=
  match sampleRun with Some (_, gen) => gen | None => [] end.

(** The data of the unit tests of [dedupeUtils]. *)
Definition baseComments : list ReviewComment.t :=
  [ReviewComment.mk "A" 0 (Some 0.9%float) None None None;
   ReviewComment.mk "B" 0 (Some 0.5%float) None None None;
   ReviewComment.mk "C" 0 (Some 0.2%float) None None None;
   ReviewComment.mk "D" 0 None None None None].

Definition basePolicy : ReviewPolicy.t :=
  ReviewPolicy.mk (Checks.mk true true true) true
    (Confidence.mk true 0.6) (DedupeAcrossFiles.mk true 1) (Prompts.mk [] None).

(** ** Further notions used in the statements *)
(** [g] is a finding that [threadToFindings] builds from some thread for
    the normalized path of one of [files]. *)
Definition builtFor (files : list FileDiff.t) (g : Finding.t) : Prop :=
  ∃ file thread,
    file ∈ files ∧ g ∈ threadToFindings thread (normalizePath (FileDiff.path file)).

(** What a finding keeps of the comment it is built from. *)
Definition commentOfFinding (f : Finding.t) : ReviewComment.t :=
  ReviewComment.mk (Finding.content f) 0 (Finding.confidence f) None
    (Finding.suggestion f) (Finding.category f).

Definition commentCore (c : ReviewComment.t) : ReviewComment.t :=
  ReviewComment.mk (ReviewComment.content c) 0 (ReviewComment.confidenceScore c) None
    (ReviewComment.fixSuggestion c) (ReviewComment.issueType c).



(** The two positions of one side after
    [fixThreadContextLineNumberAndOffsets], as a function of the two
    positions before. *)
Definition repositioned (fileStart fileEnd : option Position.t) (parsedDiff : GitDiff.t)
    (isRightSide : bool) : option (option Position.t * option Position.t) :=
  match startSnippet fileStart with
  | Some (p, snippet) =>
      '(fileStart', fileEnd') ← updateFileStartAndEnd p snippet fileEnd parsedDiff isRightSide;
      Some (Some fileStart', fileEnd')
  | None => Some (fileStart, fileEnd)
  end.

(** What repositioning never writes: whether a position is there and the
    snippet it carries; the path of a context; the comments and the status
    of a thread. *)
Definition positionShape (p : option Position.t) : option (option string) :=
  Position.snippet <$> p.

Definition contextShape (ctx : ThreadContext.t)
  : string * option (option string) * option (option string)
    * option (option string) * option (option string) :=
  (ThreadContext.filePath ctx,
   positionShape (ThreadContext.leftFileStart ctx),
   positionShape (ThreadContext.leftFileEnd ctx),
   positionShape (ThreadContext.rightFileStart ctx),
   positionShape (ThreadContext.rightFileEnd ctx)).

Definition threadShape (thread : ReviewThread.t) :=
  (ReviewThread.comments thread, ReviewThread.status thread,
   contextShape <$> ReviewThread.threadContext thread).

(** The confidence score of a comment is absent, or a number that is NaN
    or lies between 0 and 1. *)
Definition scoreInRange (comment : Json.t) : bool :=
  match Json.get comment "confidenceScore" with
  | None => true
  | Some (Json.Num x) =>
      PrimFloat.is_nan x || (PrimFloat.leb 0 x && PrimFloat.leb x 1)
  | Some _ => false
  end.

(** An endpoint for evaluation: one token per character, fixed prompts, and
    a model that answers with the empty object. *)
Definition sampleEndpoint : ChatEndpoint :=
  {| encode := fun message => repeat 0%nat (String.length message);
     buildSystemPrompt := fun _ => "Review the diff.";
     buildUserPrompt := fun request => LlmReviewRequest.diff request;
     chatCompletion := fun _ _ => Some (Some "{}") |}.

(** [s] is made of white space only. *)
Fixpoint allWhiteSpace (s : string) : bool :=
  match s with
  | EmptyString => true
  | String c s' => Js.isWhiteSpace c && allWhiteSpace s'
  end.

(** A client that answers from the request alone and keeps the requests it
    was sent, in order. *)
Definition recordingClient (respond : LlmReviewRequest.t -> list ReviewThread.t)
  : LlmClient.t :=
  LlmClient.mk (list LlmReviewRequest.t) []
    (fun log request => Some (LlmReviewResponse.mk (respond request), log ++ [request])).

(** The options every request of a run carries. *)
Definition optionsOf (policy : ReviewPolicy.t) : LlmOptions.t :=
  LlmOptions.mk (ReviewPolicy.checks policy)
                (ReviewPolicy.modifiedLinesOnly policy)
                (Prompts.additional (ReviewPolicy.prompts policy))
                (Confidence.enabled (ReviewPolicy.confidence policy))
                (Prompts.systemPrompt (ReviewPolicy.prompts policy)).

(** The finding that the run on the sample input keeps. *)
Definition sampleKept : Finding.t :=
  Finding.mk "/src/file.ts|Old issue" "/src/file.ts" (Some 1%Z) (Some 1%Z) medium None
    "Code review" "Old issue" (Some 0.9%float) None
    (ReviewThread.threadContext (sampleThread [])) None.

(** A parser that finds the diff of the repositioning example in any text. *)
Definition exampleParse : ParseGitDiff := fun _ => exampleDiff.

(** A request for the sample file, and a model configuration without a
    budget. *)
Definition sampleRequest : LlmReviewRequest.t :=
  LlmReviewRequest.mk "/src/file.ts" (FileDiff.diff sampleFile) [] (optionsOf samplePolicy).

Definition sampleConfig : LlmModelConfig.t := LlmModelConfig.mk "gpt-4o" None.

(** ** The callers of the engine

    What the command line, the HTTP route and the pipeline task do around
    [reviewCode]. In these programs a severity is its name, a string. *)

Module JsMore.

Definition lowerChar (c : ascii) : ascii :=
  let n := N_of_ascii c in
  if ((65 <=? n) && (n <=? 90))%N then ascii_of_N (n + 32) else c.

(** [s.toLowerCase()] *)
Fixpoint toLowerCase (s : string) : string :=
  match s with
  | EmptyString => EmptyString
  | String c s' => String (lowerChar c) (toLowerCase s')
  end.

(** [a.indexOf(x)] on an array of strings: -1 when [x] is no element. *)
Fixpoint arrayIndexOf (a : list string) (x : string) : Z :=
  match a with
  | [] => (-1)%Z
  | y :: rest =>
      if String.eqb y x then 0%Z
      else let i := arrayIndexOf rest x in if (i =? -1)%Z then (-1)%Z else (i + 1)%Z
  end.

End JsMore.

Definition severityName (severity : Severity) : string :=
  match severity with
  | low => "low"
  | medium => "medium"
  | high => "high"
  | critical => "critical"
  end.

Definition severityRank (severity : Severity) : Z :=
  match severity with
  | low => 0
  | medium => 1
  | high => 2
  | critical => 3
  end.

(** *** cli: the exit code *)

Definition severityMeetsThreshold (severity threshold : string) : bool :=
  let order := ["low"; "medium"; "high"; "critical"] in
  let sevIndex := JsMore.arrayIndexOf order (JsMore.toLowerCase severity) in
  let thresholdIndex := JsMore.arrayIndexOf order (JsMore.toLowerCase threshold) in
  if ((sevIndex =? -1) || (thresholdIndex =? -1))%Z then false
  else (thresholdIndex <=? sevIndex)%Z.

(** [(report.findings ?? []).some((f) => severityMeetsThreshold(f.severity, args.failOn))]:
    when it holds, the exit code is 1. *)
Definition hasBlocking (report : ReviewReport.t) (failOn : string) : bool :=
  existsb (fun f => severityMeetsThreshold (severityName (Finding.severity f)) failOn)
          (ReviewReport.findings report).

(** *** api: the route [POST /review] *)

Inductive HttpResponse :=
| Ok200 (report : ReviewReport.t)
| BadRequest400 (error : string)
| ServerError500.

Definition postReview {hash : Sha256Hex} {parser : ParseGitDiff}
    (input : ReviewInput.t) (llmClient : LlmClient.t) : HttpResponse :=
  match ReviewInput.files input with
  | [] => BadRequest400 "files are required"
  | _ =>
      match reviewCode input llmClient with
      | Some report => Ok200 report
      | None => ServerError500
      end
  end.

(** *** ado-task: the previous comments of a pull request

    A thread of the pull request as the service returns it, reduced to what
    the code reads: the path of its context, absent when the thread has no
    context or the context no path, and its comments, each with its id
    rendered as text and its content. *)
Module AdoThread.
Record t := mk { filePath : option string; comments : list (string * string) }.
End AdoThread.

Definition getCommentsForFile (threads : list AdoThread.t) (fileName : string)
  : list PreviousComment.t :=
  let normalized := if Js.startsWith fileName "/" then fileName else "/" +:+ fileName in
  flat_map (fun thread =>
              if bool_decide (AdoThread.filePath thread = Some normalized)
              then map (fun comment =>
                          PreviousComment.mk (Some comment.1) (Some normalized) comment.2 None)
                       (AdoThread.comments thread)
              else [])
           threads.

Definition getCommentsForFiles (threads : list AdoThread.t) (files : list string)
  : list PreviousComment.t :=
  flat_map (getCommentsForFile threads) files.

(** *** core/policy: the file filter

    The list of binary extensions is data of the package; globs are matched
    by a library ([micromatch.isMatch(file, globs, { nocase: true })]) and
    the comma-separated inputs are cut by the regular-expression engine
    ([s.split(/\s*,\s*/)]): the three are taken as they come. *)
Class FilterLibraries := {
  binaryExtensions : list string;
  isMatch : string -> list string -> bool;
  splitCommas : string -> list string }.

Module FileFilterOptions.
Record t := mk {
  fileExtensions : option string;
  fileExtensionExcludes : option string;
  filesToInclude : option string;
  filesToExclude : option string;
  files : list string }.
End FileFilterOptions.

(** [a.includes(x)] on an array of strings. *)
Definition arrayIncludes (a : list string) (x : string) : bool :=
  existsb (String.eqb x) a.

(** A string in a condition: absent and empty are false. *)
Definition nonEmptyInput (input : option string) : bool :=
  match input with
  | Some s => (0 <? String.length s)%nat
  | None => false
  end.

(** [s.replace(/^\./, '')] *)
Definition dropLeadingDot (s : string) : string :=
  match s with
  | String "."%char rest => rest
  | _ => s
  end.

Definition getFileExtension (fileName : string) : string :=
  let idx := Js.lastIndexOf fileName "." in
  if (0 <=? idx)%Z
  then String.substring (Z.to_nat idx) (String.length fileName - Z.to_nat idx) fileName
  else EmptyString.

Section FileFilter.

Context {libraries : FilterLibraries}.

Definition parseInputToArray (input : option string) : list string :=
  match input with
  | Some s => splitCommas (Js.trim s)
  | None => []
  end.

Definition filterFilesForReview (options : FileFilterOptions.t) : list string :=
  let fileExtensions := FileFilterOptions.fileExtensions options in
  let fileExtensionExcludes := FileFilterOptions.fileExtensionExcludes options in
  let filesToInclude := FileFilterOptions.filesToInclude options in
  let filesToExclude := FileFilterOptions.filesToExclude options in
  let filesToReview :=
    List.filter
      (fun file => negb (arrayIncludes binaryExtensions (dropLeadingDot (getFileExtension file))))
      (FileFilterOptions.files options) in
  let filesToReview :=
    if nonEmptyInput fileExtensions || nonEmptyInput filesToInclude then
      let fileExtensionsToInclude := parseInputToArray fileExtensions in
      let fileToIncludeGlob := parseInputToArray filesToInclude in
      List.filter
        (fun file =>
           let fileExtension := getFileExtension file in
           arrayIncludes fileExtensionsToInclude fileExtension
           || isMatch file fileToIncludeGlob)
        filesToReview
    else filesToReview in
  let filesToReview :=
    if nonEmptyInput fileExtensionExcludes || nonEmptyInput filesToExclude then
      let fileExtensionsToExclude := parseInputToArray fileExtensionExcludes in
      let filesToExcludeGlob := parseInputToArray filesToExclude in
      List.filter
        (fun file =>
           let fileExtension := getFileExtension file in
           negb (arrayIncludes fileExtensionsToExclude fileExtension)
           && negb (isMatch file filesToExcludeGlob))
        filesToReview
    else filesToReview in
  filesToReview.

(** The filter as one test on each file. *)
Definition keptByFilter (options : FileFilterOptions.t) (file : string) : bool :=
  negb (arrayIncludes binaryExtensions (dropLeadingDot (getFileExtension file)))
  && (negb (nonEmptyInput (FileFilterOptions.fileExtensions options)
            || nonEmptyInput (FileFilterOptions.filesToInclude options))
      || arrayIncludes (parseInputToArray (FileFilterOptions.fileExtensions options))
                       (getFileExtension file)
      || isMatch file (parseInputToArray (FileFilterOptions.filesToInclude options)))
  && (negb (nonEmptyInput (FileFilterOptions.fileExtensionExcludes options)
            || nonEmptyInput (FileFilterOptions.filesToExclude options))
      || negb (arrayIncludes (parseInputToArray (FileFilterOptions.fileExtensionExcludes options))
                             (getFileExtension file))
         && negb (isMatch file (parseInputToArray (FileFilterOptions.filesToExclude options)))).

End FileFilter.

(** The options with another list of files. *)
Definition withFiles (options : FileFilterOptions.t) (files : list string)
  : FileFilterOptions.t :=
  FileFilterOptions.mk (FileFilterOptions.fileExtensions options)
    (FileFilterOptions.fileExtensionExcludes options)
    (FileFilterOptions.filesToInclude options)
    (FileFilterOptions.filesToExclude options) files.

(** Libraries for evaluation: two binary extensions, a matcher that knows
    the pattern [src/*] only, and a cut at commas without white space. *)
Fixpoint cutAtCommas (s : string) : list string :=
  match s with
  | EmptyString => [EmptyString]
  | String c s' =>
      if Ascii.eqb c ","%char then EmptyString :: cutAtCommas s'
      else match cutAtCommas s' with
           | p :: ps => String c p :: ps
           | [] => [String c EmptyString]
           end
  end.

Definition sampleLibraries : FilterLibraries :=
  {| binaryExtensions := ["exe"; "pdf"];
     isMatch := fun file globs => arrayIncludes globs "src/*" && String.prefix "src/" file;
     splitCommas := cutAtCommas |}.

(** A policy with cross-file dedup enabled and the threshold 0, a second
    file, and an answer with one comment. *)
Definition latchPolicy : ReviewPolicy.t :=
  ReviewPolicy.mk (Checks.mk true true true) true
    (Confidence.mk false 0) (DedupeAcrossFiles.mk true 0) (Prompts.mk [] None).

Definition secondFile : FileDiff.t :=
  FileDiff.mk "src/other.ts" "diff --git a/src/other.ts b/src/other.ts".

Definition oneComment : LlmReviewRequest.t -> list ReviewThread.t :=
  fun _ => [sampleThread [sampleComment "Old issue" None]].

(** *** ado-task: the publisher

    A JavaScript [Map] is the list of its entries in the order of
    insertion. *)
Module JsMap.

Section Entries.

Context {V : Type}.

(** [m.has(key)] *)
Fixpoint has (key : string) (m : list (string * V)) : bool :=
  match m with
  | [] => false
  | (k, _) :: rest => String.eqb k key || has key rest
  end.

(** [m.get(key)] *)
Fixpoint get (key : string) (m : list (string * V)) : option V :=
  match m with
  | [] => None
  | (k, v) :: rest => if String.eqb k key then Some v else get key rest
  end.

(** [m.set(key, value)]: a new key goes last, a known key keeps its place. *)
Fixpoint set (key : string) (value : V) (m : list (string * V)) : list (string * V) :=
  match m with
  | [] => [(key, value)]
  | (k, v) :: rest =>
      if String.eqb k key then (k, value) :: rest else (k, v) :: set key value rest
  end.

(** The value of [key] rewritten in place by [change]. *)
Fixpoint update (key : string) (change : V -> V) (m : list (string * V))
  : list (string * V) :=
  match m with
  | [] => []
  | (k, v) :: rest =>
      if String.eqb k key then (k, change v) :: rest else (k, v) :: update key change rest
  end.

End Entries.

End JsMap.

Definition normalizeAdoPath (path : option string) : string :=
  let raw := Js.trim (default EmptyString path) in
  if negb (0 <? String.length raw)%nat then EmptyString
  else if Js.startsWith raw "/" then raw else "/" +:+ raw.

(** [this.normalizeAdoPath(f.filePath) || '(PR-level / no file)'] *)
Definition groupKey (f : Finding.t) : string :=
  let key := normalizeAdoPath (Some (Finding.filePath f)) in
  if (0 <? String.length key)%nat then key else "(PR-level / no file)".

(** One turn of the loop of [groupByFile]. *)
Definition groupStep (map : list (string * list Finding.t)) (f : Finding.t)
  : list (string * list Finding.t) :=
  let key := groupKey f in
  let map := if negb (JsMap.has key map) then JsMap.set key [] map else map in
  JsMap.update key (fun group => group ++ [f]) map.

Definition groupByFile (findings : list Finding.t) : list (string * list Finding.t) :=
  fold_left groupStep findings [].

(** [maxPerFile] is a whole number: the task reads it as one. *)
Definition applyLimit (findings : list Finding.t) (maxPerFile : Z) : list Finding.t :=
  if ((maxPerFile =? 0) || (maxPerFile <=? 0))%Z then findings
  else take (Z.to_nat maxPerFile) findings.

(** *** cli: the diffs handed to the engine

    [maxDiffChars] is taken as a whole number. *)
Definition truncationNote (maxDiffChars : nat) : string :=
  newline +:+ "... [diff truncated to " +:+ Js.showNat maxDiffChars +:+ " chars]" +:+ newline.

Definition filterAndClampDiffs {libraries : FilterLibraries}
    (allDiffs : list FileDiff.t) (maxDiffChars : nat) : list FileDiff.t :=
  let allPaths := map FileDiff.path allDiffs in
  let filteredPaths :=
    filterFilesForReview (FileFilterOptions.mk None None None None allPaths) in
  let allowed := filteredPaths in
  map (fun d =>
         if (String.length (FileDiff.diff d) <=? maxDiffChars)%nat then d
         else FileDiff.mk (FileDiff.path d)
                (Js.slice (FileDiff.diff d) 0 maxDiffChars +:+ truncationNote maxDiffChars))
      (List.filter (fun d => arrayIncludes allowed (FileDiff.path d)) allDiffs).

(** * Properties *)

(** ** The confidence filter *)

Lemma filterCommentsByConfidence_remaining (comments : list ReviewComment.t) (m : float) :
  snd (filterCommentsByConfidence comments m)
  = List.filter (fun c => negb (belowMinimum (ReviewComment.confidenceScore c) m)) comments.
Proof.
  induction comments as [|c rest IH]; [reflexivity|].
  simpl. destruct (filterCommentsByConfidence rest m) as [fo rem]. simpl in IH.
  destruct (belowMinimum _ _); simpl; congruence.
Qed.

Lemma filterCommentsByPolicy_remaining (comments : list ReviewComment.t) (policy : ReviewPolicy.t) :
  snd (filterCommentsByPolicy comments policy)
  = List.filter
      (fun c => negb (Confidence.enabled (ReviewPolicy.confidence policy)
                      && belowMinimum (ReviewComment.confidenceScore c)
                           (Confidence.minimum (ReviewPolicy.confidence policy))))
      comments.
Proof.
  unfold filterCommentsByPolicy.
  destruct (Confidence.enabled _); simpl.
  - apply filterCommentsByConfidence_remaining.
  - induction comments as [|c rest IH]; simpl; congruence.
Qed.

Lemma confidencePartition_spec (findings : list Finding.t) (m : float) :
  confidencePartition findings m
  = (List.filter (fun f => negb (belowMinimum (Finding.confidence f) m)) findings,
     List.filter (fun f => belowMinimum (Finding.confidence f) m) findings).
Proof.
  induction findings as [|f rest IH]; [reflexivity|].
  simpl. rewrite IH. destruct (belowMinimum _ _); reflexivity.
Qed.

Lemma confidencePartition_perm (findings : list Finding.t) (m : float) :
  fst (confidencePartition findings m) ++ snd (confidencePartition findings m) ≡ₚ findings.
Proof.
  induction findings as [|f rest IH]; [reflexivity|].
  simpl. destruct (confidencePartition rest m) as [rem fo]. simpl in IH.
  destruct (belowMinimum _ _); simpl.
  - rewrite <- Permutation_middle. by f_equiv.
  - by f_equiv.
Qed.

Lemma applyConfidenceFilter_perm (findings : list Finding.t) (policy : ReviewPolicy.t) :
  fst (applyConfidenceFilterToFindings findings policy)
  ++ snd (applyConfidenceFilterToFindings findings policy) ≡ₚ findings.
Proof.
  unfold applyConfidenceFilterToFindings. destruct (Confidence.enabled _); simpl.
  - apply confidencePartition_perm.
  - by rewrite app_nil_r.
Qed.

(** What stays after the filter is part of what came in, and passes. *)
Lemma applyConfidenceFilter_remaining (findings : list Finding.t) (policy : ReviewPolicy.t)
    (f : Finding.t) :
  f ∈ fst (applyConfidenceFilterToFindings findings policy) ->
  f ∈ findings
  ∧ (Confidence.enabled (ReviewPolicy.confidence policy) = true ->
     belowMinimum (Finding.confidence f) (Confidence.minimum (ReviewPolicy.confidence policy))
     = false).
Proof.
  unfold applyConfidenceFilterToFindings.
  destruct (Confidence.enabled _); simpl.
  - rewrite confidencePartition_spec. simpl.
    rewrite list_elem_of_In, filter_In, <- list_elem_of_In.
    intros [Hin Hb]. split; [done|]. intros _. by apply negb_true_iff.
  - intros Hin. split; [done|]. discriminate.
Qed.

Lemma applyConfidenceFilter_remaining_intro (findings : list Finding.t)
    (policy : ReviewPolicy.t) (f : Finding.t) :
  f ∈ findings ->
  Confidence.enabled (ReviewPolicy.confidence policy)
  && belowMinimum (Finding.confidence f) (Confidence.minimum (ReviewPolicy.confidence policy))
  = false ->
  f ∈ fst (applyConfidenceFilterToFindings findings policy).
Proof.
  unfold applyConfidenceFilterToFindings.
  destruct (Confidence.enabled _); simpl; [|done].
  rewrite confidencePartition_spec. simpl.
  rewrite !list_elem_of_In, filter_In. intros Hin Hb. split; [done|].
  by apply negb_true_iff.
Qed.

(** ** The exclusion list and its latch *)

(** C4. For one file: with cross-file dedup disabled the exclusion list is
    the contents of the file's previous comments and the latch is left as it
    was; with it enabled the list is the previous comments followed by every
    run comment when the returned latch is set and the previous comments
    alone otherwise, and the latch goes from unset to set exactly when the
    number of run comments that pass the confidence filter is strictly above
    the threshold. A latch that comes in set goes out set. *)
Theorem exclusion_list_and_latch
    (fileComments runComments : list ReviewComment.t) (policy : ReviewPolicy.t) (met : bool) :
  let conf := ReviewPolicy.confidence policy in
  let dedupe := ReviewPolicy.dedupeAcrossFiles policy in
  let passing :=
    List.filter
      (fun c => negb (Confidence.enabled conf
                      && belowMinimum (ReviewComment.confidenceScore c) (Confidence.minimum conf)))
      runComments in
  let exceeds :=
    PrimFloat.ltb (DedupeAcrossFiles.threshold dedupe) (Js.numberOfLength (length passing)) in
  let exclusion := fst (getCommentContentForExclusion fileComments runComments policy met) in
  let met' := snd (getCommentContentForExclusion fileComments runComments policy met) in
  (DedupeAcrossFiles.enabled dedupe = false ->
     exclusion = map ReviewComment.content fileComments ∧ met' = met)
  ∧ (DedupeAcrossFiles.enabled dedupe = true ->
       (met' = true ->
          exclusion = map ReviewComment.content fileComments
                      ++ map ReviewComment.content runComments)
       ∧ (met' = false -> exclusion = map ReviewComment.content fileComments)
       ∧ ((met = false ∧ met' = true) <-> (met = false ∧ exceeds = true)))
  ∧ (met = true -> met' = true).
Proof.
  intros conf dedupe passing exceeds exclusion met'.
  subst exclusion met' exceeds passing.
  unfold getCommentContentForExclusion.
  rewrite filterCommentsByPolicy_remaining.
  fold conf dedupe.
  destruct (DedupeAcrossFiles.enabled dedupe), met; simpl;
    try destruct (PrimFloat.ltb _ _); simpl; rewrite ?map_app;
    intuition congruence.
Qed.

(** ** The final dedup *)

Section DedupProperties.

Context {hash : Sha256Hex}.

Implicit Types (P seen : gset string) (findings : list Finding.t).

Lemma withId_erase (f : Finding.t) (s : string) :
  Finding.withId (Finding.withId f s) EmptyString = Finding.withId f EmptyString.
Proof. reflexivity. Qed.

Lemma withId_same (f : Finding.t) : Finding.withId f (Finding.id f) = f.
Proof. by destruct f. Qed.

(** A finding that has no id yet is signed by the hash of its path and of
    its trimmed content. *)
Lemma signatureOf_fresh (f : Finding.t) :
  Finding.id f = EmptyString ->
  signatureOf f
  = sha256Hex (Finding.filePath f +:+ "|" +:+ Js.trim (Finding.content f)).
Proof. intros Hid. unfold signatureOf. by rewrite Hid. Qed.

(** Running the loop over a concatenation is running it over the parts,
    the second from the set the first one leaves. *)
Lemma dedupeLoop_app P findings1 findings2 seen :
  dedupeLoop P (findings1 ++ findings2) seen
  = let '(d1, r1, s1) := dedupeLoop P findings1 seen in
    let '(d2, r2, s2) := dedupeLoop P findings2 s1 in
    (d1 ++ d2, r1 ++ r2, s2).
Proof.
  revert seen. induction findings1 as [|f rest IH]; intros seen.
  - simpl. by destruct (dedupeLoop P findings2 seen) as [[d2 r2] s2].
  - simpl. destruct (_ || _).
    + rewrite IH. destruct (dedupeLoop P rest seen) as [[d1 r1] s1].
      by destruct (dedupeLoop P findings2 s1) as [[d2 r2] s2].
    + rewrite IH. destruct (dedupeLoop P rest _) as [[d1 r1] s1].
      by destruct (dedupeLoop P findings2 s1) as [[d2 r2] s2].
Qed.

(** The set that comes out is the set that went in and the ids handed out. *)
Lemma dedupeLoop_seen P findings seen :
  (dedupeLoop P findings seen).2
  = seen ∪ list_to_set (map Finding.id (dedupeLoop P findings seen).1.1).
Proof.
  revert seen. induction findings as [|f rest IH]; intros seen; simpl.
  - set_solver.
  - destruct (_ || _).
    + specialize (IH seen). destruct (dedupeLoop P rest seen) as [[d r] s]. done.
    + specialize (IH ({[signatureOf f]} ∪ seen)).
      destruct (dedupeLoop P rest _) as [[d r] s]. simpl in *. rewrite IH.
      set_solver.
Qed.

Lemma dedupeLoop_seen_mono P findings seen :
  seen ⊆ (dedupeLoop P findings seen).2.
Proof. rewrite dedupeLoop_seen. set_solver. Qed.

(** Every signature met is, afterwards, in one of the two sets. *)
Lemma dedupeLoop_covered P findings seen (f : Finding.t) :
  f ∈ findings ->
  signatureOf f ∈ (dedupeLoop P findings seen).2 ∨ signatureOf f ∈ P.
Proof.
  revert seen. induction findings as [|g rest IH]; intros seen Hin.
  - by apply elem_of_nil in Hin.
  - apply elem_of_cons in Hin. simpl.
    destruct (_ || _) eqn:Hseen.
    + destruct Hin as [->|Hin].
      * apply orb_true_iff in Hseen as [Hs|Hs]; apply bool_decide_eq_true in Hs.
        -- left. pose proof (dedupeLoop_seen_mono P rest seen) as Hm.
           destruct (dedupeLoop P rest seen) as [[d r] s]. set_solver.
        -- by right.
      * specialize (IH seen Hin). by destruct (dedupeLoop P rest seen) as [[d r] s].
    + destruct Hin as [->|Hin].
      * left. pose proof (dedupeLoop_seen_mono P rest ({[signatureOf g]} ∪ seen)) as Hm.
        destruct (dedupeLoop P rest _) as [[d r] s]. set_solver.
      * specialize (IH ({[signatureOf g]} ∪ seen) Hin).
        by destruct (dedupeLoop P rest _) as [[d r] s].
Qed.

(** What is kept is an incoming finding with its signature for id. *)
Lemma dedupeLoop_deduped P findings seen (d : Finding.t) :
  d ∈ (dedupeLoop P findings seen).1.1 ->
  ∃ f, f ∈ findings ∧ d = Finding.withId f (signatureOf f).
Proof.
  revert seen. induction findings as [|g rest IH]; intros seen; simpl.
  - intros Hin. by apply elem_of_nil in Hin.
  - destruct (_ || _).
    + specialize (IH seen). destruct (dedupeLoop P rest seen) as [[ds r] s].
      intros Hin. destruct (IH Hin) as (f & ? & ?). exists f. set_solver.
    + specialize (IH ({[signatureOf g]} ∪ seen)).
      destruct (dedupeLoop P rest _) as [[ds r] s]. simpl in *.
      intros Hin. apply elem_of_cons in Hin as [->|Hin].
      * exists g. set_solver.
      * destruct (IH Hin) as (f & ? & ?). exists f. set_solver.
Qed.

(** Kept and removed findings are the incoming ones, each once. *)
Lemma dedupeLoop_perm P findings seen :
  Forall (fun f => Finding.id f = EmptyString) findings ->
  map (fun f => Finding.withId f EmptyString) (dedupeLoop P findings seen).1.1
  ++ (dedupeLoop P findings seen).1.2 ≡ₚ findings.
Proof.
  revert seen. induction findings as [|g rest IH]; intros seen Hid; simpl; [done|].
  apply Forall_cons in Hid as [Hg Hrest].
  destruct (_ || _).
  - specialize (IH seen Hrest). destruct (dedupeLoop P rest seen) as [[d r] s].
    simpl in *. rewrite <- Permutation_middle. by f_equiv.
  - specialize (IH ({[signatureOf g]} ∪ seen) Hrest).
    destruct (dedupeLoop P rest _) as [[d r] s]. simpl in *.
    assert (Finding.withId g EmptyString = g) as Hsame
      by (rewrite <- Hg; apply withId_same).
    rewrite withId_erase, Hsame. by f_equiv.
Qed.


End DedupProperties.

(** ** The orchestration loop *)

Section RunProperties.

Context {hash : Sha256Hex} {parser : ParseGitDiff}.

Lemma threadToFindings_fresh (thread : ReviewThread.t) (path : string) (f : Finding.t) :
  f ∈ threadToFindings thread path ->
  Finding.id f = EmptyString ∧ Finding.filePath f = path.
Proof.
  unfold threadToFindings. destruct (deriveLineRange _) as [ls le].
  intros Hin. apply list_elem_of_fmap in Hin as (c & -> & _). done.
Qed.

Lemma threadFindings_fresh (threads : list ReviewThread.t) (path : string) (f : Finding.t) :
  f ∈ flat_map (fun thread => threadToFindings thread path) threads ->
  Finding.id f = EmptyString ∧ Finding.filePath f = path.
Proof.
  rewrite list_elem_of_In, in_flat_map. intros (t & _ & Hin).
  apply list_elem_of_In in Hin. by eapply threadToFindings_fresh.
Qed.

Lemma normalizePath_slash (path : string) : Js.startsWith (normalizePath path) "/" = true.
Proof.
  unfold normalizePath. destruct (Js.startsWith path "/") eqn:E; [done|].
  unfold Js.startsWith. cbn. by destruct path.
Qed.

Lemma normalizePath_idem (path : string) : normalizePath (normalizePath path) = normalizePath path.
Proof. unfold normalizePath at 1. by rewrite normalizePath_slash. Qed.

(** One turn of the loop, taken apart. *)
Lemma reviewFile_inv (input : ReviewInput.t) (llmClient : LlmClient.t)
    (st st' : RunState (LlmClient.state llmClient)) (file : FileDiff.t) :
  reviewFile input llmClient st file = Some st' ->
  ∃ response llm' threads,
    let exclusion :=
      getCommentContentForExclusion
        (previousFileCommentsOf (ReviewInput.previousComments input) file)
        (runComments st) (ReviewInput.policy input) (dedupeCriteriaMet st) in
    let threadFindings :=
      flat_map (fun thread => threadToFindings thread (normalizePath (FileDiff.path file)))
               threads in
    let filtered := applyConfidenceFilterToFindings threadFindings (ReviewInput.policy input) in
    let dedup :=
      dedupeAgainstPrevious filtered.1 (ReviewInput.previousComments input)
        (seenSignatures st) in
    LlmClient.reviewCode llmClient (llmState st)
      (buildLlmRequest (FileDiff.path file) (FileDiff.diff file) exclusion.1
         (ReviewInput.policy input))
    = Some (response, llm')
    ∧ fixThreadPositions (LlmReviewResponse.threads response) (FileDiff.diff file)
      = Some threads
    ∧ st' = mkRun ((filteredOut st ++ filtered.2) ++ dedup.1.2)
                  (findings st ++ dedup.1.1)
                  (runComments st ++ flat_map ReviewThread.comments threads)
                  dedup.2 exclusion.2 llm' (generated st ++ threadFindings).
Proof.
  unfold reviewFile. cbv zeta.
  destruct (getCommentContentForExclusion _ _ _ _) as [excl met'].
  destruct (LlmClient.reviewCode _ _ _) as [[response llm']|]; simpl; [|done].
  destruct (fixThreadPositions _ _) as [threads|] eqn:Hfix; simpl; [|done].
  destruct (applyConfidenceFilterToFindings _ _) as [rem fo] eqn:Hfilter.
  destruct (dedupeAgainstPrevious _ _ _) as [[d r] s] eqn:Hdedup.
  intros [= <-]. exists response, llm', threads.
  cbv zeta. rewrite Hfilter. simpl. by rewrite Hdedup.
Qed.

Lemma initialState_invariant (input : ReviewInput.t) (llmClient : LlmClient.t) :
  RunInvariant input (initialState llmClient).
Proof. split; simpl; try done; intros ? Hin; by apply elem_of_nil in Hin. Qed.

Lemma reviewFile_invariant (input : ReviewInput.t) (llmClient : LlmClient.t)
    (st st' : RunState (LlmClient.state llmClient)) (file : FileDiff.t) :
  RunInvariant input st ->
  reviewFile input llmClient st file = Some st' ->
  RunInvariant input st'.
Proof.
  intros [Hfresh Hpart Hseen Hids Hconf Hcov Hpaths] Hstep.
  apply reviewFile_inv in Hstep as (response & llm' & threads & _ & _ & ->).
  set (tf := flat_map _ threads).
  set (policy := ReviewInput.policy input).
  set (prev := ReviewInput.previousComments input) in *.
  pose proof (applyConfidenceFilter_perm tf policy) as Hperm.
  assert (Forall (fun g => Finding.id g = EmptyString) tf) as Htf.
  { apply Forall_forall. intros g Hg. by apply threadFindings_fresh in Hg as [? _]. }
  assert (Forall (fun g => Finding.id g = EmptyString)
            (applyConfidenceFilterToFindings tf policy).1) as Hrem.
  { apply Forall_forall. intros g Hg.
    apply applyConfidenceFilter_remaining in Hg as [Hg _].
    by apply threadFindings_fresh in Hg as [? _]. }
  unfold dedupeAgainstPrevious.
  set (P := previousSignaturesOf prev) in *.
  pose proof (dedupeLoop_perm P _ (seenSignatures st) Hrem) as Hdd.
  pose proof (dedupeLoop_seen P (applyConfidenceFilterToFindings tf policy).1
                (seenSignatures st)) as Hs.
  split; simpl.
  - apply Forall_app. done.
  - clear Hs. revert Hperm Hdd.
    generalize (applyConfidenceFilterToFindings tf policy).2 as fo.
    generalize (dedupeLoop P (applyConfidenceFilterToFindings tf policy).1
                  (seenSignatures st)).1.1 as d.
    generalize (dedupeLoop P (applyConfidenceFilterToFindings tf policy).1
                  (seenSignatures st)).1.2 as r.
    generalize (applyConfidenceFilterToFindings tf policy).1 as rem.
    intros rem r d fo Hperm Hdd.
    rewrite map_app, <- Hpart, <- Hperm, <- Hdd. solve_Permutation.
  - rewrite Hs, Hseen, map_app, list_to_set_app_L. done.
  - intros f Hf. apply elem_of_app in Hf as [Hf|Hf]; [by apply Hids|].
    apply dedupeLoop_deduped in Hf as (g & Hg & ->). simpl.
    apply applyConfidenceFilter_remaining in Hg as [Hg _].
    apply threadFindings_fresh in Hg as [Hid _].
    unfold signatureOf. by rewrite Hid.
  - intros f Hf. apply elem_of_app in Hf as [Hf|Hf]; [by apply Hconf|].
    apply dedupeLoop_deduped in Hf as (g & Hg & ->).
    apply applyConfidenceFilter_remaining in Hg as [_ Hg].
    unfold passesConfidence. simpl. fold policy.
    destruct (Confidence.enabled _); [|done]. by rewrite Hg.
  - intros g Hg Hpass. apply elem_of_app in Hg as [Hg|Hg].
    + destruct (Hcov g Hg Hpass) as [Hin|Hin]; [left|by right].
      by apply (dedupeLoop_seen_mono P).
    + apply (dedupeLoop_covered P _ (seenSignatures st)).
      apply applyConfidenceFilter_remaining_intro; [done|].
      by apply negb_true_iff.
  - intros g Hg. apply elem_of_app in Hg as [Hg|Hg]; [by apply Hpaths|].
    apply threadFindings_fresh in Hg as [_ ->]. apply normalizePath_slash.
Qed.

Lemma reviewFiles_invariant (input : ReviewInput.t) (llmClient : LlmClient.t)
    (files : list FileDiff.t) (st st' : RunState (LlmClient.state llmClient)) :
  RunInvariant input st ->
  reviewFiles input llmClient files st = Some st' ->
  RunInvariant input st'.
Proof.
  revert st. induction files as [|file rest IH]; intros st Hinv; simpl.
  - by intros [= <-].
  - destruct (reviewFile input llmClient st file) as [st1|] eqn:Hstep; simpl; [|done].
    apply IH. by eapply reviewFile_invariant.
Qed.

End RunProperties.

(** ** What a run returns *)

Section ReportProperties.

Context {hash : Sha256Hex} {parser : ParseGitDiff}.

Lemma reviewRun_inv (input : ReviewInput.t) (llmClient : LlmClient.t)
    (report : ReviewReport.t) (gen : list Finding.t) :
  reviewRun input llmClient = Some (report, gen) ->
  (ReviewInput.files input = []
   ∧ report = ReviewReport.mk "No files to review." [] [] ∧ gen = [])
  ∨ (ReviewInput.files input ≠ []
     ∧ ∃ st, reviewFiles input llmClient (ReviewInput.files input) (initialState llmClient)
             = Some st
             ∧ RunInvariant input st
             ∧ report = reportOf st ∧ gen = generated st).
Proof.
  unfold reviewRun. destruct (ReviewInput.files input) as [|file rest] eqn:Hfiles.
  - intros [= <- <-]. by left.
  - destruct (reviewFiles _ _ _ _) as [st|] eqn:Hrun; simpl; [|done].
    intros [= <- <-]. right. split; [done|]. exists st.
    split; [done|]. split; [|done].
    eapply reviewFiles_invariant; [|exact Hrun]. apply initialState_invariant.
Qed.

Lemma withoutSourceThread_withId (l : list Finding.t) :
  map (fun f => Finding.withId f EmptyString) (map Finding.withoutSourceThread l)
  = map Finding.withoutSourceThread (map (fun f => Finding.withId f EmptyString) l).
Proof. rewrite !map_map. by apply map_ext. Qed.

(** C1, in the form the code satisfies. Whenever a run returns a report:
    every generated finding
    is in exactly one of [findings] and [filteredOut], a kept finding being
    the generated one with its id assigned (the two lists together, ids
    reset, are a rearrangement of the generated findings, source threads
    stripped); the two lengths add up to the number generated; for a file
    list that is not empty the summary is the sentence with these three
    numbers, and for the empty file list the report is the fixed one with
    its own summary. *)
Theorem report_partition_and_summary (input : ReviewInput.t) (llmClient : LlmClient.t)
    (report : ReviewReport.t) (gen : list Finding.t) :
  reviewRun input llmClient = Some (report, gen) ->
  let kept := ReviewReport.findings report in
  let dropped := ReviewReport.filteredOut report in
  reviewCode input llmClient = Some report
  ∧ map (fun f => Finding.withId f EmptyString) kept ++ dropped
    ≡ₚ map Finding.withoutSourceThread gen
  ∧ (length kept + length dropped = length gen)%nat
  ∧ (ReviewInput.files input ≠ [] ->
     ReviewReport.summaryMarkdown report
     = "Findings: " +:+ Js.showNat (length kept)
       +:+ " (" +:+ Js.showNat (length dropped)
       +:+ " filtered out, total generated " +:+ Js.showNat (length kept + length dropped)
       +:+ ").")
  ∧ (ReviewInput.files input = [] ->
     report = ReviewReport.mk "No files to review." [] []).
Proof.
  intros Hrun kept dropped.
  assert (reviewCode input llmClient = Some report) as Hcode
    by (unfold reviewCode; by rewrite Hrun).
  apply reviewRun_inv in Hrun as [(Hfiles & -> & ->)|(Hfiles & st & _ & Hinv & -> & ->)].
  - repeat split; try done.
  - assert (map (fun f => Finding.withId f EmptyString) kept ++ dropped
            ≡ₚ map Finding.withoutSourceThread (generated st)) as Hperm.
    { subst kept dropped. simpl. rewrite withoutSourceThread_withId, <- map_app.
      by rewrite (inv_partition _ _ Hinv). }
    repeat split; try done.
    + apply Permutation_length in Hperm.
      by rewrite length_app, !length_map in Hperm.
    + intros _. subst kept dropped. simpl. unfold summarize. simpl.
      by rewrite !length_map.
Qed.

(** C7. The confidence step: with the filter disabled nothing is moved to
    filtered-out; with it enabled a finding whose confidence is defined and
    below the minimum is moved to filtered-out and is not kept; a finding
    without a confidence is kept; and no finding of a returned report has a
    defined confidence below the minimum when the filter is enabled. *)
Theorem confidence_filter_step (input : ReviewInput.t) (llmClient : LlmClient.t)
    (findings : list Finding.t) :
  let policy := ReviewInput.policy input in
  let conf := ReviewPolicy.confidence policy in
  let remaining := (applyConfidenceFilterToFindings findings policy).1 in
  let filteredOut := (applyConfidenceFilterToFindings findings policy).2 in
  (Confidence.enabled conf = false -> remaining = findings ∧ filteredOut = [])
  ∧ (Confidence.enabled conf = true ->
     ∀ f c, f ∈ findings -> Finding.confidence f = Some c ->
            PrimFloat.ltb c (Confidence.minimum conf) = true ->
            f ∈ filteredOut ∧ f ∉ remaining)
  ∧ (∀ f, f ∈ findings -> Finding.confidence f = None -> f ∈ remaining ∧ f ∉ filteredOut)
  ∧ (Confidence.enabled conf = true ->
     ∀ report f c, reviewCode input llmClient = Some report ->
                   f ∈ ReviewReport.findings report ->
                   Finding.confidence f = Some c ->
                   PrimFloat.ltb c (Confidence.minimum conf) = false).
Proof.
  intros policy conf remaining filteredOut.
  subst remaining filteredOut. unfold applyConfidenceFilterToFindings. fold conf.
  split; [|split; [|split]].
  - by intros ->.
  - intros -> f c Hin Hc Hlt. simpl. rewrite confidencePartition_spec. simpl.
    rewrite !list_elem_of_In, !filter_In, <- !list_elem_of_In.
    unfold belowMinimum. rewrite Hc, Hlt. simpl. naive_solver.
  - intros f Hin Hc. destruct (Confidence.enabled conf); simpl.
    + rewrite confidencePartition_spec. simpl.
      rewrite !list_elem_of_In, !filter_In, <- !list_elem_of_In.
      unfold belowMinimum. rewrite Hc. simpl. naive_solver.
    + split; [done|]. apply not_elem_of_nil.
  - intros Hen report f c Hcode Hin Hc.
    unfold reviewCode in Hcode.
    destruct (reviewRun input llmClient) as [[report' gen]|] eqn:Hrun; [|done].
    simpl in Hcode. injection Hcode as ->.
    apply reviewRun_inv in Hrun as [(_ & -> & _)|(_ & st & _ & Hinv & -> & _)].
    + by apply elem_of_nil in Hin.
    + simpl in Hin. apply list_elem_of_fmap in Hin as (g & -> & Hg).
      apply (inv_confident _ _ Hinv) in Hg. unfold passesConfidence in Hg.
      fold policy conf in Hg. rewrite Hen in Hg. simpl in *.
      rewrite Hc in Hg. simpl in Hg. by apply negb_true_iff in Hg.
Qed.

End ReportProperties.

(** ** The rule of the final dedup *)

Section FinalDedup.

Context {hash : Sha256Hex}.

Lemma previousSignaturesOf_spec (previousComments : option (list PreviousComment.t))
    (s : string) :
  s ∈ previousSignaturesOf previousComments
  <-> ∃ c, c ∈ default [] previousComments
           ∧ s = sha256Hex (default EmptyString (PreviousComment.filePath c) +:+ "|"
                            +:+ Js.trim (PreviousComment.content c)).
Proof.
  unfold previousSignaturesOf. rewrite elem_of_list_to_set, list_elem_of_fmap.
  unfold buildFindingSignature. naive_solver.
Qed.

(** C3. A finding [f] reaches the final dedup without an id, after the
    findings [pre] and before the findings [post]. Its signature is the hash
    of its path and trimmed content. The set of the previous comments holds
    the hashes of their (path, trimmed content); the run-level set, when [f]
    is reached, is the caller's set and the ids given to the findings of
    [pre] that were kept. If the signature is in one of the two sets, [f] is
    moved, unchanged, to the removed findings and the run-level set stays;
    otherwise [f] is kept with the signature for id and the signature joins
    the run-level set. A finding of [pre] with the same signature puts it in
    one of the sets: the first occurrence wins. *)
Theorem final_dedup_first_occurrence_wins
    (previousComments : option (list PreviousComment.t)) (seen : gset string)
    (pre post : list Finding.t) (f : Finding.t) :
  Finding.id f = EmptyString ->
  let sig := sha256Hex (Finding.filePath f +:+ "|" +:+ Js.trim (Finding.content f)) in
  let P := previousSignaturesOf previousComments in
  let before := dedupeAgainstPrevious pre previousComments seen in
  let run := before.2 in
  signatureOf f = sig
  ∧ (∀ s, s ∈ P
          <-> ∃ c, c ∈ default [] previousComments
                   ∧ s = sha256Hex (default EmptyString (PreviousComment.filePath c) +:+ "|"
                                    +:+ Js.trim (PreviousComment.content c)))
  ∧ run = seen ∪ list_to_set (map Finding.id before.1.1)
  ∧ ((∃ g, g ∈ pre ∧ signatureOf g = sig) -> sig ∈ run ∨ sig ∈ P)
  ∧ (sig ∈ run ∨ sig ∈ P ->
     let after := dedupeAgainstPrevious post previousComments run in
     dedupeAgainstPrevious (pre ++ f :: post) previousComments seen
     = (before.1.1 ++ after.1.1, before.1.2 ++ f :: after.1.2, after.2))
  ∧ (¬ (sig ∈ run ∨ sig ∈ P) ->
     let after := dedupeAgainstPrevious post previousComments ({[sig]} ∪ run) in
     dedupeAgainstPrevious (pre ++ f :: post) previousComments seen
     = (before.1.1 ++ Finding.withId f sig :: after.1.1, before.1.2 ++ after.1.2, after.2)).
Proof.
  intros Hid sig P before run.
  assert (signatureOf f = sig) as Hsig by by apply signatureOf_fresh.
  subst before run. unfold dedupeAgainstPrevious. fold P.
  split; [done|]. split; [apply previousSignaturesOf_spec|].
  split; [apply dedupeLoop_seen|].
  split; [|split].
  - intros (g & Hg & <-). by apply dedupeLoop_covered.
  - intros Hin. cbv zeta. rewrite dedupeLoop_app.
    destruct (dedupeLoop P pre seen) as [[d1 r1] s1]. simpl in *. rewrite Hsig.
    assert (bool_decide (sig ∈ s1) || bool_decide (sig ∈ P) = true) as ->.
    { apply orb_true_iff. destruct Hin; [left|right]; by apply bool_decide_eq_true. }
    by destruct (dedupeLoop P post s1) as [[d2 r2] s2].
  - intros Hnot. cbv zeta. rewrite dedupeLoop_app.
    destruct (dedupeLoop P pre seen) as [[d1 r1] s1]. simpl in *. rewrite Hsig.
    assert (bool_decide (sig ∈ s1) || bool_decide (sig ∈ P) = false) as ->.
    { apply orb_false_iff. split; apply bool_decide_eq_false; tauto. }
    by destruct (dedupeLoop P post _) as [[d2 r2] s2].
Qed.

End FinalDedup.

(** ** Two runs in a row *)

Section Rerun.

Context {hash : Sha256Hex} {parser : ParseGitDiff}.

Variable respond : string -> string -> list ReviewThread.t.


Lemma stub_reviewFile_run (input : ReviewInput.t) (file : FileDiff.t)
    (st : RunState unit) (threads : list ReviewThread.t) :
  stubThreads respond file = Some threads ->
  ∃ st', reviewFile input (stubClient respond) st file = Some st'
         ∧ findings st'
           = findings st
             ++ (dedupeAgainstPrevious
                   (applyConfidenceFilterToFindings (findingsOf file threads)
                      (ReviewInput.policy input)).1
                   (ReviewInput.previousComments input) (seenSignatures st)).1.1.
Proof.
  intros Hfix. unfold reviewFile. cbv zeta.
  destruct (getCommentContentForExclusion _ _ _ _) as [excl met']. simpl.
  unfold stubThreads in Hfix. rewrite Hfix. simpl.
  fold (findingsOf file threads).
  destruct (applyConfidenceFilterToFindings _ _) as [rem fo]. simpl.
  destruct (dedupeAgainstPrevious _ _ _) as [[d r] s]. simpl.
  eexists. split; [reflexivity|done].
Qed.




End Rerun.

(** ** Paths *)

Section Paths.

Context {hash : Sha256Hex} {parser : ParseGitDiff}.

(** Every finding of a returned report has a path that starts with the
    separator. *)
Lemma report_paths_start_with_slash (input : ReviewInput.t) (llmClient : LlmClient.t)
    (report : ReviewReport.t) (f : Finding.t) :
  reviewCode input llmClient = Some report ->
  f ∈ ReviewReport.findings report ++ ReviewReport.filteredOut report ->
  Js.startsWith (Finding.filePath f) "/" = true.
Proof.
  unfold reviewCode.
  destruct (reviewRun input llmClient) as [[r gen]|] eqn:Hrun; [|done].
  simpl. intros [= ->] Hin.
  apply reviewRun_inv in Hrun as [(_ & -> & _)|(_ & st & _ & Hinv & -> & _)].
  - by apply elem_of_nil in Hin.
  - simpl in Hin. rewrite <- map_app in Hin.
    apply list_elem_of_fmap in Hin as (g & -> & Hg). simpl.
    change (Finding.filePath g) with (Finding.filePath (Finding.withId g EmptyString)).
    apply (inv_paths _ _ Hinv). rewrite <- (inv_partition _ _ Hinv).
    apply elem_of_app in Hg as [Hg|Hg]; apply elem_of_app.
    + left. apply list_elem_of_fmap. by exists g.
    + right. assert (Finding.withId g EmptyString = g) as ->; [|done].
      assert (g ∈ generated st) as Hgen
        by (rewrite <- (inv_partition _ _ Hinv); set_solver).
      pose proof (inv_fresh _ _ Hinv) as Hfresh.
      rewrite Forall_forall in Hfresh. rewrite <- (Hfresh g Hgen). apply withId_same.
Qed.

(** A previous comment is put on the exclusion list of a file exactly when
    the two paths agree once normalized. *)
Lemma previousFileCommentsOf_spec (previous : list PreviousComment.t) (file : FileDiff.t)
    (text : string) :
  text ∈ map ReviewComment.content (previousFileCommentsOf (Some previous) file)
  <-> ∃ c, c ∈ previous
           ∧ PreviousComment.content c = text
           ∧ normalizePath (default EmptyString (PreviousComment.filePath c))
             = normalizePath (FileDiff.path file).
Proof.
  unfold previousFileCommentsOf. simpl. rewrite map_map. simpl.
  rewrite list_elem_of_fmap. split.
  - intros (c & -> & Hc). apply list_elem_of_In, filter_In in Hc as [Hc Heq].
    apply String.eqb_eq in Heq. exists c. by rewrite list_elem_of_In.
  - intros (c & Hc & <- & Heq). exists c. split; [done|].
    apply list_elem_of_In, filter_In. split; [by apply list_elem_of_In|].
    by apply String.eqb_eq.
Qed.

(** C6, at a failing input. One file [src/file.ts]; the model reports
    [Old issue] for it; a previous comment [Old issue] carries the same path,
    written without the leading separator. For any digest that tells the two
    spellings apart, the previous comment is selected for the exclusion list
    of the file, yet the final dedup does not recognise it: the finding is
    returned. With the previous comment's path written with the separator,
    the finding is removed. *)
Theorem previous_path_without_slash_escapes_dedup :
  sha256Hex "src/file.ts|Old issue" ≠ sha256Hex "/src/file.ts|Old issue" ->
  let bare := Some [previousAt "src/file.ts" "Old issue"] in
  let slashed := Some [previousAt "/src/file.ts" "Old issue"] in
  map ReviewComment.content (previousFileCommentsOf bare sampleFile) = ["Old issue"]
  ∧ (∃ report, reviewCode (sampleInput bare) (stubClient sampleRespond) = Some report
               ∧ map Finding.content (ReviewReport.findings report) = ["Old issue"]
               ∧ map Finding.filePath (ReviewReport.findings report) = ["/src/file.ts"])
  ∧ (∃ report, reviewCode (sampleInput slashed) (stubClient sampleRespond) = Some report
               ∧ ReviewReport.findings report = []).
Proof.
  intros Hne bare slashed.
  split; [reflexivity|].
  assert (fixThreadPositions
            (sampleRespond (normalizePath (FileDiff.path sampleFile)) (FileDiff.diff sampleFile))
            (FileDiff.diff sampleFile)
          = Some (sampleRespond EmptyString EmptyString)) as Hfix by reflexivity.
  split.
  - destruct (stub_reviewFile_run sampleRespond (sampleInput bare) sampleFile
                (initialState (stubClient sampleRespond)) _ Hfix) as (st' & Hstep & Hfind).
    exists (reportOf st').
    split; [unfold reviewCode, reviewRun; simpl; by rewrite Hstep|].
    simpl. rewrite !map_map. simpl.
    cbn [LlmClient.state stubClient] in *.
    simpl in Hfind. rewrite Hfind. clear Hfind Hstep.
    unfold dedupeAgainstPrevious, previousSignaturesOf, bare. simpl.
    unfold signatureOf, buildFindingSignature. simpl.
    change (Js.trim "Old issue") with "Old issue".
    change ("/src/file.ts" +:+ "|" +:+ "Old issue") with "/src/file.ts|Old issue".
    change ("src/file.ts" +:+ "|" +:+ "Old issue") with "src/file.ts|Old issue".
    rewrite bool_decide_eq_false_2 by set_solver.
    rewrite bool_decide_eq_false_2 by set_solver.
    done.
  - destruct (stub_reviewFile_run sampleRespond (sampleInput slashed) sampleFile
                (initialState (stubClient sampleRespond)) _ Hfix) as (st' & Hstep & Hfind).
    exists (reportOf st').
    split; [unfold reviewCode, reviewRun; simpl; by rewrite Hstep|].
    simpl. cbn [LlmClient.state stubClient] in *.
    simpl in Hfind. rewrite Hfind. clear Hfind Hstep.
    unfold dedupeAgainstPrevious, previousSignaturesOf, slashed. simpl.
    unfold signatureOf, buildFindingSignature. simpl.
    change (Js.trim "Old issue") with "Old issue".
    change (normalizePath "src/file.ts") with "/src/file.ts".
    rewrite (bool_decide_eq_true_2 (_ ∈ _ ∪ _)) by set_solver.
    by rewrite orb_true_r.
Qed.

End Paths.

(** ** Searching a text *)

Lemma append_nil (s : string) : EmptyString +:+ s = s.
Proof. reflexivity. Qed.

Lemma append_cons (a : ascii) (s t : string) : String a s +:+ t = String a (s +:+ t).
Proof. reflexivity. Qed.

Lemma prefix_spec (t s : string) :
  String.prefix t s = true <-> ∃ post, s = t +:+ post.
Proof.
  revert s. induction t as [|a t IH]; intros s.
  - simpl. destruct s; (split; [|done]); intros _; by eexists.
  - destruct s as [|b s]; simpl.
    + split; [done|]. intros (post & Hpost). by rewrite append_cons in Hpost.
    + destruct (ascii_dec a b) as [->|Hab].
      * rewrite IH. split; intros (post & Hpost); exists post.
        -- by rewrite append_cons, Hpost.
        -- rewrite append_cons in Hpost. by injection Hpost.
      * split; [done|]. intros (post & Hpost). rewrite append_cons in Hpost.
        injection Hpost as -> _. done.
Qed.

Lemma find_nil (t : string) :
  Js.find t EmptyString = if String.prefix t EmptyString then Some 0 else None.
Proof. reflexivity. Qed.

Lemma find_cons (t : string) (a : ascii) (s : string) :
  Js.find t (String a s)
  = if String.prefix t (String a s) then Some 0 else S <$> Js.find t s.
Proof. reflexivity. Qed.

(** [find] returns the place of an occurrence ... *)
Lemma find_occurrence (t s : string) (i : nat) :
  Js.find t s = Some i ->
  ∃ pre post, s = pre +:+ t +:+ post ∧ String.length pre = i.
Proof.
  revert i. induction s as [|a s IH]; intros i; rewrite ?find_nil, ?find_cons.
  - destruct (String.prefix t EmptyString) eqn:Hp; [|done].
    intros [= <-]. apply prefix_spec in Hp as (post & Hpost).
    by exists EmptyString, post.
  - destruct (String.prefix t (String a s)) eqn:Hp.
    + intros [= <-]. apply prefix_spec in Hp as (post & Hpost).
      by exists EmptyString, post.
    + destruct (Js.find t s) as [j|]; [|done]. simpl. intros [= <-].
      destruct (IH j eq_refl) as (pre & post & -> & <-).
      by exists (String a pre), post.
Qed.

(** ... and of the first one. *)
Lemma find_first (t s : string) (i : nat) :
  Js.find t s = Some i ->
  ∀ pre post, s = pre +:+ t +:+ post -> i <= String.length pre.
Proof.
  revert i. induction s as [|a s IH]; intros i; rewrite ?find_nil, ?find_cons.
  - destruct (String.prefix t EmptyString); [|done]. intros [= <-] pre post _. lia.
  - destruct (String.prefix t (String a s)) eqn:Hp.
    + intros [= <-] pre post _. lia.
    + destruct (Js.find t s) as [j|]; [|done]. simpl. intros [= <-] pre post Heq.
      destruct pre as [|b pre].
      * rewrite append_nil in Heq.
        assert (String.prefix t (String a s) = true) as Hp'
          by (apply prefix_spec; by exists post).
        congruence.
      * rewrite append_cons in Heq. injection Heq as -> ->.
        simpl. specialize (IH j eq_refl pre post eq_refl). lia.
Qed.

Lemma find_none (t s : string) :
  Js.find t s = None -> ∀ pre post, s ≠ pre +:+ t +:+ post.
Proof.
  induction s as [|a s IH]; rewrite ?find_nil, ?find_cons.
  - destruct (String.prefix t EmptyString) eqn:Hp; [done|]. intros _ pre post Heq.
    destruct pre; [|by rewrite append_cons in Heq].
    rewrite append_nil in Heq.
    assert (String.prefix t EmptyString = true) by (apply prefix_spec; by exists post).
    congruence.
  - destruct (String.prefix t (String a s)) eqn:Hp; [done|].
    destruct (Js.find t s) as [j|]; [done|]. intros _ pre post Heq.
    destruct pre as [|b pre].
    + rewrite append_nil in Heq.
      assert (String.prefix t (String a s) = true) by (apply prefix_spec; by exists post).
      congruence.
    + rewrite append_cons in Heq. injection Heq as -> ->. by eapply IH.
Qed.

Lemma includes_spec (s t : string) :
  Js.includes s t = true <-> ∃ pre post, s = pre +:+ t +:+ post.
Proof.
  unfold Js.includes. destruct (Js.find t s) as [i|] eqn:Hfind.
  - split; [|done]. intros _. apply find_occurrence in Hfind as (pre & post & ? & ?).
    by exists pre, post.
  - split; [done|]. intros (pre & post & Heq). by eapply find_none in Hfind.
Qed.

(** ** Repositioning *)

Lemma sideType_lineNumber (r : AnyLineChange) (side : bool) :
  sideType r side = true -> ∃ n, getLineNumber r side = Some n.
Proof. destruct r, side; simpl; try done; eauto. Qed.

Lemma filterChanges_spec (changes : list AnyLineChange) (text : string) (side : bool)
    (r : AnyLineChange) :
  r ∈ filterChanges changes text side
  <-> r ∈ changes
      ∧ sideType r side = true
      ∧ ∃ pre post, lineContent r = pre +:+ text +:+ post.
Proof.
  unfold filterChanges. rewrite list_elem_of_filter, <- includes_spec.
  destruct (Js.includes _ _), (sideType _ _); simpl; naive_solver.
Qed.

Lemma filterChanges_sideType (changes : list AnyLineChange) (text : string) (side : bool) :
  Forall (fun r => sideType r side = true) (filterChanges changes text side).
Proof.
  apply Forall_forall. intros r Hr. by apply filterChanges_spec in Hr as (_ & ? & _).
Qed.

(** One step of the reducer keeps the choice right for one more candidate. *)
Lemma closest_step (seen : list AnyLineChange) (side : bool) (approx : Z)
    (previous current : AnyLineChange) :
  isClosestFirst seen side approx previous ->
  sideType current side = true ->
  isClosestFirst (seen ++ [current]) side approx
    (if strictlyCloser approx side current previous then current else previous).
Proof.
  intros (i & n & Hi & Hn & Hall) Hside.
  destruct (sideType_lineNumber _ _ Hside) as (c & Hc).
  pose proof (lookup_lt_Some _ _ _ Hi) as Hlt.
  unfold strictlyCloser. rewrite Hc, Hn.
  destruct (Z.ltb_spec (Z.abs (c - approx)) (Z.abs (n - approx))) as [Hcloser|Hnot].
  - exists (length seen), c. split; [|split; [done|]].
    { rewrite lookup_app_r by lia. by rewrite Nat.sub_diag. }
    intros j r' Hj. destruct (decide (j < length seen)%nat) as [Hjs|Hjs].
    + rewrite lookup_app_l in Hj by done.
      destruct (Hall j r' Hj) as (n' & Hn' & Hle & _).
      exists n'. split; [done|]. lia.
    + pose proof (lookup_lt_Some _ _ _ Hj) as Hjl. rewrite length_app in Hjl. simpl in Hjl.
      assert (j = length seen) as -> by lia.
      rewrite lookup_app_r, Nat.sub_diag in Hj by lia. injection Hj as <-.
      exists c. split; [done|]. lia.
  - exists i, n. split; [|split; [done|]].
    { by rewrite lookup_app_l. }
    intros j r' Hj. destruct (decide (j < length seen)%nat) as [Hjs|Hjs].
    + rewrite lookup_app_l in Hj by done. by apply Hall.
    + pose proof (lookup_lt_Some _ _ _ Hj) as Hjl. rewrite length_app in Hjl. simpl in Hjl.
      assert (j = length seen) as -> by lia.
      rewrite lookup_app_r, Nat.sub_diag in Hj by lia. injection Hj as <-.
      exists c. split; [done|]. lia.
Qed.

Lemma closest_fold (rest seen : list AnyLineChange) (side : bool) (approx : Z)
    (acc : AnyLineChange) :
  isClosestFirst seen side approx acc ->
  Forall (fun r => sideType r side = true) rest ->
  isClosestFirst (seen ++ rest) side approx
    (fold_left (fun previous current =>
                  if strictlyCloser approx side current previous then current else previous)
               rest acc).
Proof.
  revert seen acc. induction rest as [|x rest IH]; intros seen acc Hacc Hrest; simpl.
  - by rewrite app_nil_r.
  - apply Forall_cons in Hrest as [Hx Hrest].
    rewrite (cons_middle x seen rest), app_assoc.
    apply IH; [|done]. by apply closest_step.
Qed.

(** The reducer returns the candidate closest to the approximate line, the
    first one among equally close candidates. *)
Lemma findClosestLine_spec (lines : list AnyLineChange) (side : bool) (approx : Z) :
  lines ≠ [] ->
  Forall (fun r => sideType r side = true) lines ->
  ∃ r, findClosestLine lines approx side = Some r ∧ isClosestFirst lines side approx r.
Proof.
  destruct lines as [|line0 rest]; [done|]. intros _ Hall.
  apply Forall_cons in Hall as [H0 Hrest].
  destruct (sideType_lineNumber _ _ H0) as (n0 & Hn0).
  eexists. split; [reflexivity|]. simpl.
  assert (strictlyCloser approx side line0 line0 = false) as ->.
  { unfold strictlyCloser. rewrite Hn0. apply Z.ltb_irrefl. }
  apply (closest_fold rest [line0]); [|done].
  exists 0%nat, n0. split; [done|]. split; [done|].
  intros j r' Hj. destruct j; [|done]. injection Hj as <-.
  exists n0. split; [done|]. lia.
Qed.

Lemma findClosestLine_nil (side : bool) (approx : Z) : findClosestLine [] approx side = None.
Proof. reflexivity. Qed.

Lemma lineAndOffset_none (d : GitDiff.t) (text : string) (approx : Z) (side : bool) :
  filterChanges (getChangesFromDiff d) text side = [] ->
  getLineNumberAndOffset d text approx side = (None, None).
Proof. intros Hnone. unfold getLineNumberAndOffset, getGitDiffLine. by rewrite Hnone. Qed.

(** With a candidate at hand the search returns the line number of the
    closest one and, for offset, the place of the first occurrence of the
    text in its content, counted from one. *)
Lemma lineAndOffset_match (d : GitDiff.t) (text : string) (approx : Z) (side : bool) :
  filterChanges (getChangesFromDiff d) text side ≠ [] ->
  ∃ r n pre post,
    isClosestFirst (filterChanges (getChangesFromDiff d) text side) side approx r
    ∧ getLineNumber r side = Some n
    ∧ lineContent r = pre +:+ text +:+ post
    ∧ (∀ pre' post', lineContent r = pre' +:+ text +:+ post' ->
                     String.length pre <= String.length pre')
    ∧ Js.indexOf (lineContent r) text = Z.of_nat (String.length pre)
    ∧ getLineNumberAndOffset d text approx side = (Some n, Some (strLen pre + 1)%Z).
Proof.
  intros Hsome.
  destruct (findClosestLine_spec _ side approx Hsome (filterChanges_sideType _ _ _))
    as (r & Hfind & Hclosest).
  pose proof Hclosest as (i & n & Hi & Hn & _).
  assert (r ∈ filterChanges (getChangesFromDiff d) text side) as Hr
    by (by eapply list_elem_of_lookup_2).
  unfold filterChanges in Hr. apply list_elem_of_filter in Hr as [Hr _].
  apply Is_true_true, andb_true_iff in Hr as [Hinc _].
  unfold Js.includes in Hinc.
  destruct (Js.find text (lineContent r)) as [k|] eqn:Hk; [|done].
  destruct (find_occurrence _ _ _ Hk) as (pre & post & Hpre & Hlen).
  exists r, n, pre, post. repeat split; try done.
  - intros pre' post' Heq. rewrite Hlen. by eapply find_first.
  - unfold Js.indexOf. by rewrite Hk, Hlen.
  - unfold getLineNumberAndOffset, getGitDiffLine. rewrite Hfind, Hn.
    unfold Js.indexOf, strLen. by rewrite Hk, Hlen.
Qed.

Lemma startSnippet_some (p : Position.t) (s : string) :
  Position.snippet p = Some s -> s ≠ EmptyString -> startSnippet (Some p) = Some (p, s).
Proof. intros Hs Hne. unfold startSnippet. rewrite Hs. by destruct s. Qed.

Lemma setSide_same (ctx : ThreadContext.t) (side : bool) :
  setSide ctx side (sideStart ctx side) (sideEnd ctx side) = ctx.
Proof. by destruct ctx, side. Qed.


Lemma startSnippet_inv (fileStart : option Position.t) (p : Position.t) (s : string) :
  startSnippet fileStart = Some (p, s) ->
  fileStart = Some p ∧ Position.snippet p = Some s ∧ s ≠ EmptyString.
Proof.
  unfold startSnippet. destruct fileStart as [q|]; [|done].
  destruct (Position.snippet q) as [t|] eqn:Ht; [|done].
  destruct t; simpl; [done|]. intros [= <- <-]. by rewrite Ht.
Qed.

Lemma noMatch_unchanged (ctx : ThreadContext.t) (searched : AnyFileChange.t)
    (later : list AnyFileChange.t) (side : bool) :
  noMatchOn ctx searched side ->
  fixThreadContextLineNumberAndOffsets ctx (GitDiff.mk (searched :: later)) side = Some ctx.
Proof.
  unfold noMatchOn, fixThreadContextLineNumberAndOffsets.
  destruct (startSnippet (sideStart ctx side)) as [[p s]|] eqn:Hstart; [|done].
  intros Hno. apply startSnippet_inv in Hstart as (Hstart & _ & _).
  unfold updateFileStartAndEnd. cbv zeta. rewrite lineAndOffset_none.
  - simpl. by rewrite <- Hstart, setSide_same.
  - simpl. destruct (filterChanges _ _ _) as [|x l] eqn:Hfilter; [done|].
    assert (x ∈ filterChanges
                  (getChangesFromDiff (GitDiff.mk (searched :: later)))
                  (hd EmptyString (Js.splitLines s)) side) as Hx
      by (rewrite Hfilter; set_solver).
    unfold filterChanges in Hx. apply list_elem_of_filter in Hx as [Hx Hin].
    apply Is_true_true, andb_true_iff in Hx as [Hinc Hside].
    rewrite (Hno x Hin Hside) in Hinc. done.
Qed.

Lemma fixThreadsIn_unchanged (d : GitDiff.t) (threads : list ReviewThread.t) :
  (∀ thread, thread ∈ threads -> fixThread d thread = Some thread) ->
  fixThreadsIn d threads = Some threads.
Proof.
  unfold fixThreadsIn. induction threads as [|t rest IH]; intros Hall; [done|].
  simpl. rewrite (Hall t) by set_solver. simpl.
  rewrite IH; [done|]. intros thread Hin. apply Hall. set_solver.
Qed.

(** C10. When the parse of a diff has a first file and others after it,
    only the records of the first file are searched: repositioning gives what
    it gives on the first file alone, and a thread whose snippets match no
    record of the first file keeps its positions, whatever the later files
    contain. *)
Theorem later_files_are_not_searched {parser : ParseGitDiff} (diff : string)
    (searched : AnyFileChange.t) (later : list AnyFileChange.t)
    (threads : list ReviewThread.t) :
  parseGitDiff diff = GitDiff.mk (searched :: later) ->
  getChangesFromDiff (parseGitDiff diff)
  = flat_map chunkChanges (AnyFileChange.chunks searched)
  ∧ fixThreadPositions threads diff = fixThreadsIn (GitDiff.mk [searched]) threads
  ∧ (∀ ctx side, noMatchOn ctx searched side ->
        fixThreadContextLineNumberAndOffsets ctx (parseGitDiff diff) side = Some ctx)
  ∧ ((∀ thread ctx, thread ∈ threads -> ReviewThread.threadContext thread = Some ctx ->
         noMatchOn ctx searched true ∧ noMatchOn ctx searched false) ->
     fixThreadPositions threads diff = Some threads).
Proof.
  intros Hparse. unfold fixThreadPositions. rewrite Hparse.
  split; [done|]. split; [by destruct threads|].
  split; [intros ctx side; apply noMatch_unchanged|].
  intros Hno. destruct threads as [|t rest]; [done|].
  apply fixThreadsIn_unchanged. intros thread Hin. unfold fixThread.
  destruct (ReviewThread.threadContext thread) as [ctx|] eqn:Hctx; [|done].
  destruct (Hno thread ctx Hin Hctx) as [Hright Hleft].
  rewrite (noMatch_unchanged _ _ _ _ Hright). simpl.
  rewrite (noMatch_unchanged _ _ _ _ Hleft). simpl.
  destruct thread. simpl in Hctx. by rewrite Hctx.
Qed.

(** ** Confidence scores

    Facts about binary64 numbers, from the specification of the primitive
    operations. *)

Lemma ltb_leb (a b : float) : PrimFloat.ltb a b = true -> PrimFloat.leb a b = true.
Proof.
  rewrite FloatAxioms.ltb_spec, FloatAxioms.leb_spec. unfold SFltb, SFleb.
  by destruct (SFcompare _ _) as [[]|].
Qed.

Lemma SFcompare_refl (x : spec_float) : x ≠ S754_nan -> SFcompare x x = Some Eq.
Proof.
  destruct x as [s|s| |s m e]; simpl; try done.
  - by destruct s.
  - intros _. rewrite Z.compare_refl, Pos.compare_cont_refl. by destruct s.
Qed.

Lemma is_nan_false (x : float) : PrimFloat.is_nan x = false <-> Prim2SF x ≠ S754_nan.
Proof.
  unfold PrimFloat.is_nan. rewrite FloatAxioms.eqb_spec. unfold SFeqb. split.
  - intros H Hnan. rewrite Hnan in H. done.
  - intros H. by rewrite SFcompare_refl.
Qed.

Lemma shr_1_nonneg (mrs : shr_record) : (0 <= shr_m mrs)%Z -> (0 <= shr_m (shr_1 mrs))%Z.
Proof. destruct mrs as [[|p|p] r s]; simpl; try lia; destruct p; simpl; lia. Qed.

Lemma iter_shr_1_nonneg (p : positive) (mrs : shr_record) :
  (0 <= shr_m mrs)%Z -> (0 <= shr_m (SpecFloat.iter_pos shr_1 p mrs))%Z.
Proof.
  revert mrs. induction p as [p IH|p IH|]; intros mrs H; simpl.
  - apply IH, IH. by apply shr_1_nonneg.
  - by apply IH, IH.
  - by apply shr_1_nonneg.
Qed.

Lemma shr_fexp_nonneg (m e : Z) (l : location) :
  (0 <= m)%Z -> (0 <= shr_m (shr_fexp prec emax m e l).1)%Z.
Proof.
  intros Hm. unfold shr_fexp, shr.
  assert (0 <= shr_m (shr_record_of_loc m l))%Z as H0 by (by destruct l as [|[]]).
  destruct (_ - _)%Z; simpl; try done. by apply iter_shr_1_nonneg.
Qed.

Lemma round_nearest_even_nonneg (m : Z) (l : location) :
  (0 <= m)%Z -> (0 <= round_nearest_even m l)%Z.
Proof. intros H. destruct l as [|[]]; simpl; try destruct (Z.even m); lia. Qed.

Lemma binary_round_aux_not_nan (sx : bool) (mx ex : Z) (lx : location) :
  (0 <= mx)%Z -> binary_round_aux prec emax sx mx ex lx ≠ S754_nan.
Proof.
  intros Hm. unfold binary_round_aux.
  pose proof (shr_fexp_nonneg mx ex lx Hm) as H1.
  destruct (shr_fexp prec emax mx ex lx) as [mrs' e']. simpl in H1.
  pose proof (shr_fexp_nonneg _ e' loc_Exact
                (round_nearest_even_nonneg _ (loc_of_shr_record mrs') H1)) as H2.
  destruct (shr_fexp prec emax _ e' loc_Exact) as [mrs'' e'']. simpl in H2.
  destruct (shr_m mrs'') as [|p|p]; try done.
  by destruct (_ <=? _)%Z.
Qed.

Lemma div_by_finite_not_nan (x y : float) (sy : bool) (my : positive) (ey : Z) :
  Prim2SF y = S754_finite sy my ey ->
  PrimFloat.is_nan x = false -> PrimFloat.is_nan (x / y) = false.
Proof.
  intros Hy Hx. apply is_nan_false. apply is_nan_false in Hx.
  rewrite FloatAxioms.div_spec, Hy. unfold SF64div, SFdiv.
  destruct (Prim2SF x) as [s|s| |s m e]; try done.
  unfold SFdiv_core_binary.
  set (m' := match _ with Z0 => _ | Zpos _ => _ | Zneg _ => _ end).
  assert (0 <= m')%Z as Hm'.
  { subst m'. destruct (_ - _ - _)%Z; try lia. apply Z.shiftl_nonneg. lia. }
  pose proof (Z.div_pos m' (Z.pos my) Hm' ltac:(lia)) as Hq.
  unfold Z.div in Hq. destruct (Z.div_eucl m' (Z.pos my)) as [q r].
  by apply binary_round_aux_not_nan.
Qed.

Lemma ten_finite : Prim2SF 10 = S754_finite false 5629499534213120 (-49).
Proof. reflexivity. Qed.

Lemma not_less_either_way (y : float) :
  PrimFloat.is_nan y = false ->
  PrimFloat.ltb 1 y = false -> PrimFloat.ltb y 1 = false -> y = 1%float.
Proof.
  intros Hnan H1 H2. apply is_nan_false in Hnan.
  rewrite FloatAxioms.ltb_spec in H1, H2. apply Prim2SF_inj.
  change (Prim2SF 1) with (S754_finite false 4503599627370496 (-52)) in *.
  destruct (Prim2SF y) as [s|s| |s m e];
    cbv beta iota delta [SFltb SFcompare] in H1, H2.
  - by destruct s.
  - by destruct s.
  - done.
  - destruct s; [discriminate H2|].
    rewrite (Z.compare_antisym (-52) e) in H2.
    rewrite !Pos.compare_cont_spec in H1, H2.
    rewrite (Pos.compare_antisym 4503599627370496 m) in H2.
    destruct (-52 ?= e)%Z eqn:He;
      cbv beta iota delta [CompOpp Pos.switch_Eq] in H1, H2;
      [|discriminate H1|discriminate H2].
    apply Z.compare_eq in He. subst e.
    destruct (Pos.compare_spec 4503599627370496 m) as [<-|?|?];
      cbv beta iota delta [CompOpp] in H1, H2;
      [reflexivity|discriminate H1|discriminate H2].
Qed.

Lemma clamp_bounds (y : float) :
  PrimFloat.is_nan y = false ->
  PrimFloat.leb 0 (Js.max 0 (Js.min 1 y)) = true
  ∧ PrimFloat.leb (Js.max 0 (Js.min 1 y)) 1 = true.
Proof.
  intros Hnan. unfold Js.min. rewrite Hnan.
  change (PrimFloat.is_nan 1) with false. simpl.
  destruct (PrimFloat.ltb 1 y) eqn:H1; [by vm_compute|].
  assert (∀ m, m = y -> PrimFloat.leb m 1 = true ->
               PrimFloat.leb 0 (Js.max 0 m) = true ∧ PrimFloat.leb (Js.max 0 m) 1 = true)
    as Hmax.
  { intros m -> Hle. unfold Js.max. rewrite Hnan.
    change (PrimFloat.is_nan 0) with false. simpl.
    destruct (PrimFloat.ltb y 0); [by vm_compute|].
    destruct (PrimFloat.ltb 0 y) eqn:H0; [split; [by apply ltb_leb|done]|].
    by vm_compute. }
  destruct (PrimFloat.ltb y 1) eqn:H2.
  - apply Hmax; [done|by apply ltb_leb].
  - change (Js.isNegZero 1) with false. cbv iota.
    apply Hmax; [done|]. by rewrite (not_less_either_way y Hnan H1 H2).
Qed.

Lemma normalizeConfidence_bounds (s : float) :
  PrimFloat.is_nan s = false ->
  ∃ r, normalizeConfidence (Some s) = Some r
       ∧ PrimFloat.leb 0 r = true ∧ PrimFloat.leb r 1 = true.
Proof.
  intros Hnan. unfold normalizeConfidence.
  destruct (PrimFloat.ltb 1 s); eexists; (split; [reflexivity|]); apply clamp_bounds.
  - by eapply div_by_finite_not_nan; [apply ten_finite|].
  - done.
Qed.

(** C8, in the form the code satisfies. A missing score stays missing; a
    score above 1 is divided by 10 and one that is not is taken as it is, and the outcome is
    brought into [0,1]: for every score that is a number the result lies
    between 0 and 1. A raw 8 gives 0.8 and a raw -0.2 gives 0; a raw 1.4
    gives the binary64 quotient of 1.4 by 10, which is 0.13999999999999999,
    the number just below the binary64 number written 0.14. *)
Theorem confidence_normalization :
  normalizeConfidence None = None
  ∧ (∀ s, PrimFloat.ltb 1 s = true ->
          normalizeConfidence (Some s) = Some (Js.max 0 (Js.min 1 (s / 10))))
  ∧ (∀ s, PrimFloat.ltb 1 s = false ->
          normalizeConfidence (Some s) = Some (Js.max 0 (Js.min 1 s)))
  ∧ (∀ s, PrimFloat.is_nan s = false ->
          ∃ r, normalizeConfidence (Some s) = Some r
               ∧ PrimFloat.leb 0 r = true ∧ PrimFloat.leb r 1 = true)
  ∧ normalizeConfidence (Some 8%float) = Some 0.8%float
  ∧ normalizeConfidence (Some 1.4%float) = Some 0.13999999999999999%float
  ∧ PrimFloat.next_up 0.13999999999999999 = 0.14%float
  ∧ normalizeConfidence (Some (-0.2)%float) = Some 0%float.
Proof.
  split; [done|]. split; [|split; [|split]].
  - intros s Hs. unfold normalizeConfidence. by rewrite Hs.
  - intros s Hs. unfold normalizeConfidence. by rewrite Hs.
  - apply normalizeConfidence_bounds.
  - repeat split; by vm_compute.
Qed.

(** ** Malformed model output *)

Lemma slice_prefix (text : string) (n : nat) :
  (∃ rest, text = Js.slice text 0 n +:+ rest)
  ∧ String.length (Js.slice text 0 n) <= n.
Proof.
  unfold Js.slice. rewrite Nat.sub_0_r. revert text.
  induction n as [|n IH]; intros text.
  - destruct text; simpl; (split; [by eexists|lia]).
  - destruct text as [|a text]; simpl; [split; [by exists EmptyString|lia]|].
    destruct (IH text) as [(rest & Hrest) Hlen]. split; [|lia].
    exists rest. by rewrite append_cons, <- Hrest.
Qed.

Lemma diagnosticThread_shape (filePath reason : string) :
  ∃ thread comment,
    diagnosticThread filePath "BUG" reason = [thread]
    ∧ Json.get thread "comments" = Some (Json.Arr [comment])
    ∧ Json.get comment "content" = Some (Json.Str reason)
    ∧ Json.get comment "confidenceScore" = Some (Json.Num 1)
    ∧ Json.get comment "issueType" = Some (Json.Str "BUG").
Proof. unfold diagnosticThread. by eexists _, _. Qed.

Lemma isValidResponse_thread (parsed : Json.t) (threads : list Json.t) (thread : Json.t) :
  Json.get parsed "threads" = Some (Json.Arr threads) ->
  thread ∈ threads ->
  isValidReviewThread thread = false ->
  isValidResponse parsed = false.
Proof.
  intros Hthreads Hin Hbad. unfold isValidResponse. rewrite Hthreads. simpl.
  apply andb_false_iff. right. apply not_true_iff_false. intros Hall.
  rewrite forallb_forall in Hall. apply list_elem_of_In in Hin.
  rewrite (Hall thread Hin) in Hbad. done.
Qed.

(** C5, in the form the code satisfies. Whatever the model wrote: when no
    JSON object is found in it, and when the text found does not parse, the gateway returns one
    diagnostic thread whose one comment has the failure reason followed by
    the first 800 characters of the raw output for content; when the parsed
    value has no array of threads, or has in it a thread without a location
    path or without an array of comments, it returns one diagnostic thread
    whose comment has the fixed reason for content, without any of the raw
    output. In the three cases the comment has confidence 1 and issue type
    BUG. *)
Theorem malformed_output_gives_one_diagnostic {runtime : JsRuntime} {endpoint : ChatEndpoint}
    (filePath choice : string) :
  let snippet := Js.slice choice 0 800 in
  let noObject :=
    "LLM_OUTPUT_PARSE_ERROR: No JSON object found in output. Output snippet:"
    +:+ newline +:+ snippet in
  let noParse :=
    "LLM_OUTPUT_PARSE_ERROR: Failed to parse JSON. Output snippet:"
    +:+ newline +:+ snippet in
  let invalidShape := "LLM_OUTPUT_INVALID_SHAPE: missing threads[]" in
  ((∃ rest, choice = snippet +:+ rest) ∧ String.length snippet <= 800)
  ∧ (∀ config request content,
       LlmReviewRequest.filePath request = filePath ->
       exceedsTokenLimit config
         (buildSystemPrompt request +:+ newline +:+ buildUserPrompt request) = false ->
       chatCompletion (buildSystemPrompt request) (buildUserPrompt request) = Some content ->
       default EmptyString content = choice ->
       gatewayReviewCode config request = Some (threadsOfChoice filePath choice))
  ∧ (tryExtractJsonObject choice = None ->
     threadsOfChoice filePath choice = diagnosticThread filePath "BUG" noObject)
  ∧ (∀ extracted, tryExtractJsonObject choice = Some extracted ->
       JSON_parse extracted = None ->
       threadsOfChoice filePath choice = diagnosticThread filePath "BUG" noParse)
  ∧ (∀ extracted parsed, tryExtractJsonObject choice = Some extracted ->
       JSON_parse extracted = Some parsed ->
       isValidResponse parsed = false ->
       threadsOfChoice filePath choice = diagnosticThread filePath "BUG" invalidShape)
  ∧ (∀ parsed, Json.isArray (Json.get parsed "threads") = false ->
               isValidResponse parsed = false)
  ∧ (∀ parsed threads thread,
       Json.get parsed "threads" = Some (Json.Arr threads) -> thread ∈ threads ->
       Json.truthy (tc ← Json.get thread "threadContext"; Json.get tc "filePath") = false
       ∨ Json.isArray (Json.get thread "comments") = false ->
       isValidResponse parsed = false)
  ∧ (∀ reason, ∃ thread comment,
       diagnosticThread filePath "BUG" reason = [thread]
       ∧ Json.get thread "comments" = Some (Json.Arr [comment])
       ∧ Json.get comment "content" = Some (Json.Str reason)
       ∧ Json.get comment "confidenceScore" = Some (Json.Num 1)
       ∧ Json.get comment "issueType" = Some (Json.Str "BUG")).
Proof.
  intros snippet noObject noParse invalidShape.
  split; [apply slice_prefix|].
  split.
  { intros config request content <- Hlimit Hchat <-.
    unfold gatewayReviewCode. by rewrite Hlimit, Hchat. }
  unfold threadsOfChoice.
  split; [by intros ->|].
  split; [by intros extracted -> ->|].
  split; [by intros extracted parsed -> -> ->|].
  split.
  { intros parsed Harr. unfold isValidResponse. rewrite Harr.
    by rewrite andb_false_r. }
  split; [|apply diagnosticThread_shape].
  intros parsed threads thread Hthreads Hin Hbad.
  eapply isValidResponse_thread; [done..|].
  unfold isValidReviewThread.
  destruct Hbad as [-> | ->]; by rewrite ?andb_false_r.
Qed.

(** ** Where the findings of a report come from *)

Section Provenance.

Context {hash : Sha256Hex} {parser : ParseGitDiff}.

Lemma reviewFile_generated (input : ReviewInput.t) (llmClient : LlmClient.t)
    (st st' : RunState (LlmClient.state llmClient)) (file : FileDiff.t) (g : Finding.t) :
  reviewFile input llmClient st file = Some st' ->
  g ∈ generated st' ->
  g ∈ generated st ∨ builtFor [file] g.
Proof.
  intros Hstep. apply reviewFile_inv in Hstep as (response & llm' & threads & _ & _ & ->).
  simpl. rewrite elem_of_app. intros [Hin|Hin]; [by left|right].
  apply list_elem_of_In, in_flat_map in Hin as (thread & _ & Hin).
  exists file, thread. split; [set_solver|by apply list_elem_of_In].
Qed.

Lemma reviewFiles_generated (input : ReviewInput.t) (llmClient : LlmClient.t)
    (files : list FileDiff.t) (st st' : RunState (LlmClient.state llmClient)) (g : Finding.t) :
  reviewFiles input llmClient files st = Some st' ->
  g ∈ generated st' ->
  g ∈ generated st ∨ builtFor files g.
Proof.
  revert st. induction files as [|file rest IH]; intros st; simpl.
  - intros [= <-]. by left.
  - destruct (reviewFile input llmClient st file) as [st1|] eqn:Hstep; simpl; [|done].
    intros Hrest Hin. destruct (IH st1 Hrest Hin) as [Hgen|(f & t & Hf & Ht)].
    + destruct (reviewFile_generated _ _ _ _ _ _ Hstep Hgen) as [?|(f & t & Hf & Ht)];
        [by left|right].
      exists f, t. split; [set_solver|done].
    + right. exists f, t. split; [set_solver|done].
Qed.

(** A finding of a report is a built finding, given an id and relieved of
    its source thread. *)
Lemma report_finding_origin (input : ReviewInput.t) (llmClient : LlmClient.t)
    (report : ReviewReport.t) (f : Finding.t) :
  reviewCode input llmClient = Some report ->
  f ∈ ReviewReport.findings report ++ ReviewReport.filteredOut report ->
  ∃ g, builtFor (ReviewInput.files input) g
       ∧ f = Finding.withoutSourceThread (Finding.withId g (Finding.id f)).
Proof.
  unfold reviewCode.
  destruct (reviewRun input llmClient) as [[r gen]|] eqn:Hrun; [|done].
  simpl. intros [= ->] Hin.
  apply reviewRun_inv in Hrun as [(_ & -> & _)|(_ & st & Hfiles & Hinv & -> & _)].
  { by apply elem_of_nil in Hin. }
  simpl in Hin. rewrite <- map_app in Hin.
  apply list_elem_of_fmap in Hin as (h & -> & Hh).
  assert (∀ g, g ∈ generated st -> builtFor (ReviewInput.files input) g) as Hbuilt.
  { intros g Hg. destruct (reviewFiles_generated _ _ _ _ _ g Hfiles Hg) as [Hnil|?]; [|done].
    by apply elem_of_nil in Hnil. }
  apply elem_of_app in Hh as [Hh|Hh].
  - exists (Finding.withId h EmptyString). split.
    + apply Hbuilt. rewrite <- (inv_partition _ _ Hinv).
      apply elem_of_app. left. apply list_elem_of_fmap. by exists h.
    + by destruct h.
  - exists h. split.
    + apply Hbuilt. rewrite <- (inv_partition _ _ Hinv). set_solver.
    + by destruct h.
Qed.


End Provenance.

(** ** Severity *)

Lemma upperChar_idem (c : ascii) : Js.upperChar (Js.upperChar c) = Js.upperChar c.
Proof. destruct c as [[] [] [] [] [] [] [] []]; reflexivity. Qed.

Lemma toUpperCase_idem (s : string) : Js.toUpperCase (Js.toUpperCase s) = Js.toUpperCase s.
Proof. induction s as [|c s IH]; simpl; [done|]. by rewrite upperChar_idem, IH. Qed.

(** X2. The severity derived from an issue type is never [low]; it depends
    on the issue type up to letter case only; and an absent issue type gives
    [medium]. *)
Theorem severity_is_never_low_and_ignores_case :
  (∀ issueType, deriveSeverity issueType ≠ low)
  ∧ (∀ a b, Js.toUpperCase a = Js.toUpperCase b ->
            deriveSeverity (Some a) = deriveSeverity (Some b))
  ∧ (∀ a, deriveSeverity (Some (Js.toUpperCase a)) = deriveSeverity (Some a))
  ∧ deriveSeverity None = medium
  ∧ deriveSeverity (Some "security") = critical
  ∧ deriveSeverity (Some "Bug") = high
  ∧ deriveSeverity (Some "performance") = high
  ∧ deriveSeverity (Some "style") = medium.
Proof.
  split; [|split; [|split]].
  - intros t. unfold deriveSeverity. by repeat destruct (String.eqb _ _).
  - intros a b Hab. unfold deriveSeverity. simpl. by rewrite Hab.
  - intros a. unfold deriveSeverity. simpl. by rewrite toUpperCase_idem.
  - repeat split.
Qed.

(** ** Ids of the kept findings *)

Section Ids.

Context {hash : Sha256Hex} {parser : ParseGitDiff}.

Implicit Types (P seen : gset string) (findings : list Finding.t).

(** What the loop keeps carries a signature that was in neither set. *)
Lemma dedupeLoop_new P findings seen (d : Finding.t) :
  d ∈ (dedupeLoop P findings seen).1.1 ->
  (Finding.id d ∉ seen) ∧ (Finding.id d ∉ P).
Proof.
  revert seen. induction findings as [|g rest IH]; intros seen; simpl.
  - intros Hin. by apply elem_of_nil in Hin.
  - destruct (_ || _) eqn:Hseen.
    + specialize (IH seen). by destruct (dedupeLoop P rest seen) as [[ds r] s].
    + specialize (IH ({[signatureOf g]} ∪ seen)).
      destruct (dedupeLoop P rest _) as [[ds r] s]. simpl in *.
      apply orb_false_iff in Hseen as [Hs Hp].
      apply bool_decide_eq_false in Hs, Hp.
      intros Hin. apply elem_of_cons in Hin as [->|Hin]; [done|].
      destruct (IH Hin). set_solver.
Qed.

Lemma dedupeLoop_NoDup P findings seen :
  NoDup (map Finding.id (dedupeLoop P findings seen).1.1).
Proof.
  revert seen. induction findings as [|g rest IH]; intros seen; simpl.
  - apply NoDup_nil_2.
  - destruct (_ || _).
    + specialize (IH seen). by destruct (dedupeLoop P rest seen) as [[ds r] s].
    + specialize (IH ({[signatureOf g]} ∪ seen)).
      pose proof (dedupeLoop_new P rest ({[signatureOf g]} ∪ seen)) as Hnew.
      destruct (dedupeLoop P rest _) as [[ds r] s]. simpl in *.
      apply NoDup_cons. split; [|done].
      intros Hin. apply list_elem_of_fmap in Hin as (d & Hd & Hin).
      destruct (Hnew d Hin) as [Hnot _]. set_solver.
Qed.

Lemma reviewFiles_ids (input : ReviewInput.t) (llmClient : LlmClient.t)
    (files : list FileDiff.t) (st st' : RunState (LlmClient.state llmClient)) :
  let P := previousSignaturesOf (ReviewInput.previousComments input) in
  RunInvariant input st ->
  NoDup (map Finding.id (findings st)) ->
  (∀ f, f ∈ findings st -> Finding.id f ∉ P) ->
  reviewFiles input llmClient files st = Some st' ->
  NoDup (map Finding.id (findings st')) ∧ (∀ f, f ∈ findings st' -> Finding.id f ∉ P).
Proof.
  intros P. revert st. induction files as [|file rest IH]; intros st Hinv Hnd Hnp; simpl.
  - by intros [= <-].
  - destruct (reviewFile input llmClient st file) as [st1|] eqn:Hstep; simpl; [|done].
    pose proof (reviewFile_invariant _ _ _ _ _ Hinv Hstep) as Hinv1.
    apply IH; [done|..];
      apply reviewFile_inv in Hstep as (response & llm' & threads & _ & _ & ->);
      simpl; unfold dedupeAgainstPrevious; fold P.
    + rewrite map_app. apply NoDup_app. split; [done|]. split; [|apply dedupeLoop_NoDup].
      intros i Hi Hi'. apply list_elem_of_fmap in Hi' as (d & -> & Hd).
      apply dedupeLoop_new in Hd as [Hd _]. apply Hd.
      rewrite (inv_seen _ _ Hinv). by apply elem_of_list_to_set.
    + intros f Hf. apply elem_of_app in Hf as [Hf|Hf]; [by apply Hnp|].
      by apply dedupeLoop_new in Hf as [_ ?].
Qed.

(** X3. The ids of the findings of a returned report are their signatures,
    pairwise distinct, and none is the signature of a previous comment: no
    two findings of a report have the same path and the same trimmed
    content. *)
Theorem report_ids_are_distinct_signatures (input : ReviewInput.t) (llmClient : LlmClient.t)
    (report : ReviewReport.t) :
  reviewCode input llmClient = Some report ->
  let kept := ReviewReport.findings report in
  NoDup (map Finding.id kept)
  ∧ (∀ f, f ∈ kept ->
          Finding.id f
          = sha256Hex (Finding.filePath f +:+ "|" +:+ Js.trim (Finding.content f))
          ∧ (Finding.id f ∉ previousSignaturesOf (ReviewInput.previousComments input)))
  ∧ (∀ i j f1 f2, kept !! i = Some f1 -> kept !! j = Some f2 -> i ≠ j ->
        ¬ (Finding.filePath f1 = Finding.filePath f2
           ∧ Js.trim (Finding.content f1) = Js.trim (Finding.content f2))).
Proof.
  unfold reviewCode.
  destruct (reviewRun input llmClient) as [[r gen]|] eqn:Hrun; [|done].
  simpl. intros [= ->].
  assert (NoDup (map Finding.id (ReviewReport.findings report))
          ∧ (∀ f, f ∈ ReviewReport.findings report ->
               Finding.id f
               = sha256Hex (Finding.filePath f +:+ "|" +:+ Js.trim (Finding.content f))
               ∧ (Finding.id f ∉ previousSignaturesOf (ReviewInput.previousComments input))))
    as [Hnd Hsig].
  { apply reviewRun_inv in Hrun as [(_ & -> & _)|(_ & st & Hfiles & Hinv & -> & _)].
    - split; [apply NoDup_nil_2|]. intros f Hf. by apply elem_of_nil in Hf.
    - destruct (reviewFiles_ids input llmClient (ReviewInput.files input)
                  (initialState llmClient) st
                  (initialState_invariant input llmClient)) as [Hnd Hnp]; try done.
      { apply NoDup_nil_2. }
      { intros f Hf. by apply elem_of_nil in Hf. }
      simpl. rewrite map_map. split.
      + erewrite map_ext; [exact Hnd|]. by intros [].
      + intros f Hf. apply list_elem_of_fmap in Hf as (g & -> & Hg). simpl.
        split; [|by apply Hnp]. by rewrite (inv_ids _ _ Hinv g Hg). }
  split; [done|]. split; [done|].
  intros i j f1 f2 H1 H2 Hij [Hpath Hcontent].
  apply Hij. eapply NoDup_lookup; [exact Hnd| |].
  - rewrite list_lookup_fmap, H1. reflexivity.
  - rewrite list_lookup_fmap, H2. simpl. f_equal.
    destruct (Hsig f1) as [-> _]; [by eapply list_elem_of_lookup_2|].
    destruct (Hsig f2) as [-> _]; [by eapply list_elem_of_lookup_2|].
    by rewrite Hpath, Hcontent.
Qed.

End Ids.

(** ** Order of the kept findings *)

Section Order.

Context {hash : Sha256Hex} {parser : ParseGitDiff}.

Lemma confidencePartition_sublist (findings : list Finding.t) (m : float) :
  (confidencePartition findings m).1 `sublist_of` findings.
Proof.
  induction findings as [|f rest IH]; simpl; [done|].
  destruct (confidencePartition rest m) as [rem fo]. simpl in *.
  destruct (belowMinimum _ _); simpl; by constructor.
Qed.

Lemma applyConfidenceFilter_sublist (findings : list Finding.t) (policy : ReviewPolicy.t) :
  (applyConfidenceFilterToFindings findings policy).1 `sublist_of` findings.
Proof.
  unfold applyConfidenceFilterToFindings.
  destruct (negb _); [done|apply confidencePartition_sublist].
Qed.

Lemma dedupeLoop_sublist (P : gset string) (findings : list Finding.t) (seen : gset string) :
  Forall (fun f => Finding.id f = EmptyString) findings ->
  map (fun f => Finding.withId f EmptyString) (dedupeLoop P findings seen).1.1
  `sublist_of` findings.
Proof.
  revert seen. induction findings as [|g rest IH]; intros seen Hid; simpl; [done|].
  apply Forall_cons in Hid as [Hg Hrest].
  destruct (_ || _).
  - specialize (IH seen Hrest). destruct (dedupeLoop P rest seen) as [[d r] s].
    by constructor.
  - specialize (IH ({[signatureOf g]} ∪ seen) Hrest).
    destruct (dedupeLoop P rest _) as [[d r] s]. simpl in *.
    assert (Finding.withId g EmptyString = g) as Hsame
      by (rewrite <- Hg; apply withId_same).
    rewrite withId_erase, Hsame. by constructor.
Qed.

Lemma reviewFiles_order (input : ReviewInput.t) (llmClient : LlmClient.t)
    (files : list FileDiff.t) (st st' : RunState (LlmClient.state llmClient)) :
  map (fun f => Finding.withId f EmptyString) (findings st) `sublist_of` generated st ->
  reviewFiles input llmClient files st = Some st' ->
  map (fun f => Finding.withId f EmptyString) (findings st') `sublist_of` generated st'.
Proof.
  revert st. induction files as [|file rest IH]; intros st Hsub; simpl.
  - by intros [= <-].
  - destruct (reviewFile input llmClient st file) as [st1|] eqn:Hstep; simpl; [|done].
    apply IH.
    apply reviewFile_inv in Hstep as (response & llm' & threads & _ & _ & ->).
    simpl. rewrite map_app. apply sublist_app; [done|].
    etrans; [|apply (applyConfidenceFilter_sublist _ (ReviewInput.policy input))].
    apply dedupeLoop_sublist, Forall_forall. intros g Hg.
    apply applyConfidenceFilter_remaining in Hg as [Hg _].
    by apply threadFindings_fresh in Hg as [? _].
Qed.

(** X4. The kept findings of a returned report stand in the order in which
    they were generated: with the ids reset they form a subsequence of the
    generated findings. *)
Theorem kept_findings_keep_generation_order (input : ReviewInput.t) (llmClient : LlmClient.t)
    (report : ReviewReport.t) (gen : list Finding.t) :
  reviewRun input llmClient = Some (report, gen) ->
  map (fun f => Finding.withId f EmptyString) (ReviewReport.findings report)
  `sublist_of` map Finding.withoutSourceThread gen.
Proof.
  intros Hrun.
  apply reviewRun_inv in Hrun as [(_ & -> & ->)|(_ & st & Hfiles & _ & -> & ->)]; [done|].
  simpl. rewrite withoutSourceThread_withId.
  apply fmap_sublist. by eapply reviewFiles_order; [|exact Hfiles].
Qed.

End Order.

(** ** The comments of the run *)

Section RunComments.

Context {hash : Sha256Hex} {parser : ParseGitDiff}.

Lemma threadToFindings_comments (thread : ReviewThread.t) (path : string) :
  map commentOfFinding (threadToFindings thread path)
  = map commentCore (ReviewThread.comments thread).
Proof.
  unfold threadToFindings. destruct (deriveLineRange _) as [ls le].
  rewrite map_map. by apply map_ext.
Qed.

Lemma threadFindings_comments (threads : list ReviewThread.t) (path : string) :
  map commentOfFinding (flat_map (fun thread => threadToFindings thread path) threads)
  = map commentCore (flat_map ReviewThread.comments threads).
Proof.
  induction threads as [|t rest IH]; [done|].
  simpl. by rewrite !map_app, IH, threadToFindings_comments.
Qed.

Lemma reviewFiles_runComments (input : ReviewInput.t) (llmClient : LlmClient.t)
    (files : list FileDiff.t) (st st' : RunState (LlmClient.state llmClient)) :
  map commentOfFinding (generated st) = map commentCore (runComments st) ->
  reviewFiles input llmClient files st = Some st' ->
  map commentOfFinding (generated st') = map commentCore (runComments st').
Proof.
  revert st. induction files as [|file rest IH]; intros st Heq; simpl.
  - by intros [= <-].
  - destruct (reviewFile input llmClient st file) as [st1|] eqn:Hstep; simpl; [|done].
    apply IH.
    apply reviewFile_inv in Hstep as (response & llm' & threads & _ & _ & ->).
    simpl. by rewrite !map_app, Heq, threadFindings_comments.
Qed.

(** X5. After any number of files, the comments of the run, the ones
    offered for exclusion once the latch is set, are the comments of every
    finding generated so far, in order, whether the finding was kept,
    filtered out for its confidence or removed as a duplicate: content,
    confidence, issue type and suggestion agree one by one. *)
Theorem run_comments_are_all_generated_findings (input : ReviewInput.t)
    (llmClient : LlmClient.t) (files : list FileDiff.t)
    (st : RunState (LlmClient.state llmClient)) :
  reviewFiles input llmClient files (initialState llmClient) = Some st ->
  map commentOfFinding (generated st) = map commentCore (runComments st)
  ∧ length (runComments st) = length (generated st)
  ∧ length (runComments st) = (length (findings st) + length (filteredOut st))%nat.
Proof.
  intros Hrun.
  assert (map commentOfFinding (generated st) = map commentCore (runComments st)) as Heq
    by (by eapply reviewFiles_runComments; [|exact Hrun]).
  assert (length (runComments st) = length (generated st)) as Hlen
    by (apply (f_equal length) in Heq; by rewrite !length_map in Heq).
  split; [done|]. split; [done|]. rewrite Hlen.
  pose proof (reviewFiles_invariant input llmClient _ _ _
                (initialState_invariant input llmClient) Hrun) as Hinv.
  pose proof (inv_partition _ _ Hinv) as Hperm. apply Permutation_length in Hperm.
  by rewrite length_app, length_map in Hperm.
Qed.

(** X6. The latch of cross-file dedup over a run: once set it stays set,
    and with cross-file dedup disabled it never moves. *)
Theorem latch_is_monotone_over_a_run (input : ReviewInput.t) (llmClient : LlmClient.t)
    (files : list FileDiff.t) (st st' : RunState (LlmClient.state llmClient)) :
  reviewFiles input llmClient files st = Some st' ->
  (dedupeCriteriaMet st = true -> dedupeCriteriaMet st' = true)
  ∧ (DedupeAcrossFiles.enabled (ReviewPolicy.dedupeAcrossFiles (ReviewInput.policy input))
     = false ->
     dedupeCriteriaMet st' = dedupeCriteriaMet st).
Proof.
  revert st. induction files as [|file rest IH]; intros st; simpl.
  - by intros [= <-].
  - destruct (reviewFile input llmClient st file) as [st1|] eqn:Hstep; simpl; [|done].
    intros Hrest. destruct (IH st1 Hrest) as [Hset Hoff].
    apply reviewFile_inv in Hstep as (response & llm' & threads & _ & _ & Hst1).
    assert (dedupeCriteriaMet st1
            = (getCommentContentForExclusion
                 (previousFileCommentsOf (ReviewInput.previousComments input) file)
                 (runComments st) (ReviewInput.policy input) (dedupeCriteriaMet st)).2)
      as Hmet by (by rewrite Hst1).
    unfold getCommentContentForExclusion in Hmet. simpl in Hmet.
    split.
    + intros Hin. apply Hset. rewrite Hmet, Hin. simpl.
      by destruct (DedupeAcrossFiles.enabled _).
    + intros Hdis. rewrite (Hoff Hdis), Hmet, Hdis. done.
Qed.

End RunComments.

(** ** The reason of every removal *)

Section Reasons.

Context {hash : Sha256Hex} {parser : ParseGitDiff}.

(** What the loop removes is an incoming finding whose signature is, in the
    end, in one of the two sets. *)
Lemma dedupeLoop_removed (P : gset string) (findings : list Finding.t) (seen : gset string)
    (r : Finding.t) :
  r ∈ (dedupeLoop P findings seen).1.2 ->
  r ∈ findings
  ∧ (signatureOf r ∈ (dedupeLoop P findings seen).2 ∨ signatureOf r ∈ P).
Proof.
  revert seen. induction findings as [|g rest IH]; intros seen; simpl.
  - intros Hin. by apply elem_of_nil in Hin.
  - destruct (_ || _) eqn:Hseen.
    + specialize (IH seen).
      pose proof (dedupeLoop_seen_mono P rest seen) as Hmono.
      destruct (dedupeLoop P rest seen) as [[d rs] s]. simpl in *.
      intros Hin. apply elem_of_cons in Hin as [->|Hin].
      * split; [apply list_elem_of_here|].
        apply orb_true_iff in Hseen as [Hs|Hs]; apply bool_decide_eq_true in Hs;
          [left; set_solver|by right].
      * destruct (IH Hin) as [? ?]. split; [by apply list_elem_of_further|done].
    + specialize (IH ({[signatureOf g]} ∪ seen)).
      destruct (dedupeLoop P rest _) as [[d rs] s]. simpl in *.
      intros Hin. destruct (IH Hin) as [? ?]. split; [by apply list_elem_of_further|done].
Qed.

Lemma applyConfidenceFilter_filteredOut (findings : list Finding.t) (policy : ReviewPolicy.t)
    (f : Finding.t) :
  f ∈ (applyConfidenceFilterToFindings findings policy).2 ->
  f ∈ findings ∧ passesConfidence policy f = false.
Proof.
  unfold applyConfidenceFilterToFindings, passesConfidence.
  destruct (Confidence.enabled _); simpl.
  - rewrite confidencePartition_spec. simpl.
    rewrite list_elem_of_In, filter_In, <- list_elem_of_In.
    intros [Hin ->]. done.
  - intros Hin. by apply elem_of_nil in Hin.
Qed.

Lemma reviewFiles_reasons (input : ReviewInput.t) (llmClient : LlmClient.t)
    (files : list FileDiff.t) (st st' : RunState (LlmClient.state llmClient)) :
  let P := previousSignaturesOf (ReviewInput.previousComments input) in
  let reasons (s : RunState (LlmClient.state llmClient)) :=
    ∀ f, f ∈ filteredOut s ->
         passesConfidence (ReviewInput.policy input) f = false
         ∨ signatureOf f ∈ seenSignatures s ∨ signatureOf f ∈ P in
  reasons st ->
  reviewFiles input llmClient files st = Some st' ->
  reasons st'.
Proof.
  intros P reasons. revert st. induction files as [|file rest IH]; intros st Hst; simpl.
  - by intros [= <-].
  - destruct (reviewFile input llmClient st file) as [st1|] eqn:Hstep; simpl; [|done].
    apply IH. clear IH.
    apply reviewFile_inv in Hstep as (response & llm' & threads & _ & _ & ->).
    intros f. simpl. unfold dedupeAgainstPrevious. fold P.
    pose proof (dedupeLoop_seen_mono P
                  (applyConfidenceFilterToFindings
                     (flat_map (fun thread =>
                                  threadToFindings thread (normalizePath (FileDiff.path file)))
                               threads)
                     (ReviewInput.policy input)).1 (seenSignatures st)) as Hmono.
    rewrite !elem_of_app. intros [[Hf|Hf]|Hf].
    + destruct (Hst f Hf) as [?|[?|?]]; [by left| |by right; right].
      right. left. set_solver.
    + left. by apply applyConfidenceFilter_filteredOut in Hf as [_ ?].
    + right. by apply dedupeLoop_removed in Hf as [_ ?].
Qed.

(** X7. Nothing is dropped without a reason, and nothing that passes is
    lost: a generated finding that passes the confidence filter is kept, or
    a kept finding or a previous comment has its signature; a finding
    filtered out has no id, and either it fails the confidence filter, or a
    kept finding or a previous comment has its signature. *)
Theorem every_finding_is_accounted_for (input : ReviewInput.t) (llmClient : LlmClient.t)
    (report : ReviewReport.t) (gen : list Finding.t) :
  reviewRun input llmClient = Some (report, gen) ->
  let policy := ReviewInput.policy input in
  let P := previousSignaturesOf (ReviewInput.previousComments input) in
  let represented (f : Finding.t) :=
    (∃ kept, kept ∈ ReviewReport.findings report ∧ Finding.id kept = signatureOf f)
    ∨ signatureOf f ∈ P in
  (∀ g, g ∈ gen -> passesConfidence policy g = true -> represented g)
  ∧ (∀ f, f ∈ ReviewReport.filteredOut report ->
       Finding.id f = EmptyString
       ∧ (passesConfidence policy f = false ∨ represented f)).
Proof.
  intros Hrun policy P represented.
  apply reviewRun_inv in Hrun as [(_ & -> & ->)|(_ & st & Hfiles & Hinv & -> & ->)].
  { split; intros f Hf; by apply elem_of_nil in Hf. }
  assert (∀ f, signatureOf f ∈ seenSignatures st ∨ signatureOf f ∈ P -> represented f)
    as Hrep.
  { intros f [Hseen|Hprev]; [left|by right].
    rewrite (inv_seen _ _ Hinv) in Hseen.
    apply elem_of_list_to_set, list_elem_of_fmap in Hseen as (kept & Hid & Hkept).
    exists (Finding.withoutSourceThread kept). split; [|done].
    simpl. apply list_elem_of_fmap. by exists kept. }
  split.
  - intros g Hg Hpass. apply Hrep. by apply (inv_covered _ _ Hinv).
  - intros f Hf. simpl in Hf. apply list_elem_of_fmap in Hf as (f0 & -> & Hf0).
    assert (f0 ∈ generated st) as Hgen
      by (rewrite <- (inv_partition _ _ Hinv); set_solver).
    pose proof (inv_fresh _ _ Hinv) as Hfresh. rewrite Forall_forall in Hfresh.
    split; [exact (Hfresh f0 Hgen)|].
    pose proof (reviewFiles_reasons input llmClient (ReviewInput.files input)
                  (initialState llmClient) st) as Hreasons.
    cbv zeta in Hreasons.
    destruct (Hreasons ltac:(intros x Hx; by apply elem_of_nil in Hx) Hfiles f0 Hf0)
      as [Hfail|Hsig].
    + by left.
    + right. by apply (Hrep f0).
Qed.

End Reasons.

(** ** When repositioning throws, and when a run returns *)

(** X8. Repositioning one side of a context throws in one case only: the
    start position carries a snippet whose first line has a candidate in the
    diff, and the end position of that side is missing. *)
Theorem repositioning_throws_only_without_end (ctx : ThreadContext.t) (d : GitDiff.t)
    (side : bool) :
  fixThreadContextLineNumberAndOffsets ctx d side = None
  <-> sideEnd ctx side = None
      ∧ ∃ p s, startSnippet (sideStart ctx side) = Some (p, s)
               ∧ filterChanges (getChangesFromDiff d) (hd EmptyString (Js.splitLines s)) side
                 ≠ [].
Proof.
  unfold fixThreadContextLineNumberAndOffsets.
  destruct (startSnippet (sideStart ctx side)) as [[p s]|] eqn:Hstart.
  - unfold updateFileStartAndEnd. cbv zeta.
    set (first := hd EmptyString (Js.splitLines s)).
    destruct (decide (filterChanges (getChangesFromDiff d) first side = [])) as [Hnone|Hsome].
    + rewrite (lineAndOffset_none d first _ side Hnone). simpl.
      split; [done|]. intros (_ & p' & s' & [= <- <-] & Hne). done.
    + destruct (lineAndOffset_match d first (Position.line p) side Hsome)
        as (r & n & pre & post & _ & _ & _ & _ & _ & ->).
      destruct (sideEnd ctx side) as [e|]; simpl.
      * split; [done|]. by intros [? _].
      * split; [|done]. intros _. split; [done|]. by exists p, s.
  - split; [done|]. by intros (_ & p & s & ? & _).
Qed.



Section Totality.

Context {hash : Sha256Hex} {parser : ParseGitDiff}.



End Totality.

(** ** Repositioning twice *)

(** The closest candidate is one: the one closest to the line of the
    candidate chosen is the candidate chosen. *)
Lemma closestFirst_unique (lines : list AnyLineChange) (side : bool) (approx n : Z)
    (r r2 : AnyLineChange) :
  isClosestFirst lines side approx r ->
  getLineNumber r side = Some n ->
  isClosestFirst lines side n r2 ->
  r2 = r.
Proof.
  intros (i & n0 & Hi & Hn0 & Hall) Hn (i2 & n2 & Hi2 & Hn2 & Hall2).
  assert (n0 = n) as -> by congruence.
  destruct (Hall2 i r Hi) as (n' & Hn' & Hle & Hlt).
  assert (n' = n) as -> by congruence.
  destruct (Hall i2 r2 Hi2) as (n2' & Hn2' & Hle2 & Hlt2).
  assert (n2' = n2) as -> by congruence.
  assert (n2 = n) as -> by lia.
  assert (i2 = i) as -> by (destruct (Nat.lt_trichotomy i2 i) as [?|[?|?]]; [|done|]; lia).
  congruence.
Qed.

Lemma lineAndOffset_again (d : GitDiff.t) (text : string) (approx n off : Z) (side : bool) :
  getLineNumberAndOffset d text approx side = (Some n, Some off) ->
  getLineNumberAndOffset d text n side = (Some n, Some off).
Proof.
  intros Hfirst.
  destruct (decide (filterChanges (getChangesFromDiff d) text side = [])) as [Hnone|Hsome].
  { by rewrite (lineAndOffset_none d text approx side Hnone) in Hfirst. }
  destruct (lineAndOffset_match d text approx side Hsome)
    as (r & n1 & pre & post & Hclosest & Hn1 & _ & _ & Hidx & Heq).
  destruct (lineAndOffset_match d text n side Hsome)
    as (r2 & n2 & pre2 & post2 & Hclosest2 & Hn2 & _ & _ & Hidx2 & Heq2).
  rewrite Heq in Hfirst. injection Hfirst as -> <-.
  assert (r2 = r) as -> by (by eapply closestFirst_unique).
  rewrite Heq2. unfold strLen. f_equal; [congruence|]. f_equal. lia.
Qed.

Lemma multiline_keeps_snippet (e : Position.t) (snippets : list string) (d : GitDiff.t)
    (side : bool) :
  Position.snippet (updateFileEndForMultilineSnippet e snippets d side) = Position.snippet e.
Proof.
  unfold updateFileEndForMultilineSnippet.
  by destruct (getLineNumberAndOffset _ _ _ _) as [[n|] [off|]].
Qed.

Lemma updateFileStartAndEnd_again (p : Position.t) (s : string) (fin : option Position.t)
    (d : GitDiff.t) (side : bool) (p' : Position.t) (fin' : option Position.t) :
  updateFileStartAndEnd p s fin d side = Some (p', fin') ->
  Position.snippet p' = Position.snippet p
  ∧ positionShape fin' = positionShape fin
  ∧ updateFileStartAndEnd p' s fin' d side = Some (p', fin').
Proof.
  unfold updateFileStartAndEnd. cbv zeta.
  set (first := hd EmptyString (Js.splitLines s)).
  destruct (getLineNumberAndOffset d first (Position.line p) side) as [ln lo] eqn:Hfirst.
  destruct ln as [n|], lo as [off|];
    try (intros [= <- <-]; by rewrite Hfirst).
  destruct fin as [e|]; [|done]. intros [= <- <-]. simpl.
  rewrite (lineAndOffset_again _ _ _ _ _ _ Hfirst).
  destruct (1 <? length (Js.splitLines s))%nat; simpl;
    rewrite ?multiline_keeps_snippet; done.
Qed.

Lemma repositioned_again (start fin : option Position.t) (d : GitDiff.t) (side : bool)
    (start' fin' : option Position.t) :
  repositioned start fin d side = Some (start', fin') ->
  positionShape start' = positionShape start
  ∧ positionShape fin' = positionShape fin
  ∧ repositioned start' fin' d side = Some (start', fin').
Proof.
  unfold repositioned.
  destruct (startSnippet start) as [[p s]|] eqn:Hstart.
  - destruct (updateFileStartAndEnd p s fin d side) as [[p' e']|] eqn:Hupd; [|done].
    simpl. intros [= <- <-].
    apply startSnippet_inv in Hstart as (-> & Hs & Hne).
    destruct (updateFileStartAndEnd_again _ _ _ _ _ _ _ Hupd) as (Hsnip & Hshape & Hagain).
    split; [simpl; by rewrite Hsnip|]. split; [done|].
    rewrite (startSnippet_some p' s); [|congruence|done]. by rewrite Hagain.
  - intros [= <- <-]. by rewrite Hstart.
Qed.

Lemma fix_by_side (ctx : ThreadContext.t) (d : GitDiff.t) (side : bool) :
  fixThreadContextLineNumberAndOffsets ctx d side
  = (fun positions => setSide ctx side positions.1 positions.2)
      <$> repositioned (sideStart ctx side) (sideEnd ctx side) d side.
Proof.
  unfold fixThreadContextLineNumberAndOffsets, repositioned.
  destruct (startSnippet (sideStart ctx side)) as [[p s]|].
  - by destruct (updateFileStartAndEnd _ _ _ _ _) as [[p' e']|].
  - simpl. by rewrite setSide_same.
Qed.

Lemma fixThread_again (d : GitDiff.t) (thread thread' : ReviewThread.t) :
  fixThread d thread = Some thread' ->
  threadShape thread' = threadShape thread ∧ fixThread d thread' = Some thread'.
Proof.
  unfold fixThread.
  destruct (ReviewThread.threadContext thread) as [ctx|] eqn:Hctx.
  - rewrite fix_by_side.
    destruct (repositioned (sideStart ctx true) _ d true) as [[a b]|] eqn:Hright; [|done].
    simpl. rewrite fix_by_side.
    destruct (repositioned _ _ d false) as [[c e]|] eqn:Hleft; [|done].
    simpl in Hleft |- *. intros [= <-]. simpl.
    destruct (repositioned_again _ _ _ _ _ _ Hright) as (Ha & Hb & Hagain).
    destruct (repositioned_again _ _ _ _ _ _ Hleft) as (Hc & He & Hagain2).
    split.
    + unfold threadShape. simpl. rewrite Hctx. simpl. do 2 f_equal.
      unfold contextShape. simpl in *. by rewrite Ha, Hb, Hc, He.
    + rewrite fix_by_side. simpl. rewrite Hagain. simpl.
      rewrite fix_by_side. simpl. rewrite Hagain2. done.
  - intros [= <-]. by rewrite Hctx.
Qed.

Lemma fixThreadsIn_again (d : GitDiff.t) (threads threads' : list ReviewThread.t) :
  fixThreadsIn d threads = Some threads' ->
  map threadShape threads' = map threadShape threads
  ∧ fixThreadsIn d threads' = Some threads'.
Proof.
  unfold fixThreadsIn. intros Hfix. apply mapM_Some_1 in Hfix.
  induction Hfix as [|t t' rest rest' Ht _ [IHshape IHfix]]; [done|].
  destruct (fixThread_again _ _ _ Ht) as [Hshape Hagain].
  split; [simpl; by rewrite Hshape, IHshape|].
  simpl. rewrite Hagain. simpl. by rewrite IHfix.
Qed.

(** X10. When repositioning returns, it has written line numbers and
    offsets and nothing else: the threads are as many as before, each with
    its comments, its status, the path of its context, the positions that
    were there and the snippets they carry. And it is idempotent: applied to
    the threads it returned, with the same diff, it returns them as they
    are. *)
Theorem repositioning_writes_positions_only_and_once {parser : ParseGitDiff}
    (threads threads' : list ReviewThread.t) (diff : string) :
  fixThreadPositions threads diff = Some threads' ->
  map threadShape threads' = map threadShape threads
  ∧ length threads' = length threads
  ∧ flat_map ReviewThread.comments threads' = flat_map ReviewThread.comments threads
  ∧ fixThreadPositions threads' diff = Some threads'.
Proof.
  intros Hfix.
  assert (map threadShape threads' = map threadShape threads
          ∧ fixThreadPositions threads' diff = Some threads') as [Hshape Hagain].
  { unfold fixThreadPositions in *. destruct threads as [|t rest].
    - by injection Hfix as <-.
    - apply fixThreadsIn_again in Hfix as [Hshape Hagain]. split; [done|].
      by destruct threads'. }
  split; [done|]. split; [|split; [|done]].
  - apply (f_equal length) in Hshape. by rewrite !length_map in Hshape.
  - clear Hfix Hagain. revert threads Hshape.
    induction threads' as [|t' rest' IH]; intros [|t rest] Hshape; try done.
    simpl in Hshape. injection Hshape as Hcomments _ _ Hrest.
    simpl. by rewrite Hcomments, (IH rest Hrest).
Qed.

(** ** The object found in the model output *)

Lemma append_length (a b : string) :
  String.length (a +:+ b) = (String.length a + String.length b)%nat.
Proof. induction a as [|c a IH]; [done|]. rewrite append_cons. simpl. by rewrite IH. Qed.

Lemma append_assoc (a b c : string) : (a +:+ b) +:+ c = a +:+ b +:+ c.
Proof. induction a as [|x a IH]; [done|]. by rewrite !append_cons, IH. Qed.

(** Two ways of cutting one text: the shorter head is a head of the longer. *)
Lemma append_split (a b c d : string) :
  a +:+ b = c +:+ d -> (String.length a <= String.length c)%nat ->
  ∃ m, c = a +:+ m ∧ b = m +:+ d.
Proof.
  revert c. induction a as [|x a IH]; intros c Heq Hlen.
  - exists c. by rewrite !append_nil in *.
  - destruct c as [|y c]; [simpl in Hlen; lia|].
    rewrite !append_cons in Heq. injection Heq as -> Heq.
    destruct (IH c Heq) as (m & -> & ->); [simpl in Hlen; lia|].
    exists m. by rewrite append_cons.
Qed.

Lemma substring_skip (pre s : string) (n : nat) :
  String.substring (String.length pre) n (pre +:+ s) = String.substring 0 n s.
Proof. induction pre as [|c pre IH]; [done|]. by rewrite append_cons. Qed.

Lemma substring_take (a b : string) : String.substring 0 (String.length a) (a +:+ b) = a.
Proof.
  induction a as [|c a IH].
  - rewrite append_nil. by destruct b.
  - rewrite append_cons. simpl. by rewrite IH.
Qed.

Lemma findLast_cons (t : string) (a : ascii) (s : string) :
  Js.findLast t (String a s)
  = match Js.findLast t s with
    | Some i => Some (S i)
    | None => if String.prefix t (String a s) then Some 0%nat else None
    end.
Proof. reflexivity. Qed.

Lemma findLast_nil (t : string) :
  Js.findLast t EmptyString = if String.prefix t EmptyString then Some 0%nat else None.
Proof. reflexivity. Qed.

Lemma findLast_none (t s : string) :
  Js.findLast t s = None -> ∀ pre post, s ≠ pre +:+ t +:+ post.
Proof.
  induction s as [|a s IH]; rewrite ?findLast_nil, ?findLast_cons.
  - destruct (String.prefix t EmptyString) eqn:Hp; [done|]. intros _ pre post Heq.
    destruct pre; [|by rewrite append_cons in Heq].
    rewrite append_nil in Heq.
    assert (String.prefix t EmptyString = true) by (apply prefix_spec; by exists post).
    congruence.
  - destruct (Js.findLast t s) as [j|]; [done|].
    destruct (String.prefix t (String a s)) eqn:Hp; [done|]. intros _ pre post Heq.
    destruct pre as [|b pre].
    + rewrite append_nil in Heq.
      assert (String.prefix t (String a s) = true) by (apply prefix_spec; by exists post).
      congruence.
    + rewrite append_cons in Heq. injection Heq as -> ->. by eapply IH.
Qed.

Lemma findLast_occurrence (t s : string) (i : nat) :
  Js.findLast t s = Some i ->
  ∃ pre post, s = pre +:+ t +:+ post ∧ String.length pre = i.
Proof.
  revert i. induction s as [|a s IH]; intros i; rewrite ?findLast_nil, ?findLast_cons.
  - destruct (String.prefix t EmptyString) eqn:Hp; [|done].
    intros [= <-]. apply prefix_spec in Hp as (post & Hpost).
    by exists EmptyString, post.
  - destruct (Js.findLast t s) as [j|].
    + intros [= <-]. destruct (IH j eq_refl) as (pre & post & -> & <-).
      by exists (String a pre), post.
    + destruct (String.prefix t (String a s)) eqn:Hp; [|done].
      intros [= <-]. apply prefix_spec in Hp as (post & Hpost).
      by exists EmptyString, post.
Qed.

Lemma findLast_last (t s : string) (i : nat) :
  Js.findLast t s = Some i ->
  ∀ pre post, s = pre +:+ t +:+ post -> (String.length pre <= i)%nat.
Proof.
  revert i. induction s as [|a s IH]; intros i; rewrite ?findLast_nil, ?findLast_cons.
  - intros _ pre post Heq. destruct pre; [simpl; lia|by rewrite append_cons in Heq].
  - destruct (Js.findLast t s) as [j|] eqn:Hlast.
    + intros [= <-] pre post Heq. destruct pre as [|b pre]; [simpl; lia|].
      rewrite append_cons in Heq. injection Heq as -> ->.
      simpl. specialize (IH j eq_refl pre post eq_refl). lia.
    + intros _ pre post Heq. destruct pre as [|b pre]; [simpl; lia|].
      rewrite append_cons in Heq. injection Heq as -> ->.
      by eapply findLast_none in Hlast.
Qed.

(** X11. The text handed to the parser runs from the first opening brace
    of the output to its last closing brace, both included: what precedes
    it has no opening brace and what follows it no closing one. Nothing is
    handed over exactly when no closing brace follows an opening one. *)
Theorem extracted_object_spans_first_to_last_brace (text : string) :
  (∀ extracted, tryExtractJsonObject text = Some extracted ->
     ∃ pre body post,
       text = pre +:+ "{" +:+ body +:+ "}" +:+ post
       ∧ extracted = "{" +:+ body +:+ "}"
       ∧ Js.includes pre "{" = false
       ∧ Js.includes post "}" = false)
  ∧ (tryExtractJsonObject text = None
     <-> ¬ ∃ pre body post, text = pre +:+ "{" +:+ body +:+ "}" +:+ post).
Proof.
  unfold tryExtractJsonObject, Js.indexOf, Js.lastIndexOf.
  destruct (Js.find "{" text) as [i|] eqn:Hfirst.
  2:{ simpl. split; [done|]. split; [|done]. intros _ (pre & body & post & Heq).
      by eapply find_none in Hfirst. }
  destruct (Js.findLast "}" text) as [e|] eqn:Hlast.
  2:{ rewrite orb_true_r. simpl. split; [done|]. split; [|done].
      intros _ (pre & body & post & Heq).
      eapply (findLast_none _ _ Hlast (pre +:+ "{" +:+ body) post).
      by rewrite !append_assoc. }
  destruct (find_occurrence _ _ _ Hfirst) as (pre & rest & Hpre & Hi).
  destruct (findLast_occurrence _ _ _ Hlast) as (pre2 & post & Hpre2 & He).
  assert ((Z.of_nat i =? -1)%Z = false) as -> by lia.
  assert ((Z.of_nat e =? -1)%Z = false) as -> by lia.
  simpl.
  destruct (Z.leb_spec (Z.of_nat e) (Z.of_nat i)) as [Hle|Hlt].
  - split; [done|]. split; [|done]. intros _ (p & body & q & Heq).
    pose proof (find_first _ _ _ Hfirst p (body +:+ "}" +:+ q) Heq) as H1.
    pose proof (findLast_last _ _ _ Hlast (p +:+ "{" +:+ body) q) as H2.
    rewrite !append_assoc in H2. specialize (H2 Heq).
    rewrite !append_length in H2. simpl in H2. lia.
  - assert (∃ body, pre2 = pre +:+ "{" +:+ body ∧ rest = body +:+ "}" +:+ post)
      as (body & -> & ->).
    { destruct (append_split (pre +:+ "{") rest pre2 ("}" +:+ post)) as (m & Hm & Hr).
      - rewrite append_assoc. congruence.
      - rewrite append_length. simpl. lia.
      - exists m. by rewrite Hm, append_assoc. }
    split.
    + intros extracted [= <-]. exists pre, body, post.
      split; [done|]. split; [|split].
      * unfold Js.slice. rewrite Hpre.
        rewrite Nat2Z.id, <- Hi, substring_skip.
        replace (Z.to_nat (Z.of_nat e + 1) - String.length pre)%nat
          with (String.length ("{" +:+ body +:+ "}")).
        -- replace ("{" +:+ body +:+ "}" +:+ post)
             with (("{" +:+ body +:+ "}") +:+ post) by (by rewrite !append_assoc).
           apply substring_take.
        -- rewrite <- He, !append_length. simpl. lia.
      * apply not_true_iff_false. intros Hinc.
        apply includes_spec in Hinc as (p1 & p2 & ->).
        pose proof (find_first _ _ _ Hfirst p1
                      (p2 +:+ "{" +:+ body +:+ "}" +:+ post)) as H1.
        rewrite Hpre, !append_assoc in H1. specialize (H1 eq_refl).
        rewrite <- Hi, !append_length in H1. simpl in H1. lia.
      * apply not_true_iff_false. intros Hinc.
        apply includes_spec in Hinc as (p1 & p2 & ->).
        pose proof (findLast_last _ _ _ Hlast
                      (pre +:+ "{" +:+ body +:+ "}" +:+ p1) p2) as H2.
        rewrite Hpre, !append_assoc in H2. specialize (H2 eq_refl).
        rewrite <- He, !append_length in H2. simpl in H2. lia.
    + split; [done|]. intros Hno. exfalso. apply Hno. by exists pre, body, post.
Qed.

(** ** Normalized scores *)

Lemma clamp_fixed (y : float) :
  PrimFloat.is_nan y = false -> PrimFloat.ltb 1 y = false ->
  PrimFloat.ltb y 0 = false -> PrimFloat.ltb 0 y = true ->
  Js.max 0 (Js.min 1 y) = y.
Proof.
  intros Hnan H1 Hneg Hpos.
  assert (Js.min 1 y = y) as ->.
  { unfold Js.min. rewrite Hnan, H1. change (PrimFloat.is_nan 1) with false. simpl.
    change (Js.isNegZero 1) with false. by destruct (PrimFloat.ltb y 1). }
  unfold Js.max. rewrite Hnan, Hneg, Hpos. by change (PrimFloat.is_nan 0) with false.
Qed.

(** A clamped number is not above 1, and clamping it again gives it back. *)
Lemma clamp_again (y : float) :
  PrimFloat.ltb 1 (Js.max 0 (Js.min 1 y)) = false
  ∧ Js.max 0 (Js.min 1 (Js.max 0 (Js.min 1 y))) = Js.max 0 (Js.min 1 y).
Proof.
  destruct (PrimFloat.is_nan y) eqn:Hnan.
  { assert (Js.min 1 y = nan) as ->
      by (unfold Js.min; rewrite Hnan; by rewrite orb_true_r).
    by vm_compute. }
  destruct (PrimFloat.ltb 1 y) eqn:H1.
  { assert (Js.min 1 y = 1%float) as ->
      by (unfold Js.min; rewrite Hnan, H1; by change (PrimFloat.is_nan 1) with false).
    by vm_compute. }
  assert (Js.min 1 y = y) as Hmin.
  { unfold Js.min. rewrite Hnan, H1. change (PrimFloat.is_nan 1) with false. simpl.
    change (Js.isNegZero 1) with false. by destruct (PrimFloat.ltb y 1). }
  rewrite Hmin.
  destruct (PrimFloat.ltb y 0) eqn:Hneg.
  { assert (Js.max 0 y = 0%float) as ->
      by (unfold Js.max; rewrite Hnan, Hneg; by change (PrimFloat.is_nan 0) with false).
    by vm_compute. }
  destruct (PrimFloat.ltb 0 y) eqn:Hpos.
  - assert (Js.max 0 y = y) as ->
      by (unfold Js.max; rewrite Hnan, Hneg, Hpos; by change (PrimFloat.is_nan 0) with false).
    rewrite Hmin. split; [done|].
    unfold Js.max. rewrite Hnan, Hneg, Hpos. by change (PrimFloat.is_nan 0) with false.
  - assert (Js.max 0 y = 0%float) as ->.
    { unfold Js.max. rewrite Hnan, Hneg, Hpos. change (PrimFloat.is_nan 0) with false.
      simpl. by change (Js.isNegZero 0) with false. }
    by vm_compute.
Qed.

(** X12. Normalizing a score is idempotent: a score that has been
    normalized is left as it is by a second normalization. *)
Theorem normalizing_twice_changes_nothing (score : option float) :
  normalizeConfidence (normalizeConfidence score) = normalizeConfidence score.
Proof.
  destruct score as [s|]; [|done]. unfold normalizeConfidence at 2 3.
  destruct (PrimFloat.ltb 1 s).
  - destruct (clamp_again (s / 10)) as [Hle Hfix].
    unfold normalizeConfidence. by rewrite Hle, Hfix.
  - destruct (clamp_again s) as [Hle Hfix].
    unfold normalizeConfidence. by rewrite Hle, Hfix.
Qed.

Lemma clamp_range (y : float) :
  PrimFloat.is_nan (Js.max 0 (Js.min 1 y))
  || (PrimFloat.leb 0 (Js.max 0 (Js.min 1 y)) && PrimFloat.leb (Js.max 0 (Js.min 1 y)) 1)
  = true.
Proof.
  destruct (PrimFloat.is_nan y) eqn:Hnan.
  - assert (Js.min 1 y = nan) as ->
      by (unfold Js.min; rewrite Hnan; by rewrite orb_true_r).
    by vm_compute.
  - destruct (clamp_bounds y Hnan) as [-> ->]. apply orb_true_r.
Qed.

Lemma lookup_assign_same (k : string) (v : Json.t) (fields : list (string * Json.t)) :
  Json.lookup k (Json.assign k (Some v) fields) = Some v.
Proof.
  induction fields as [|[k' v'] rest IH]; simpl.
  - by rewrite String.eqb_refl.
  - destruct (String.eqb k k') eqn:Hk; simpl; [by rewrite String.eqb_refl|].
    by rewrite Hk.
Qed.

Lemma lookup_assign_other (k k' : string) (v : option Json.t)
    (fields : list (string * Json.t)) :
  k ≠ k' -> Json.lookup k (Json.assign k' v fields) = Json.lookup k fields.
Proof.
  intros Hne. apply String.eqb_neq in Hne.
  induction fields as [|[k0 v0] rest IH]; simpl.
  - destruct v; simpl; [by rewrite Hne|done].
  - destruct (String.eqb k' k0) eqn:Hk0.
    + apply String.eqb_eq in Hk0 as <-. rewrite Hne.
      destruct v; simpl; [by rewrite Hne|done].
    + simpl. by rewrite IH.
Qed.

Lemma lookup_assign_none (k : string) (fields : list (string * Json.t)) :
  NoDup fields.*1 -> Json.lookup k (Json.assign k None fields) = None.
Proof.
  induction fields as [|[k0 v0] rest IH]; simpl; [done|].
  intros Hnd. apply NoDup_cons in Hnd as [Hnot Hnd].
  destruct (String.eqb k k0) eqn:Hk0.
  - apply String.eqb_eq in Hk0 as <-.
    clear IH Hnd. induction rest as [|[k1 v1] rest IH]; simpl; [done|].
    destruct (String.eqb k k1) eqn:Hk1.
    + apply String.eqb_eq in Hk1 as <-. set_solver.
    + apply IH. set_solver.
  - simpl. rewrite Hk0. by apply IH.
Qed.

(** X13. Normalizing the score of a comment, an object whose keys are
    distinct, writes the confidence score and no other field: the comment
    that comes out has the normalized score for confidence score (none where
    there was none or null), a number that is NaN or lies between 0 and 1,
    and every other field as it was. *)
Theorem normalizeComment_writes_the_score_only {runtime : JsRuntime}
    (fields : list (string * Json.t)) :
  NoDup fields.*1 ->
  ∃ fields',
    normalizeComment (Json.Obj fields) = Some (Json.Obj fields')
    ∧ Json.lookup "confidenceScore" fields'
      = Json.Num <$> normalizeConfidence (scoreOf (Json.lookup "confidenceScore" fields))
    ∧ (∀ k, k ≠ "confidenceScore" -> Json.lookup k fields' = Json.lookup k fields)
    ∧ scoreInRange (Json.Obj fields') = true.
Proof.
  intros Hnd. eexists. split; [reflexivity|].
  assert (Json.lookup "confidenceScore"
            (Json.assign "confidenceScore"
               (Json.Num <$> normalizeConfidence
                               (scoreOf (Json.lookup "confidenceScore" fields)))
               fields)
          = Json.Num <$> normalizeConfidence (scoreOf (Json.lookup "confidenceScore" fields)))
    as Hscore.
  { destruct (normalizeConfidence _) as [x|]; simpl.
    - apply lookup_assign_same.
    - by apply lookup_assign_none. }
  split; [done|]. split; [intros k Hk; by apply lookup_assign_other|].
  unfold scoreInRange. simpl. rewrite Hscore.
  destruct (scoreOf _) as [s|]; [|done]. unfold normalizeConfidence.
  destruct (PrimFloat.ltb 1 s); simpl; apply clamp_range.
Qed.

(** ** The threads of the gateway *)

Lemma normalizeThread_valid {runtime : JsRuntime} (thread thread' : Json.t) :
  isValidReviewThread thread = true ->
  normalizeThread thread = Some thread' ->
  isValidReviewThread thread' = true.
Proof.
  unfold normalizeThread. destruct thread as [| | | | |fields]; try by intros ? [= <-].
  destruct (Json.lookup "comments" fields) as [[| | | |comments|]|] eqn:Hcomments;
    try by intros ? [= <-].
  destruct (mapM normalizeComment comments) as [comments'|]; [|done].
  simpl. intros Hvalid [= <-]. revert Hvalid.
  unfold isValidReviewThread. simpl.
  rewrite !lookup_assign_other by done. rewrite lookup_assign_same.
  rewrite Hcomments. done.
Qed.

Lemma diagnosticThread_valid (filePath issueType content : string) :
  filePath ≠ EmptyString ->
  Forall (fun thread => isValidReviewThread thread = true)
         (diagnosticThread filePath issueType content).
Proof.
  intros Hne. unfold diagnosticThread. apply Forall_cons. split; [|done].
  unfold isValidReviewThread. simpl. by destruct filePath.
Qed.

(** X14. Whatever the model wrote, every thread the gateway returns for a
    request with a path has the shape of a review thread: a numeric status,
    a context with a path, an array of comments. *)
Theorem gateway_returns_valid_threads {runtime : JsRuntime} {endpoint : ChatEndpoint}
    (config : LlmModelConfig.t) (request : LlmReviewRequest.t) (threads : list Json.t) :
  LlmReviewRequest.filePath request ≠ EmptyString ->
  gatewayReviewCode config request = Some threads ->
  Forall (fun thread => isValidReviewThread thread = true) threads.
Proof.
  intros Hpath. unfold gatewayReviewCode.
  destruct (exceedsTokenLimit _ _); [by intros [= <-]|].
  destruct (chatCompletion _ _) as [content|]; [|done]. simpl. intros [= <-].
  unfold threadsOfChoice.
  destruct (tryExtractJsonObject _) as [extracted|]; [|by apply diagnosticThread_valid].
  destruct (JSON_parse extracted) as [parsed|]; [|by apply diagnosticThread_valid].
  destruct (isValidResponse parsed) eqn:Hvalid; simpl; [|by apply diagnosticThread_valid].
  destruct (mapM normalizeThread _) as [normalized|] eqn:Hnorm;
    [|by apply diagnosticThread_valid].
  unfold isValidResponse in Hvalid.
  apply andb_true_iff in Hvalid as [_ Hall]. rewrite forallb_forall in Hall.
  apply mapM_Some_1 in Hnorm.
  induction Hnorm as [|t t' rest rest' Ht _ IH]; [done|].
  apply Forall_cons. split.
  - eapply normalizeThread_valid; [|exact Ht]. apply Hall. by left.
  - apply IH. intros x Hx. apply Hall. by right.
Qed.

(** ** The comment filter *)

Lemma filterCommentsByConfidence_filteredOut (comments : list ReviewComment.t) (m : float) :
  fst (filterCommentsByConfidence comments m)
  = List.filter (fun c => belowMinimum (ReviewComment.confidenceScore c) m) comments.
Proof.
  induction comments as [|c rest IH]; [reflexivity|].
  simpl. destruct (filterCommentsByConfidence rest m) as [fo rem]. simpl in IH.
  destruct (belowMinimum _ _); simpl; congruence.
Qed.

Lemma filter_partition_perm {A : Type} (p : A -> bool) (l : list A) :
  List.filter p l ++ List.filter (fun x => negb (p x)) l ≡ₚ l.
Proof.
  induction l as [|x l IH]; [done|]. simpl. destruct (p x); simpl.
  - by f_equiv.
  - rewrite <- Permutation_middle. by f_equiv.
Qed.

Lemma filter_sublist_bool {A : Type} (p : A -> bool) (l : list A) :
  List.filter p l `sublist_of` l.
Proof.
  induction l as [|x l IH]; [done|]. simpl. destruct (p x); by constructor.
Qed.

Lemma filter_disabled {A : Type} (q : A -> bool) (l : list A) :
  List.filter (fun x => false && q x) l = []
  ∧ List.filter (fun x => negb (false && q x)) l = l.
Proof. induction l as [|x l [IH1 IH2]]; [done|]. simpl. split; [done|by f_equal]. Qed.

(** X16. The comment filter of the policy splits the comments in two, in
    order and without loss: the comments filtered out are those with a
    score below the minimum, when the filter is enabled; the others remain,
    among them every comment without a score. *)
Theorem comment_filter_is_a_stable_partition (comments : list ReviewComment.t)
    (policy : ReviewPolicy.t) :
  let conf := ReviewPolicy.confidence policy in
  let below c :=
    Confidence.enabled conf
    && belowMinimum (ReviewComment.confidenceScore c) (Confidence.minimum conf) in
  let filteredOut := (filterCommentsByPolicy comments policy).1 in
  let remaining := (filterCommentsByPolicy comments policy).2 in
  filteredOut = List.filter below comments
  ∧ remaining = List.filter (fun c => negb (below c)) comments
  ∧ filteredOut ++ remaining ≡ₚ comments
  ∧ filteredOut `sublist_of` comments
  ∧ remaining `sublist_of` comments
  ∧ (∀ c, c ∈ comments -> ReviewComment.confidenceScore c = None -> c ∈ remaining).
Proof.
  intros conf below filteredOut remaining.
  assert (filteredOut = List.filter below comments) as Hfo.
  { subst filteredOut below. unfold filterCommentsByPolicy. fold conf.
    destruct (Confidence.enabled conf).
    - simpl. apply filterCommentsByConfidence_filteredOut.
    - cbn [negb fst]. symmetry. apply filter_disabled. }
  assert (remaining = List.filter (fun c => negb (below c)) comments) as Hrem.
  { subst remaining below. unfold filterCommentsByPolicy. fold conf.
    destruct (Confidence.enabled conf).
    - simpl. apply filterCommentsByConfidence_remaining.
    - cbn [negb snd]. symmetry. apply filter_disabled. }
  rewrite Hfo, Hrem.
  split; [done|]. split; [done|]. split; [apply filter_partition_perm|].
  split; [apply filter_sublist_bool|]. split; [apply filter_sublist_bool|].
  intros c Hin Hnone. apply list_elem_of_In, filter_In. split; [by apply list_elem_of_In|].
  subst below. simpl. unfold belowMinimum. rewrite Hnone. by rewrite andb_false_r.
Qed.

(** ** Signatures and white space *)

Lemma trimStart_whiteSpace (a s : string) :
  allWhiteSpace a = true -> Js.trimStart (a +:+ s) = Js.trimStart s.
Proof.
  induction a as [|c a IH]; [done|]. rewrite append_cons. simpl. intros Hws.
  apply andb_true_iff in Hws as [Hc Ha]. rewrite Hc. by apply IH.
Qed.

Lemma trimEnd_allWhiteSpace (b : string) : allWhiteSpace b = true -> Js.trimEnd b = EmptyString.
Proof.
  induction b as [|c b IH]; [done|]. simpl. intros Hws.
  apply andb_true_iff in Hws as [Hc Hb]. by rewrite (IH Hb), Hc.
Qed.

Lemma trimEnd_whiteSpace (s b : string) :
  allWhiteSpace b = true -> Js.trimEnd (s +:+ b) = Js.trimEnd s.
Proof.
  intros Hws. induction s as [|c s IH].
  - rewrite append_nil. by apply trimEnd_allWhiteSpace.
  - rewrite append_cons. simpl. by rewrite IH.
Qed.

Lemma trim_whiteSpace (a s b : string) :
  allWhiteSpace a = true -> allWhiteSpace b = true ->
  Js.trim (a +:+ s +:+ b) = Js.trim s.
Proof.
  intros Ha Hb. unfold Js.trim. rewrite (trimStart_whiteSpace _ _ Ha).
  induction s as [|c s IH].
  - rewrite append_nil. simpl.
    assert (Js.trimStart b = EmptyString) as ->; [|done].
    clear Ha. induction b as [|x b IHb]; [done|]. simpl in *.
    apply andb_true_iff in Hb as [-> Hb]. by apply IHb.
  - rewrite append_cons. simpl. destruct (Js.isWhiteSpace c); [done|].
    rewrite <- append_cons. by apply trimEnd_whiteSpace.
Qed.

Section Whitespace.

Context {hash : Sha256Hex}.

(** X17. The final dedup does not see white space around a content: of
    two findings without an id, for the same path, whose contents differ by
    leading and trailing white space only, the signatures are equal, and
    when the second follows the first it is removed, whatever became of the
    first. *)
Theorem dedup_ignores_surrounding_white_space
    (previousComments : option (list PreviousComment.t)) (seen : gset string)
    (f g : Finding.t) (a b : string) :
  Finding.id f = EmptyString -> Finding.id g = EmptyString ->
  Finding.filePath g = Finding.filePath f ->
  allWhiteSpace a = true -> allWhiteSpace b = true ->
  Finding.content g = a +:+ Finding.content f +:+ b ->
  let first := dedupeAgainstPrevious [f] previousComments seen in
  signatureOf g = signatureOf f
  ∧ dedupeAgainstPrevious [f; g] previousComments seen
    = (first.1.1, first.1.2 ++ [g], first.2).
Proof.
  intros Hf Hg Hpath Ha Hb Hcontent first.
  assert (signatureOf g = signatureOf f) as Hsig.
  { rewrite !signatureOf_fresh by done. by rewrite Hpath, Hcontent, trim_whiteSpace. }
  split; [done|]. subst first.
  unfold dedupeAgainstPrevious. simpl. rewrite Hsig.
  set (P := previousSignaturesOf previousComments).
  destruct (bool_decide (signatureOf f ∈ seen) || bool_decide (signatureOf f ∈ P)) eqn:Hseen.
  - done.
  - assert (bool_decide (signatureOf f ∈ {[signatureOf f]} ∪ seen) = true) as ->
      by (apply bool_decide_eq_true; set_solver).
    done.
Qed.

End Whitespace.

(** ** The requests of a run *)

Section Requests.

Context {hash : Sha256Hex} {parser : ParseGitDiff}.

Variable respond : LlmReviewRequest.t -> list ReviewThread.t.

Lemma recording_reviewFile (input : ReviewInput.t) (file : FileDiff.t)
    (st st' : RunState (LlmClient.state (recordingClient respond))) :
  reviewFile input (recordingClient respond) st file = Some st' ->
  llmState st'
  = llmState st
    ++ [buildLlmRequest (FileDiff.path file) (FileDiff.diff file)
          (getCommentContentForExclusion
             (previousFileCommentsOf (ReviewInput.previousComments input) file)
             (runComments st) (ReviewInput.policy input) (dedupeCriteriaMet st)).1
          (ReviewInput.policy input)].
Proof.
  intros Hstep.
  apply reviewFile_inv in Hstep as (response & llm' & threads & Hcall & _ & ->).
  simpl in *. by injection Hcall as _ <-.
Qed.

(** X18. The client is sent one request for each file, in the order of
    the files: the request of a file carries its normalized path, its diff
    and the options of the policy; with cross-file dedup disabled, the
    comments it is told to avoid are the contents of the previous comments
    of that file. *)
Theorem requests_follow_the_files (input : ReviewInput.t) (files : list FileDiff.t)
    (st st' : RunState (LlmClient.state (recordingClient respond))) :
  reviewFiles input (recordingClient respond) files st = Some st' ->
  ∃ sent : list LlmReviewRequest.t,
    llmState st' = llmState st ++ sent
    ∧ map (fun r => (LlmReviewRequest.filePath r, LlmReviewRequest.diff r)) sent
      = map (fun file => (normalizePath (FileDiff.path file), FileDiff.diff file)) files
    ∧ Forall (fun r => LlmReviewRequest.options r = optionsOf (ReviewInput.policy input)) sent
    ∧ (DedupeAcrossFiles.enabled (ReviewPolicy.dedupeAcrossFiles (ReviewInput.policy input))
       = false ->
       map LlmReviewRequest.existingComments sent
       = map (fun file =>
                map ReviewComment.content
                    (previousFileCommentsOf (ReviewInput.previousComments input) file))
             files).
Proof.
  revert st. induction files as [|file rest IH]; intros st; simpl.
  - intros [= <-]. exists []. by rewrite app_nil_r.
  - destruct (reviewFile input (recordingClient respond) st file) as [st1|] eqn:Hstep;
      simpl; [|done].
    intros Hrest. destruct (IH st1 Hrest) as (sent & Hlog & Hpaths & Hoptions & Hexcl).
    apply recording_reviewFile in Hstep.
    eexists (_ :: sent). split; [|split; [|split]].
    + cbn [LlmClient.state recordingClient] in *.
      rewrite Hlog, Hstep, <- app_assoc. reflexivity.
    + simpl. by rewrite Hpaths.
    + by apply Forall_cons.
    + intros Hdis. simpl. rewrite (Hexcl Hdis). f_equal.
      unfold getCommentContentForExclusion. by rewrite Hdis.
Qed.

End Requests.

(** ** Previous comments and the final dedup *)

Section PreviousComments.

Context {hash : Sha256Hex} {parser : ParseGitDiff}.

(** No kept finding has the path, as written, and the trimmed content of a
    previous comment. *)
Lemma kept_is_no_previous_comment (input : ReviewInput.t) (llmClient : LlmClient.t)
    (report : ReviewReport.t) (f : Finding.t) (c : PreviousComment.t) :
  reviewCode input llmClient = Some report ->
  f ∈ ReviewReport.findings report ->
  c ∈ default [] (ReviewInput.previousComments input) ->
  default EmptyString (PreviousComment.filePath c) = Finding.filePath f ->
  Js.trim (PreviousComment.content c) = Js.trim (Finding.content f) ->
  False.
Proof.
  unfold reviewCode.
  destruct (reviewRun input llmClient) as [[r gen]|] eqn:Hrun; [|done].
  simpl. intros [= ->] Hf Hc Hpath Hcontent.
  apply reviewRun_inv in Hrun as [(_ & -> & _)|(_ & st & Hfiles & Hinv & -> & _)].
  { by apply elem_of_nil in Hf. }
  simpl in Hf. apply list_elem_of_fmap in Hf as (g & -> & Hg). simpl in *.
  destruct (reviewFiles_ids input llmClient (ReviewInput.files input)
              (initialState llmClient) st
              (initialState_invariant input llmClient)) as [_ Hnp]; try done.
  { apply NoDup_nil_2. }
  { intros x Hx. by apply elem_of_nil in Hx. }
  apply (Hnp g Hg). rewrite (inv_ids _ _ Hinv g Hg).
  apply previousSignaturesOf_spec. exists c. split; [done|].
  unfold buildFindingSignature. simpl. by rewrite Hpath, Hcontent.
Qed.

(** X19. When the paths of the previous comments start with the
    separator, the final dedup recognises every previous comment that the
    exclusion list selects: no kept finding has the trimmed content of a
    previous comment whose normalized path is its own. *)
Theorem normalized_previous_comments_are_recognised (input : ReviewInput.t)
    (llmClient : LlmClient.t) (report : ReviewReport.t) :
  (∀ c, c ∈ default [] (ReviewInput.previousComments input) ->
        Js.startsWith (default EmptyString (PreviousComment.filePath c)) "/" = true) ->
  reviewCode input llmClient = Some report ->
  ∀ f c, f ∈ ReviewReport.findings report ->
         c ∈ default [] (ReviewInput.previousComments input) ->
         normalizePath (default EmptyString (PreviousComment.filePath c))
         = Finding.filePath f ->
         Js.trim (PreviousComment.content c) ≠ Js.trim (Finding.content f).
Proof.
  intros Hslash Hcode f c Hf Hc Hpath Hcontent.
  eapply kept_is_no_previous_comment; [exact Hcode|exact Hf|exact Hc| |exact Hcontent].
  unfold normalizePath in Hpath. by rewrite (Hslash c Hc) in Hpath.
Qed.

Lemma getCommentsForFile_spec (threads : list AdoThread.t) (fileName : string)
    (c : PreviousComment.t) :
  c ∈ getCommentsForFile threads fileName
  <-> ∃ thread comment,
        thread ∈ threads
        ∧ AdoThread.filePath thread = Some (normalizePath fileName)
        ∧ comment ∈ AdoThread.comments thread
        ∧ c = PreviousComment.mk (Some comment.1) (Some (normalizePath fileName))
                comment.2 None.
Proof.
  unfold getCommentsForFile. fold (normalizePath fileName).
  rewrite list_elem_of_In, in_flat_map. split.
  - intros (thread & Hthread & Hin). apply list_elem_of_In in Hthread.
    destruct (bool_decide _) eqn:Hpath; [|done]. apply bool_decide_eq_true in Hpath.
    apply list_elem_of_In, list_elem_of_fmap in Hin as (comment & -> & Hcomment).
    by exists thread, comment.
  - intros (thread & comment & Hthread & Hpath & Hcomment & ->).
    exists thread. split; [by apply list_elem_of_In|].
    rewrite bool_decide_eq_true_2 by done.
    apply list_elem_of_In, list_elem_of_fmap. by exists comment.
Qed.

(** X20. With the previous comments that the pipeline task fetches for
    the files under review, no kept finding repeats a comment of the pull
    request: there is no thread attached to the path of the finding with a
    comment whose content, trimmed, is the content of the finding, trimmed. *)
Theorem fetched_comments_are_never_repeated (threads : list AdoThread.t)
    (files : list FileDiff.t) (policy : ReviewPolicy.t) (llmClient : LlmClient.t)
    (report : ReviewReport.t) :
  let previous := getCommentsForFiles threads (map FileDiff.path files) in
  reviewCode (ReviewInput.mk files policy (Some previous)) llmClient = Some report ->
  ∀ f thread comment,
    f ∈ ReviewReport.findings report ->
    thread ∈ threads ->
    AdoThread.filePath thread = Some (Finding.filePath f) ->
    comment ∈ AdoThread.comments thread ->
    Js.trim comment.2 ≠ Js.trim (Finding.content f).
Proof.
  intros previous Hcode f thread comment Hf Hthread Hpath Hcomment Hcontent.
  destruct (report_finding_origin _ _ _ f Hcode) as (g & (file & t & Hfile & Hg) & Heq).
  { apply elem_of_app. by left. }
  apply threadToFindings_fresh in Hg as [_ Hgpath].
  assert (Finding.filePath f = normalizePath (FileDiff.path file)) as Hfpath
    by (rewrite Heq; simpl; exact Hgpath).
  eapply (kept_is_no_previous_comment _ _ _ f
            (PreviousComment.mk (Some comment.1) (Some (normalizePath (FileDiff.path file)))
               comment.2 None));
    [exact Hcode|exact Hf| |by simpl|exact Hcontent].
  simpl. subst previous. unfold getCommentsForFiles.
  apply list_elem_of_In, in_flat_map. exists (FileDiff.path file). split.
  - apply in_map. by apply list_elem_of_In.
  - apply list_elem_of_In, getCommentsForFile_spec. exists thread, comment.
    split; [done|]. split; [by rewrite <- Hfpath|]. done.
Qed.

(** ** The route of the server *)

(** X21. The route answers 400 exactly for an empty file list, so the
    report of the empty file list never leaves the server: a report it
    returns has the sentence with the three numbers for summary. *)
Theorem server_reports_carry_the_sentence (input : ReviewInput.t) (llmClient : LlmClient.t) :
  (postReview input llmClient = BadRequest400 "files are required"
   <-> ReviewInput.files input = [])
  ∧ (postReview input llmClient = ServerError500
     <-> ReviewInput.files input ≠ [] ∧ reviewCode input llmClient = None)
  ∧ (∀ report, postReview input llmClient = Ok200 report ->
       reviewCode input llmClient = Some report
       ∧ ReviewReport.summaryMarkdown report
         = "Findings: " +:+ Js.showNat (length (ReviewReport.findings report))
           +:+ " (" +:+ Js.showNat (length (ReviewReport.filteredOut report))
           +:+ " filtered out, total generated "
           +:+ Js.showNat (length (ReviewReport.findings report)
                           + length (ReviewReport.filteredOut report))
           +:+ ").").
Proof.
  unfold postReview.
  destruct (ReviewInput.files input) as [|file rest] eqn:Hfiles.
  { split; [done|]. split; [|done]. split; [done|]. by intros [? _]. }
  destruct (reviewCode input llmClient) as [report|] eqn:Hcode.
  - split; [done|]. split; [split; [done|by intros [_ ?]]|].
    intros r [= <-]. split; [done|].
    unfold reviewCode in Hcode.
    destruct (reviewRun input llmClient) as [[r gen]|] eqn:Hrun; [|done].
    simpl in Hcode. injection Hcode as ->.
    apply reviewRun_inv in Hrun as [(Hnil & _)|(_ & st & _ & _ & -> & _)]; [congruence|].
    simpl. unfold summarize. simpl. by rewrite !length_map.
  - split; [done|]. split; [done|]. by intros r.
Qed.

End PreviousComments.

(** ** The exit code of the command line *)

Lemma arrayIndexOf_order (x : string) :
  let i := JsMore.arrayIndexOf ["low"; "medium"; "high"; "critical"] x in
  (i = -1 ∧ ∀ severity, x ≠ severityName severity)%Z
  ∨ ∃ severity, x = severityName severity ∧ i = severityRank severity.
Proof.
  cbn [JsMore.arrayIndexOf].
  destruct (String.eqb_spec "low" x) as [<-|H1]; [right; by exists low|].
  destruct (String.eqb_spec "medium" x) as [<-|H2]; [right; by exists medium|].
  destruct (String.eqb_spec "high" x) as [<-|H3]; [right; by exists high|].
  destruct (String.eqb_spec "critical" x) as [<-|H4]; [right; by exists critical|].
  left. split; [reflexivity|]. by intros [].
Qed.

Lemma severityName_inj (a b : Severity) : severityName a = severityName b -> a = b.
Proof. by destruct a, b. Qed.

(** X22. The threshold test of the command line is the order low, medium,
    high, critical on the names of the severities, read without regard to
    letter case: it holds exactly when both texts name a severity and the
    first is at least the second; a text that names none meets no threshold
    and is met by none. *)
Theorem threshold_test_is_the_severity_order (severity threshold : string) :
  (severityMeetsThreshold severity threshold = true
   <-> ∃ a b, JsMore.toLowerCase severity = severityName a
              ∧ JsMore.toLowerCase threshold = severityName b
              ∧ (severityRank b <= severityRank a)%Z)
  ∧ (∀ a b, severityMeetsThreshold (severityName a) (severityName b)
            = (severityRank b <=? severityRank a)%Z)
  ∧ severityMeetsThreshold "HIGH" "medium" = true
  ∧ severityMeetsThreshold "info" "low" = false.
Proof.
  split; [|split; [by intros [] []|done]].
  unfold severityMeetsThreshold. cbv zeta.
  destruct (arrayIndexOf_order (JsMore.toLowerCase severity)) as [[-> Hs]|(a & Ha & ->)].
  { simpl. split; [done|]. intros (a & b & Ha & _). by destruct (Hs a). }
  destruct (arrayIndexOf_order (JsMore.toLowerCase threshold)) as [[-> Ht]|(b & Hb & ->)].
  { rewrite orb_true_r. split; [done|]. intros (a' & b & _ & Hb & _). by destruct (Ht b). }
  assert ((severityRank a =? -1)%Z = false) as -> by (by destruct a).
  assert ((severityRank b =? -1)%Z = false) as -> by (by destruct b).
  simpl. rewrite Z.leb_le. split.
  - intros Hle. by exists a, b.
  - intros (a' & b' & Ha' & Hb' & Hle).
    rewrite Ha in Ha'. rewrite Hb in Hb'.
    apply severityName_inj in Ha', Hb'. by subst.
Qed.

Section ExitCode.

Context {hash : Sha256Hex} {parser : ParseGitDiff}.

(** X23. No finding of the engine is below medium, so the thresholds low
    and medium block alike: with either, the exit code is 1 exactly when
    the report has a finding. *)
Theorem low_and_medium_block_on_any_finding (input : ReviewInput.t)
    (llmClient : LlmClient.t) (report : ReviewReport.t) :
  reviewCode input llmClient = Some report ->
  hasBlocking report "low" = hasBlocking report "medium"
  ∧ (hasBlocking report "medium" = true <-> ReviewReport.findings report ≠ []).
Proof.
  intros Hcode.
  assert (∀ f, f ∈ ReviewReport.findings report ->
               severityMeetsThreshold (severityName (Finding.severity f)) "low" = true
               ∧ severityMeetsThreshold (severityName (Finding.severity f)) "medium" = true)
    as Hmeets.
  { intros f Hf.
    destruct (report_finding_origin _ _ _ f Hcode) as (g & (file & t & _ & Hg) & ->).
    { apply elem_of_app. by left. }
    unfold threadToFindings in Hg. destruct (deriveLineRange _) as [ls le].
    apply list_elem_of_fmap in Hg as (comment & -> & _). simpl.
    unfold deriveSeverity. by repeat destruct (String.eqb _ _). }
  unfold hasBlocking. revert Hmeets.
  generalize (ReviewReport.findings report) as kept.
  intros [|f rest] Hmeets; [done|].
  destruct (Hmeets f) as [Hlow Hmedium]; [apply list_elem_of_here|].
  simpl. rewrite Hlow, Hmedium. done.
Qed.

End ExitCode.

(** ** The file filter *)

Lemma findLast_none_intro (t s : string) :
  (∀ pre post, s ≠ pre +:+ t +:+ post) -> Js.findLast t s = None.
Proof.
  intros Hno. destruct (Js.findLast t s) as [i|] eqn:Hlast; [|done].
  apply findLast_occurrence in Hlast as (pre & post & Heq & _). by destruct (Hno pre post).
Qed.

Lemma substring_all (s : string) : String.substring 0 (String.length s) s = s.
Proof. induction s as [|c s IH]; [done|]. simpl. by rewrite IH. Qed.

Lemma getFileExtension_dot (fileName pre post : string) :
  fileName = pre +:+ "." +:+ post ->
  (∀ p q, post ≠ p +:+ "." +:+ q) ->
  getFileExtension fileName = "." +:+ post.
Proof.
  intros -> Hlast. unfold getFileExtension, Js.lastIndexOf.
  destruct (Js.findLast "." (pre +:+ "." +:+ post)) as [i|] eqn:Hfind.
  - destruct (findLast_occurrence _ _ _ Hfind) as (pre2 & post2 & Heq & Hi).
    pose proof (findLast_last _ _ _ Hfind pre post eq_refl) as Hle.
    assert (pre2 = pre ∧ post2 = post) as [-> ->].
    { destruct (append_split pre ("." +:+ post) pre2 ("." +:+ post2) Heq) as (m & -> & Hm);
        [lia|].
      destruct m as [|c m].
      - rewrite append_nil in Hm. rewrite !append_cons, !append_nil in Hm.
        injection Hm as ->. split; [|done].
        clear. induction pre as [|c pre IH]; [done|]. by rewrite append_cons, IH.
      - rewrite !append_cons, !append_nil in Hm. injection Hm as <- Hm.
        by destruct (Hlast m post2). }
    assert ((0 <=? Z.of_nat i)%Z = true) as -> by lia.
    rewrite Nat2Z.id, <- Hi, substring_skip.
    replace (String.length (pre +:+ "." +:+ post) - String.length pre)%nat
      with (String.length ("." +:+ post)) by (rewrite !append_length; lia).
    apply substring_all.
  - by eapply findLast_none in Hfind.
Qed.

(** X24. The extension of a file name is the text from its last dot on,
    the dot included, wherever the dot stands, and the empty text when the
    name has no dot; the extension of an extension is the extension. *)
Theorem extension_runs_from_the_last_dot (fileName : string) :
  ((∀ pre post, fileName ≠ pre +:+ "." +:+ post) -> getFileExtension fileName = EmptyString)
  ∧ (∀ pre post, fileName = pre +:+ "." +:+ post ->
       (∀ p q, post ≠ p +:+ "." +:+ q) ->
       getFileExtension fileName = "." +:+ post)
  ∧ (getFileExtension fileName = EmptyString
     ∨ ∃ pre post, fileName = pre +:+ "." +:+ post
                   ∧ (∀ p q, post ≠ p +:+ "." +:+ q)
                   ∧ getFileExtension fileName = "." +:+ post)
  ∧ getFileExtension (getFileExtension fileName) = getFileExtension fileName.
Proof.
  assert ((∀ pre post, fileName ≠ pre +:+ "." +:+ post) ->
          getFileExtension fileName = EmptyString) as Hnone.
  { intros Hno. unfold getFileExtension, Js.lastIndexOf.
    by rewrite (findLast_none_intro _ _ Hno). }
  assert (getFileExtension fileName = EmptyString
          ∨ ∃ pre post, fileName = pre +:+ "." +:+ post
                        ∧ (∀ p q, post ≠ p +:+ "." +:+ q)
                        ∧ getFileExtension fileName = "." +:+ post) as Hcases.
  { destruct (Js.findLast "." fileName) as [i|] eqn:Hfind.
    - right. destruct (findLast_occurrence _ _ _ Hfind) as (pre & post & Heq & Hi).
      assert (∀ p q, post ≠ p +:+ "." +:+ q) as Hlast.
      { intros p q ->.
        pose proof (findLast_last _ _ _ Hfind (pre +:+ "." +:+ p) q) as Hle.
        rewrite !append_assoc in Hle. specialize (Hle Heq).
        rewrite !append_length in Hle. simpl in Hle. lia. }
      exists pre, post. split; [done|]. split; [done|].
      by apply (getFileExtension_dot _ pre post).
    - left. apply Hnone. by apply findLast_none. }
  split; [done|]. split; [intros pre post; apply getFileExtension_dot|].
  split; [done|].
  destruct Hcases as [->|(pre & post & _ & Hlast & ->)]; [done|].
  by apply (getFileExtension_dot _ EmptyString post).
Qed.

Section FileFilterProperties.

Context {libraries : FilterLibraries}.

Lemma filter_filter_same {A : Type} (p : A -> bool) (l : list A) :
  List.filter p (List.filter p l) = List.filter p l.
Proof.
  induction l as [|x l IH]; [done|]. simpl. destruct (p x) eqn:Hp; [|done].
  simpl. by rewrite Hp, IH.
Qed.

Lemma filter_comm {A : Type} (p q : A -> bool) (l : list A) :
  List.filter p (List.filter q l) = List.filter q (List.filter p l).
Proof.
  induction l as [|x l IH]; [done|]. simpl.
  destruct (p x) eqn:Hp, (q x) eqn:Hq; simpl; rewrite ?Hp, ?Hq, ?IH; done.
Qed.

Lemma filter_and {A : Type} (p q : A -> bool) (l : list A) :
  List.filter q (List.filter p l) = List.filter (fun x => p x && q x) l.
Proof.
  induction l as [|x l IH]; [done|]. simpl.
  destruct (p x) eqn:Hp; simpl; [|done]. destruct (q x); by rewrite IH.
Qed.

Lemma filterFilesForReview_spec (options : FileFilterOptions.t) :
  filterFilesForReview options
  = List.filter (keptByFilter options) (FileFilterOptions.files options).
Proof.
  unfold filterFilesForReview, keptByFilter. cbv zeta.
  destruct (nonEmptyInput (FileFilterOptions.fileExtensions options)
            || nonEmptyInput (FileFilterOptions.filesToInclude options));
    destruct (nonEmptyInput (FileFilterOptions.fileExtensionExcludes options)
              || nonEmptyInput (FileFilterOptions.filesToExclude options));
    rewrite ?filter_and; apply filter_ext; intros file; simpl;
    rewrite ?andb_true_r, ?andb_assoc; done.
Qed.

(** X25. The file filter keeps a subsequence of the files and decides on
    each file by itself: no file with a binary extension is kept; once an
    exclusion is configured, no kept file has an excluded extension or
    matches an excluded pattern, whatever the inclusions say; without
    inclusions and exclusions the files kept are those without a binary
    extension; and filtering the files kept changes nothing. *)
Theorem file_filter_keeps_a_subsequence (options : FileFilterOptions.t) :
  let kept := filterFilesForReview options in
  let binary file :=
    arrayIncludes binaryExtensions (dropLeadingDot (getFileExtension file)) in
  kept `sublist_of` FileFilterOptions.files options
  ∧ (∀ file, file ∈ kept -> binary file = false)
  ∧ (nonEmptyInput (FileFilterOptions.fileExtensionExcludes options)
     || nonEmptyInput (FileFilterOptions.filesToExclude options) = true ->
     ∀ file, file ∈ kept ->
       arrayIncludes (parseInputToArray (FileFilterOptions.fileExtensionExcludes options))
                     (getFileExtension file) = false
       ∧ isMatch file (parseInputToArray (FileFilterOptions.filesToExclude options)) = false)
  ∧ (nonEmptyInput (FileFilterOptions.fileExtensions options)
     || nonEmptyInput (FileFilterOptions.filesToInclude options) = false ->
     nonEmptyInput (FileFilterOptions.fileExtensionExcludes options)
     || nonEmptyInput (FileFilterOptions.filesToExclude options) = false ->
     kept = List.filter (fun file => negb (binary file)) (FileFilterOptions.files options))
  ∧ filterFilesForReview (withFiles options kept) = kept
  ∧ (∀ files1 files2,
       filterFilesForReview (withFiles options (files1 ++ files2))
       = filterFilesForReview (withFiles options files1)
         ++ filterFilesForReview (withFiles options files2)).
Proof.
  intros kept binary. subst kept.
  assert (∀ files, filterFilesForReview (withFiles options files)
                   = List.filter (keptByFilter options) files) as Hwith
    by (intros files; by rewrite filterFilesForReview_spec).
  rewrite filterFilesForReview_spec.
  split; [apply filter_sublist_bool|].
  split; [|split; [|split; [|split]]].
  - intros file Hin. apply list_elem_of_In, filter_In in Hin as [_ Hkept].
    unfold keptByFilter in Hkept.
    apply andb_true_iff in Hkept as [Hkept _]. apply andb_true_iff in Hkept as [Hkept _].
    by apply negb_true_iff in Hkept.
  - intros Hexcl file Hin. apply list_elem_of_In, filter_In in Hin as [_ Hkept].
    unfold keptByFilter in Hkept. rewrite Hexcl in Hkept. simpl in Hkept.
    apply andb_true_iff in Hkept as [_ Hkept]. apply andb_true_iff in Hkept as [H1 H2].
    by apply negb_true_iff in H1, H2.
  - intros Hinc Hexc. apply filter_ext. intros file. unfold keptByFilter.
    rewrite Hinc, Hexc. simpl. by rewrite !andb_true_r.
  - rewrite Hwith. apply filter_filter_same.
  - intros files1 files2. rewrite !Hwith. apply List.filter_app.
Qed.

End FileFilterProperties.

(** ** What a request lists once the latch is set *)

Section LatchedRequests.

Context {hash : Sha256Hex} {parser : ParseGitDiff}.

Variable respond : LlmReviewRequest.t -> list ReviewThread.t.

(** X26. Once the latch of cross-file dedup is set, the request for a file
    lists, after the contents of the previous comments of the file, the
    content of every finding generated for the files before it, kept or
    not, in the order of generation. *)
Theorem latched_request_lists_every_generated_finding (input : ReviewInput.t)
    (before : list FileDiff.t) (file : FileDiff.t)
    (st st' : RunState (LlmClient.state (recordingClient respond))) :
  reviewFiles input (recordingClient respond) before (initialState (recordingClient respond))
  = Some st ->
  reviewFile input (recordingClient respond) st file = Some st' ->
  DedupeAcrossFiles.enabled (ReviewPolicy.dedupeAcrossFiles (ReviewInput.policy input)) = true ->
  dedupeCriteriaMet st' = true ->
  ∃ request,
    llmState st' = llmState st ++ [request]
    ∧ LlmReviewRequest.filePath request = normalizePath (FileDiff.path file)
    ∧ LlmReviewRequest.existingComments request
      = map ReviewComment.content
            (previousFileCommentsOf (ReviewInput.previousComments input) file)
        ++ map Finding.content (generated st).
Proof.
  intros Hbefore Hstep Hen Hmet.
  pose proof (recording_reviewFile respond _ _ _ _ Hstep) as Hlog.
  eexists. split; [exact Hlog|]. split; [done|].
  assert (map Finding.content (generated st) = map ReviewComment.content (runComments st))
    as Hcontents.
  { pose proof (reviewFiles_runComments input (recordingClient respond) before
                  (initialState (recordingClient respond)) st eq_refl Hbefore) as Heq.
    apply (f_equal (map ReviewComment.content)) in Heq.
    rewrite !map_map in Heq. exact Heq. }
  apply reviewFile_inv in Hstep as (response & llm' & threads & _ & _ & ->).
  cbn [LlmClient.state recordingClient] in *. rewrite Hcontents.
  simpl in Hmet. simpl.
  unfold getCommentContentForExclusion in *. simpl in *. rewrite Hen in *. simpl in *.
  rewrite Hmet. simpl. by rewrite map_app.
Qed.

End LatchedRequests.

(** ** The publisher: findings by file *)

Section Grouping.

Implicit Types (m : list (string * list Finding.t)) (l : list Finding.t).

Lemma has_keys {V : Type} (key : string) (m : list (string * V)) :
  JsMap.has key m = true <-> key ∈ m.*1.
Proof.
  induction m as [|[k v] rest IH]; simpl.
  - split; [done|]. intros Hin. by apply elem_of_nil in Hin.
  - rewrite orb_true_iff, IH, elem_of_cons, String.eqb_eq. naive_solver.
Qed.

Lemma get_has {V : Type} (key : string) (m : list (string * V)) :
  JsMap.get key m = None <-> JsMap.has key m = false.
Proof.
  induction m as [|[k v] rest IH]; simpl; [done|].
  destruct (String.eqb k key); simpl; [done|exact IH].
Qed.

Lemma update_keys {V : Type} (key : string) (change : V -> V) (m : list (string * V)) :
  (JsMap.update key change m).*1 = m.*1.
Proof.
  induction m as [|[k v] rest IH]; [done|]. simpl.
  destruct (String.eqb k key); simpl; [done|]. by f_equal.
Qed.

Lemma set_keys {V : Type} (key : string) (value : V) (m : list (string * V)) :
  JsMap.has key m = false -> (JsMap.set key value m).*1 = m.*1 ++ [key].
Proof.
  induction m as [|[k v] rest IH]; [done|]. simpl. intros Hhas.
  apply orb_false_iff in Hhas as [Hk Hhas]. rewrite Hk. simpl. f_equal. by apply IH.
Qed.

Lemma get_update {V : Type} (key key' : string) (change : V -> V) (m : list (string * V)) :
  JsMap.get key' (JsMap.update key change m)
  = if String.eqb key key' then change <$> JsMap.get key' m else JsMap.get key' m.
Proof.
  induction m as [|[k v] rest IH]; simpl; [by destruct (String.eqb key key')|].
  destruct (String.eqb k key) eqn:Hk; simpl.
  - apply String.eqb_eq in Hk as ->. by destruct (String.eqb key key').
  - destruct (String.eqb k key') eqn:Hk'; [|exact IH].
    apply String.eqb_eq in Hk' as ->.
    by rewrite (proj2 (String.eqb_neq key key'))
      by (intros ->; by rewrite String.eqb_refl in Hk).
Qed.

Lemma get_set {V : Type} (key key' : string) (value : V) (m : list (string * V)) :
  JsMap.has key m = false ->
  JsMap.get key' (JsMap.set key value m)
  = if String.eqb key key' then Some value else JsMap.get key' m.
Proof.
  induction m as [|[k v] rest IH]; simpl; [done|]. intros Hhas.
  apply orb_false_iff in Hhas as [Hk Hhas]. rewrite Hk. simpl.
  destruct (String.eqb k key') eqn:Hk'; [|by apply IH].
  apply String.eqb_eq in Hk' as ->.
  by rewrite (proj2 (String.eqb_neq key key'))
    by (intros ->; by rewrite String.eqb_refl in Hk).
Qed.

Lemma concat_update (key : string) (f : Finding.t) m :
  JsMap.has key m = true ->
  concat (JsMap.update key (fun group => group ++ [f]) m).*2 ≡ₚ concat m.*2 ++ [f].
Proof.
  induction m as [|[k v] rest IH]; [done|]. simpl.
  destruct (String.eqb k key); simpl.
  - intros _. solve_Permutation.
  - intros Hhas. rewrite <- app_assoc. f_equiv. by apply IH.
Qed.

Lemma concat_set (key : string) m :
  JsMap.has key m = false ->
  concat (JsMap.set key [] m).*2 = concat m.*2.
Proof.
  induction m as [|[k v] rest IH]; [done|]. simpl. intros Hhas.
  apply orb_false_iff in Hhas as [Hk Hhas]. rewrite Hk. simpl. f_equal. by apply IH.
Qed.

Lemma has_set {V : Type} (key : string) (value : V) (m : list (string * V)) :
  JsMap.has key (JsMap.set key value m) = true.
Proof.
  induction m as [|[k v] rest IH]; simpl; [by rewrite String.eqb_refl|].
  destruct (String.eqb k key) eqn:Hk; simpl; rewrite Hk; [done|exact IH].
Qed.

Lemma groupStep_keys m (f : Finding.t) :
  (groupStep m f).*1
  = if JsMap.has (groupKey f) m then m.*1 else m.*1 ++ [groupKey f].
Proof.
  unfold groupStep. cbv zeta. rewrite update_keys.
  destruct (JsMap.has (groupKey f) m) eqn:Hhas; [done|]. by apply set_keys.
Qed.

Lemma groupStep_get m (f : Finding.t) (key : string) :
  JsMap.get key (groupStep m f)
  = if String.eqb (groupKey f) key
    then Some (default [] (JsMap.get key m) ++ [f])
    else JsMap.get key m.
Proof.
  unfold groupStep. cbv zeta. rewrite get_update.
  destruct (JsMap.has (groupKey f) m) eqn:Hhas; simpl.
  - destruct (String.eqb_spec (groupKey f) key) as [<-|Hne]; [|done].
    destruct (JsMap.get (groupKey f) m) eqn:Hget; [done|].
    apply get_has in Hget. congruence.
  - rewrite (get_set _ _ _ _ Hhas).
    destruct (String.eqb_spec (groupKey f) key) as [<-|Hne]; [|done].
    by rewrite (proj2 (get_has _ _) Hhas).
Qed.

Lemma groupStep_concat m (f : Finding.t) :
  concat (groupStep m f).*2 ≡ₚ concat m.*2 ++ [f].
Proof.
  unfold groupStep. cbv zeta.
  destruct (JsMap.has (groupKey f) m) eqn:Hhas; simpl.
  - by apply concat_update.
  - rewrite concat_update by apply has_set. by rewrite concat_set.
Qed.

Lemma filter_snoc {A : Type} (p : A -> bool) (l : list A) (x : A) :
  List.filter p (l ++ [x]) = List.filter p l ++ (if p x then [x] else []).
Proof. rewrite List.filter_app. simpl. by destruct (p x). Qed.

(** The entries after the findings [l]: distinct keys, and under each key
    the findings with that key, in order. *)
Lemma groupByFile_inv l :
  NoDup (groupByFile l).*1
  ∧ (∀ key, JsMap.get key (groupByFile l)
            = match List.filter (fun f => String.eqb (groupKey f) key) l with
              | [] => None
              | group => Some group
              end)
  ∧ concat (groupByFile l).*2 ≡ₚ l.
Proof.
  unfold groupByFile. induction l as [|f l IH] using rev_ind.
  - simpl. split; [apply NoDup_nil_2|]. done.
  - rewrite fold_left_app. simpl.
    destruct IH as (Hnd & Hget & Hperm).
    set (m := fold_left groupStep l []) in *.
    split; [|split].
    + rewrite groupStep_keys. destruct (JsMap.has (groupKey f) m) eqn:Hhas; [done|].
      apply NoDup_app. split; [done|]. split; [|apply NoDup_singleton].
      intros k Hk Hk'. apply list_elem_of_singleton in Hk' as ->.
      apply has_keys in Hk. congruence.
    + intros key. rewrite groupStep_get, Hget, filter_snoc.
      destruct (String.eqb (groupKey f) key); simpl.
      * destruct (List.filter _ l); done.
      * by rewrite app_nil_r.
    + by rewrite groupStep_concat, Hperm.
Qed.

Lemma get_elem_of {V : Type} (key : string) (v : V) (m : list (string * V)) :
  NoDup m.*1 -> (JsMap.get key m = Some v <-> (key, v) ∈ m).
Proof.
  induction m as [|[k w] rest IH]; simpl.
  - intros _. split; [done|]. intros Hin. by apply elem_of_nil in Hin.
  - intros Hnd. apply NoDup_cons in Hnd as [Hnot Hnd].
    destruct (String.eqb k key) eqn:Hk.
    + apply String.eqb_eq in Hk as ->. rewrite elem_of_cons. split.
      * intros [= ->]. by left.
      * intros [[= <-]|Hin]; [done|].
        destruct Hnot. apply list_elem_of_fmap. by exists (key, v).
    + rewrite (IH Hnd), elem_of_cons. split; [by right|].
      intros [[= <- <-]|Hin]; [by rewrite String.eqb_refl in Hk|done].
Qed.

(** X27. Grouping by file loses nothing and mixes nothing: the keys are
    pairwise distinct; a key has an entry exactly when some finding has it,
    and the entry holds the findings with that key, all of them, in their
    order; the entries together are the findings. With a positive limit,
    what is shown of an entry is its first findings, at most that many;
    without one, the whole entry. *)
Theorem grouping_by_file_is_a_partition (findings : list Finding.t) :
  let groups := groupByFile findings in
  NoDup groups.*1
  ∧ (∀ key group,
       (key, group) ∈ groups
       <-> group ≠ []
           ∧ group = List.filter (fun f => String.eqb (groupKey f) key) findings)
  ∧ concat groups.*2 ≡ₚ findings
  ∧ (∀ group maxPerFile,
       applyLimit group maxPerFile `prefix_of` group
       ∧ ((0 < maxPerFile)%Z ->
          length (applyLimit group maxPerFile)
          = Nat.min (Z.to_nat maxPerFile) (length group))
       ∧ ((maxPerFile <= 0)%Z -> applyLimit group maxPerFile = group)).
Proof.
  intros groups. destruct (groupByFile_inv findings) as (Hnd & Hget & Hperm).
  fold groups in Hnd, Hget, Hperm.
  split; [done|]. split; [|split; [done|]].
  - intros key group. rewrite <- (get_elem_of key group groups Hnd), Hget.
    destruct (List.filter _ findings) as [|f fs]; split; try done.
    + by intros [? ->].
    + by intros [= <-].
    + by intros [_ ->].
  - intros group maxPerFile. unfold applyLimit.
    destruct (Z.eqb_spec maxPerFile 0) as [->|Hne]; simpl.
    { split; [done|]. split; [lia|done]. }
    destruct (Z.leb_spec maxPerFile 0) as [Hle|Hlt].
    { split; [done|]. split; [lia|done]. }
    split; [apply prefix_take|]. split; [|lia].
    intros _. by rewrite length_take.
Qed.

End Grouping.

(** ** Paths in the publisher *)

Lemma trimEnd_cons (c : ascii) (s : string) :
  Js.isWhiteSpace c = false -> Js.trimEnd (String c s) = String c (Js.trimEnd s).
Proof. intros Hc. simpl. rewrite Hc. by destruct (Js.trimEnd s). Qed.

Lemma trimEnd_idem (s : string) : Js.trimEnd (Js.trimEnd s) = Js.trimEnd s.
Proof.
  induction s as [|c s IH]; [done|]. simpl.
  destruct (Js.trimEnd s) as [|d r] eqn:Hr.
  - destruct (Js.isWhiteSpace c) eqn:Hc; [done|]. simpl. by rewrite Hc.
  - change (Js.trimEnd (String c (String d r)) = String c (String d r)).
    simpl. simpl in IH. by rewrite IH.
Qed.

(** A trimmed text is empty or starts with a character that is no white
    space. *)
Lemma trim_head (s : string) :
  Js.trim s = EmptyString
  ∨ ∃ c r, Js.trim s = String c r ∧ Js.isWhiteSpace c = false.
Proof.
  unfold Js.trim. induction s as [|c s IH]; [by left|]. simpl.
  destruct (Js.isWhiteSpace c) eqn:Hc; [exact IH|].
  right. rewrite (trimEnd_cons _ _ Hc). by eexists _, _.
Qed.

Lemma trim_idem (s : string) : Js.trim (Js.trim s) = Js.trim s.
Proof.
  destruct (trim_head s) as [->|(c & r & Heq & Hc)]; [done|].
  unfold Js.trim at 1. rewrite Heq. simpl Js.trimStart. rewrite Hc.
  rewrite <- Heq. unfold Js.trim. apply trimEnd_idem.
Qed.

Lemma trim_slash (s : string) :
  Js.startsWith s "/" = true ->
  Js.startsWith (Js.trim s) "/" = true ∧ Js.trim s ≠ EmptyString.
Proof.
  intros Hp. apply prefix_spec in Hp as (post & ->).
  rewrite append_cons, append_nil. unfold Js.trim.
  change (Js.trimStart (String "/" post)) with (String "/"%char post).
  rewrite trimEnd_cons by reflexivity. split; [|done].
  apply prefix_spec. exists (Js.trimEnd post). by rewrite append_cons, append_nil.
Qed.

Lemma length_positive (s : string) : (0 <? String.length s)%nat = true <-> s ≠ EmptyString.
Proof. by destruct s. Qed.

Lemma normalizeAdoPath_cases (path : option string) :
  let raw := Js.trim (default EmptyString path) in
  (raw = EmptyString ∧ normalizeAdoPath path = EmptyString)
  ∨ (raw ≠ EmptyString ∧ normalizeAdoPath path = normalizePath raw).
Proof.
  intros raw. unfold normalizeAdoPath. fold raw.
  destruct raw as [|c r]; [by left|]. right. split; [done|].
  change (0 <? String.length (String c r))%nat with true. reflexivity.
Qed.

Lemma trim_normalizePath (raw : string) :
  Js.trim raw = raw -> raw ≠ EmptyString -> Js.trim (normalizePath raw) = normalizePath raw.
Proof.
  intros Hraw Hne. unfold normalizePath. destruct (Js.startsWith raw "/"); [done|].
  rewrite append_cons, append_nil. unfold Js.trim.
  change (Js.trimStart (String "/" raw)) with (String "/"%char raw).
  rewrite trimEnd_cons by reflexivity. f_equal.
  destruct (trim_head raw) as [Hnil|(c & r & Heq & Hc)]; [congruence|].
  rewrite Hraw in Heq. subst raw. unfold Js.trim in Hraw. simpl Js.trimStart in Hraw.
  by rewrite Hc in Hraw.
Qed.

Lemma normalizeAdoPath_slash (p : string) :
  Js.startsWith p "/" = true -> normalizeAdoPath (Some p) = Js.trim p.
Proof.
  intros Hp. destruct (trim_slash p Hp) as [Hslash Hne].
  destruct (normalizeAdoPath_cases (Some p)) as [[Hnil _]|[_ ->]]; [done|].
  simpl. unfold normalizePath. by rewrite Hslash.
Qed.

(** X28. The path the publisher attaches a thread to: it is empty, for a
    path that is missing or blank, or starts with the separator; applying
    the normalization again changes nothing; and for a path that is not
    blank it is the normalization of the engine, on the trimmed path. *)
Theorem publisher_path_normalization (path : option string) :
  let p := normalizeAdoPath path in
  (p = EmptyString <-> Js.trim (default EmptyString path) = EmptyString)
  ∧ (p = EmptyString ∨ Js.startsWith p "/" = true)
  ∧ normalizeAdoPath (Some p) = p
  ∧ (Js.trim (default EmptyString path) ≠ EmptyString ->
     p = normalizePath (Js.trim (default EmptyString path))).
Proof.
  intros p. subst p.
  destruct (normalizeAdoPath_cases path) as [[Hnil ->]|[Hne ->]].
  { split; [done|]. split; [by left|]. split; [done|]. by intros []. }
  set (raw := Js.trim (default EmptyString path)) in *.
  assert (normalizePath raw ≠ EmptyString) as Hne'.
  { pose proof (normalizePath_slash raw) as Hslash. by destruct (normalizePath raw). }
  split; [done|]. split; [right; apply normalizePath_slash|]. split; [|done].
  rewrite (normalizeAdoPath_slash _ (normalizePath_slash raw)).
  apply trim_normalizePath; [apply trim_idem|done].
Qed.

Section FileThreads.

Context {hash : Sha256Hex} {parser : ParseGitDiff}.

(** X29. The findings of a report, grouped by the publisher: every key is
    the trimmed normalized path of one of the files under review, never the
    bucket of the findings without a file; so there are at most as many
    entries, and in file mode as many threads after the header, as files. *)
Theorem one_entry_per_reviewed_file (input : ReviewInput.t) (llmClient : LlmClient.t)
    (report : ReviewReport.t) :
  reviewCode input llmClient = Some report ->
  let groups := groupByFile (ReviewReport.findings report) in
  (∀ key group, (key, group) ∈ groups ->
     Js.startsWith key "/" = true
     ∧ ∃ file, file ∈ ReviewInput.files input
               ∧ key = Js.trim (normalizePath (FileDiff.path file)))
  ∧ (length groups <= length (ReviewInput.files input))%nat.
Proof.
  intros Hcode groups.
  destruct (groupByFile_inv (ReviewReport.findings report)) as (Hnd & Hget & _).
  fold groups in Hnd, Hget.
  assert (∀ key group, (key, group) ∈ groups ->
            Js.startsWith key "/" = true
            ∧ ∃ file, file ∈ ReviewInput.files input
                      ∧ key = Js.trim (normalizePath (FileDiff.path file))) as Hkeys.
  { intros key group Hin. apply (get_elem_of key group groups Hnd) in Hin.
    rewrite Hget in Hin.
    destruct (List.filter _ _) as [|f fs] eqn:Hfilter; [done|].
    assert (f ∈ List.filter (fun f => String.eqb (groupKey f) key)
                  (ReviewReport.findings report)) as Hf
      by (rewrite Hfilter; apply list_elem_of_here).
    apply list_elem_of_In, filter_In in Hf as [Hf Hkey].
    apply list_elem_of_In in Hf. apply String.eqb_eq in Hkey.
    destruct (report_finding_origin _ _ _ f Hcode) as (g & (file & t & Hfile & Hg) & Heq).
    { apply elem_of_app. by left. }
    apply threadToFindings_fresh in Hg as [_ Hgpath].
    assert (Finding.filePath f = normalizePath (FileDiff.path file)) as Hpath
      by (rewrite Heq; simpl; exact Hgpath).
    unfold groupKey in Hkey. rewrite Hpath in Hkey.
    rewrite (normalizeAdoPath_slash _ (normalizePath_slash _)) in Hkey.
    destruct (trim_slash _ (normalizePath_slash (FileDiff.path file))) as [Hslash Hne].
    destruct (Js.trim (normalizePath (FileDiff.path file))) as [|c r] eqn:Htrim; [done|].
    simpl in Hkey. subst key. split; [done|]. exists file. by rewrite Htrim. }
  split; [exact Hkeys|].
  rewrite <- (length_fmap fst groups),
          <- (length_fmap (fun file => Js.trim (normalizePath (FileDiff.path file)))
                (ReviewInput.files input)).
  apply submseteq_length, NoDup_submseteq; [done|].
  intros key Hkey. apply list_elem_of_fmap in Hkey as ([k group] & -> & Hin).
  destruct (Hkeys k group Hin) as (_ & file & Hfile & ->).
  apply list_elem_of_fmap. by exists file.
Qed.

End FileThreads.

(** ** The diffs of the command line *)

Lemma arrayIncludes_spec (a : list string) (x : string) :
  arrayIncludes a x = true <-> x ∈ a.
Proof.
  unfold arrayIncludes. rewrite existsb_exists. split.
  - intros (y & Hy & Heq). apply String.eqb_eq in Heq as ->. by apply list_elem_of_In.
  - intros Hin. exists x. split; [by apply list_elem_of_In|apply String.eqb_refl].
Qed.

Section ClampedDiffs.

Context {libraries : FilterLibraries}.

(** X30. The diffs the command line hands to the engine are diffs it
    collected, in order, those of files without a binary extension, all of
    them; a diff of at most the limit is handed over as it is, a longer one
    cut to its first characters, as many as the limit, followed by the note;
    so no diff handed over is longer than the limit and the note together. *)
Theorem diffs_are_filtered_and_clamped (allDiffs : list FileDiff.t) (maxDiffChars : nat) :
  let clamped := filterAndClampDiffs allDiffs maxDiffChars in
  let binary path :=
    arrayIncludes binaryExtensions (dropLeadingDot (getFileExtension path)) in
  let clamp d :=
    if (String.length (FileDiff.diff d) <=? maxDiffChars)%nat then d
    else FileDiff.mk (FileDiff.path d)
           (Js.slice (FileDiff.diff d) 0 maxDiffChars +:+ truncationNote maxDiffChars) in
  clamped
  = map clamp (List.filter (fun d => negb (binary (FileDiff.path d))) allDiffs)
  ∧ map FileDiff.path clamped `sublist_of` map FileDiff.path allDiffs
  ∧ (∀ d, d ∈ clamped ->
       binary (FileDiff.path d) = false
       ∧ (String.length (FileDiff.diff d)
          <= maxDiffChars + String.length (truncationNote maxDiffChars))%nat).
Proof.
  intros clamped binary clamp.
  assert (clamped
          = map clamp (List.filter (fun d => negb (binary (FileDiff.path d))) allDiffs))
    as Heq.
  { subst clamped. unfold filterAndClampDiffs. cbv zeta. fold clamp. f_equal.
    rewrite filterFilesForReview_spec. simpl.
    apply filter_ext_in. intros d Hd.
    apply eq_true_iff_eq. rewrite arrayIncludes_spec, list_elem_of_In, filter_In.
    unfold keptByFilter. simpl. rewrite !andb_true_r. fold (binary (FileDiff.path d)).
    split; [by intros [_ ?]|]. intros Hnb. split; [|done]. by apply in_map. }
  split; [exact Heq|]. rewrite Heq. split.
  - rewrite map_map.
    replace (map (fun d => FileDiff.path (clamp d))
                 (List.filter (fun d => negb (binary (FileDiff.path d))) allDiffs))
      with (map FileDiff.path
                (List.filter (fun d => negb (binary (FileDiff.path d))) allDiffs)).
    + apply fmap_sublist, filter_sublist_bool.
    + apply map_ext. intros d. unfold clamp. by destruct (_ <=? _)%nat.
  - intros d Hd. apply list_elem_of_fmap in Hd as (d0 & -> & Hd0).
    apply list_elem_of_In, filter_In in Hd0 as [_ Hnb]. apply negb_true_iff in Hnb.
    unfold clamp. destruct (Nat.leb_spec (String.length (FileDiff.diff d0)) maxDiffChars).
    + split; [done|]. lia.
    + cbn [FileDiff.diff FileDiff.path]. split; [done|]. rewrite append_length.
      pose proof (proj2 (slice_prefix (FileDiff.diff d0) maxDiffChars)). lia.
Qed.

End ClampedDiffs.

(** ** Evaluations

    The statements above, on the sample data. *)

(** C1 without its restriction to file lists that are not empty: on the
    empty file list the report is returned with both lists empty, and its
    summary is not the sentence. *)
Lemma empty_file_list_summary :
  reviewCode (hash := identityDigest) (parser := emptyParse)
    (ReviewInput.mk [] samplePolicy None) (stubClient sampleRespond)
  = Some (ReviewReport.mk "No files to review." [] [])
  ∧ "No files to review." ≠ "Findings: 0 (0 filtered out, total generated 0).".
Proof. split; [reflexivity|discriminate]. Qed.

Lemma report_partition_and_summary_witness :
  reviewRun (hash := identityDigest) (parser := emptyParse)
    (sampleInput None) (stubClient sampleRespond)
  = Some (sampleReport, sampleGenerated)
  ∧ map (fun f => Finding.withId f EmptyString) (ReviewReport.findings sampleReport)
    ++ ReviewReport.filteredOut sampleReport
    ≡ₚ map Finding.withoutSourceThread sampleGenerated
  ∧ ReviewReport.summaryMarkdown sampleReport
    = "Findings: 1 (1 filtered out, total generated 2).".
Proof.
  assert (reviewRun (hash := identityDigest) (parser := emptyParse)
            (sampleInput None) (stubClient sampleRespond)
          = Some (sampleReport, sampleGenerated)) as Hrun by (vm_compute; reflexivity).
  split; [exact Hrun|].
  destruct (report_partition_and_summary (hash := identityDigest) (parser := emptyParse)
              _ _ _ _ Hrun) as (_ & Hperm & _ & Hsummary & _).
  split; [exact Hperm|]. reflexivity.
Defined.

Lemma final_dedup_first_occurrence_wins_witness :
  let f := Finding.mk EmptyString "/src/file.ts" None None medium None "Code review"
             " Old issue " None None None None in
  Finding.id f = EmptyString
  ∧ signatureOf (hash := identityDigest) f = "/src/file.ts|Old issue"
  ∧ (dedupeAgainstPrevious (hash := identityDigest) ([] ++ f :: [f]) None ∅).1
    = ([Finding.withId f "/src/file.ts|Old issue"], [f]).
Proof.
  intros f. split; [reflexivity|].
  destruct (final_dedup_first_occurrence_wins (hash := identityDigest) None ∅ [] [f] f
              eq_refl) as (Hsig & _ & _ & _ & _ & Hkept).
  split; [exact Hsig|].
  rewrite Hkept; [reflexivity|].
  unfold dedupeAgainstPrevious, previousSignaturesOf. simpl. set_solver.
Defined.



Lemma previous_path_without_slash_escapes_dedup_witness :
  sha256Hex (Sha256Hex := identityDigest) "src/file.ts|Old issue"
  ≠ sha256Hex (Sha256Hex := identityDigest) "/src/file.ts|Old issue"
  ∧ (∃ report,
       reviewCode (hash := identityDigest) (parser := emptyParse)
         (sampleInput (Some [previousAt "src/file.ts" "Old issue"]))
         (stubClient sampleRespond)
       = Some report
       ∧ map Finding.content (ReviewReport.findings report) = ["Old issue"]
       ∧ map Finding.filePath (ReviewReport.findings report) = ["/src/file.ts"]).
Proof.
  assert (sha256Hex (Sha256Hex := identityDigest) "src/file.ts|Old issue"
          ≠ sha256Hex (Sha256Hex := identityDigest) "/src/file.ts|Old issue") as Hne
    by discriminate.
  split; [exact Hne|].
  exact (proj1 (proj2 (previous_path_without_slash_escapes_dedup
                         (hash := identityDigest) (parser := emptyParse) Hne))).
Defined.



Lemma later_files_are_not_searched_witness :
  let searched := AnyFileChange.mk [Chunk [UnchangedLine 7 7 "  return y;"]] in
  let later := [AnyFileChange.mk [Chunk [AddedLine 2543 "  const x = 1;"]]] in
  parseGitDiff (ParseGitDiff := twoFilesParse) "diff --git a/a.ts b/a.ts"
  = GitDiff.mk (searched :: later)
  ∧ fixThreadPositions (parser := twoFilesParse) [exampleThread] "diff --git a/a.ts b/a.ts"
    = Some [exampleThread].
Proof.
  intros searched later.
  destruct (later_files_are_not_searched (parser := twoFilesParse)
              "diff --git a/a.ts b/a.ts" searched later [exampleThread] eq_refl)
    as (_ & _ & _ & Hsame).
  split; [reflexivity|]. apply Hsame.
  intros thread ctx Hin Hctx. apply list_elem_of_singleton in Hin. subst thread.
  injection Hctx as <-. split; unfold noMatchOn; simpl; [|exact I].
  intros change Hchange _. apply list_elem_of_singleton in Hchange. by subst change.
Defined.

(** C5 with the raw output in all three cases: on a model output that parses
    and has no threads, the one comment of the diagnostic thread has the
    fixed reason for content, and the raw output is no part of it. *)
Lemma invalid_shape_carries_no_raw_output :
  let choice := "{}" in
  tryExtractJsonObject choice = Some "{}"
  ∧ JSON_parse (JsRuntime := sampleRuntime) "{}" = Some (Json.Obj [])
  ∧ isValidResponse (Json.Obj []) = false
  ∧ ∃ thread comment content,
      threadsOfChoice (runtime := sampleRuntime) "/src/file.ts" choice = [thread]
      ∧ Json.get thread "comments" = Some (Json.Arr [comment])
      ∧ Json.get comment "content" = Some (Json.Str content)
      ∧ content = "LLM_OUTPUT_INVALID_SHAPE: missing threads[]"
      ∧ Js.includes content (Js.slice choice 0 800) = false.
Proof. repeat split; try reflexivity. by eexists _, _, _. Qed.

(** C8 with its second example read to the letter: the score 1.4 does not
    normalize to the number written 0.14. *)
Lemma raw_score_1_4_is_not_0_14 :
  normalizeConfidence (Some 1.4%float) ≠ Some 0.14%float.
Proof.
  intros H.
  apply (f_equal (fun r => match r with
                           | Some x => PrimFloat.eqb x 0.14
                           | None => false
                           end)) in H.
  vm_compute in H. discriminate H.
Qed.

(** A match on a side whose end position is missing: the write to the end
    position throws. *)
Lemma match_without_end_throws :
  fixThreadContextLineNumberAndOffsets
    (ThreadContext.mk "/src/file.ts" None None
       (Some (Position.mk 2540 1 (Some "const x = 1;"))) None)
    exampleDiff true
  = None.
Proof. reflexivity. Qed.

(** The unit tests of [dedupeUtils], [reviewEngine] and [commentLocator]. *)

Example filters_comments_below_threshold :
  map ReviewComment.content (filterCommentsByConfidence baseComments 0.6).1 = ["B"; "C"]
  ∧ map ReviewComment.content (filterCommentsByConfidence baseComments 0.6).2 = ["A"; "D"].
Proof. split; reflexivity. Qed.

Example computes_exclusion_content :
  let fileComments := [ReviewComment.mk "A" 0 (Some 0.9%float) None None None;
                       ReviewComment.mk "B" 0 (Some 0.5%float) None None None] in
  let runComments := [ReviewComment.mk "C" 0 (Some 0.7%float) None None None;
                      ReviewComment.mk "D" 0 (Some 0.3%float) None None None] in
  let passingRunComments := [ReviewComment.mk "C" 0 (Some 0.7%float) None None None;
                             ReviewComment.mk "D" 0 (Some 0.8%float) None None None] in
  getCommentContentForExclusion fileComments runComments basePolicy false
  = (["A"; "B"], false)
  ∧ getCommentContentForExclusion fileComments passingRunComments basePolicy false
    = (["A"; "B"; "C"; "D"], true).
Proof. split; reflexivity. Qed.

Example filters_low_confidence_and_dedupes :
  ∃ report,
    reviewCode (hash := identityDigest) (parser := emptyParse)
      (sampleInput (Some [previousAt "/src/file.ts" "Old issue"])) (stubClient sampleRespond)
    = Some report
    ∧ length (ReviewReport.findings report) = 0%nat
    ∧ (1 <= length (ReviewReport.filteredOut report))%nat.
Proof. eexists. split; [vm_compute; reflexivity|]. split; [reflexivity|simpl; lia]. Qed.

Example returns_findings_when_confidence_passes :
  ∃ report,
    reviewCode (hash := identityDigest) (parser := emptyParse) (sampleInput None)
      (stubClient (fun _ _ =>
         [ReviewThread.mk
            [ReviewComment.mk "Important bug" 2 (Some 0.95%float) None None (Some "bug")] 1
            (Some (ThreadContext.mk "/src/file.ts" None None
                     (Some (Position.mk 10 1 None)) (Some (Position.mk 12 5 None))))]))
    = Some report
    ∧ map Finding.severity (ReviewReport.findings report) = [high].
Proof. eexists. split; [vm_compute; reflexivity|reflexivity]. Qed.

Example no_threads_no_failure :
  fixThreadPositions (parser := emptyParse) [] EmptyString = Some [].
Proof. reflexivity. Qed.

(** The three malformed outputs, one for each case of the gateway. *)
Example malformed_outputs :
  (∃ thread, threadsOfChoice (runtime := sampleRuntime) "/src/file.ts" "no object here"
             = [thread])
  ∧ (∃ thread, threadsOfChoice (runtime := sampleRuntime) "/src/file.ts" "{ not json }"
               = [thread])
  ∧ (∃ thread, threadsOfChoice (runtime := sampleRuntime) "/src/file.ts" "{}" = [thread]).
Proof. repeat split; by eexists. Qed.

(** ** Evaluations, continued *)


Lemma report_ids_are_distinct_signatures_witness :
  reviewCode (hash := identityDigest) (parser := emptyParse)
    (sampleInput None) (stubClient sampleRespond)
  = Some sampleReport
  ∧ NoDup (map Finding.id (ReviewReport.findings sampleReport)).
Proof.
  assert (reviewCode (hash := identityDigest) (parser := emptyParse)
            (sampleInput None) (stubClient sampleRespond)
          = Some sampleReport) as Hcode by (vm_compute; reflexivity).
  split; [exact Hcode|].
  exact (proj1 (report_ids_are_distinct_signatures (hash := identityDigest)
                  (parser := emptyParse) _ _ _ Hcode)).
Defined.

Lemma kept_findings_keep_generation_order_witness :
  reviewRun (hash := identityDigest) (parser := emptyParse)
    (sampleInput None) (stubClient sampleRespond)
  = Some (sampleReport, sampleGenerated)
  ∧ map (fun f => Finding.withId f EmptyString) (ReviewReport.findings sampleReport)
    `sublist_of` map Finding.withoutSourceThread sampleGenerated.
Proof.
  assert (reviewRun (hash := identityDigest) (parser := emptyParse)
            (sampleInput None) (stubClient sampleRespond)
          = Some (sampleReport, sampleGenerated)) as Hrun by (vm_compute; reflexivity).
  split; [exact Hrun|].
  exact (kept_findings_keep_generation_order (hash := identityDigest)
           (parser := emptyParse) _ _ _ _ Hrun).
Defined.

Lemma run_comments_are_all_generated_findings_witness :
  ∃ st,
    reviewFiles (hash := identityDigest) (parser := emptyParse)
      (sampleInput None) (stubClient sampleRespond) [sampleFile]
      (initialState (stubClient sampleRespond))
    = Some st
    ∧ map commentOfFinding (generated st) = map commentCore (runComments st).
Proof.
  assert (∃ st,
            reviewFiles (hash := identityDigest) (parser := emptyParse)
              (sampleInput None) (stubClient sampleRespond) [sampleFile]
              (initialState (stubClient sampleRespond))
            = Some st) as [st Hrun] by (eexists; vm_compute; reflexivity).
  exists st. split; [exact Hrun|].
  exact (proj1 (run_comments_are_all_generated_findings (hash := identityDigest)
                  (parser := emptyParse) _ _ _ _ Hrun)).
Defined.

Lemma latch_is_monotone_over_a_run_witness :
  ∃ st,
    reviewFiles (hash := identityDigest) (parser := emptyParse)
      (sampleInput None) (stubClient sampleRespond) [sampleFile]
      (initialState (stubClient sampleRespond))
    = Some st
    ∧ dedupeCriteriaMet st = false.
Proof.
  assert (∃ st,
            reviewFiles (hash := identityDigest) (parser := emptyParse)
              (sampleInput None) (stubClient sampleRespond) [sampleFile]
              (initialState (stubClient sampleRespond))
            = Some st) as [st Hrun] by (eexists; vm_compute; reflexivity).
  exists st. split; [exact Hrun|].
  exact (proj2 (latch_is_monotone_over_a_run (hash := identityDigest)
                  (parser := emptyParse) _ _ _ _ _ Hrun) eq_refl).
Defined.

Lemma every_finding_is_accounted_for_witness :
  reviewRun (hash := identityDigest) (parser := emptyParse)
    (sampleInput None) (stubClient sampleRespond)
  = Some (sampleReport, sampleGenerated)
  ∧ ∀ f, f ∈ ReviewReport.filteredOut sampleReport ->
         Finding.id f = EmptyString
         ∧ (passesConfidence samplePolicy f = false
            ∨ (∃ kept, kept ∈ ReviewReport.findings sampleReport
                       ∧ Finding.id kept = signatureOf (hash := identityDigest) f)
            ∨ signatureOf (hash := identityDigest) f
              ∈ previousSignaturesOf (hash := identityDigest) None).
Proof.
  assert (reviewRun (hash := identityDigest) (parser := emptyParse)
            (sampleInput None) (stubClient sampleRespond)
          = Some (sampleReport, sampleGenerated)) as Hrun by (vm_compute; reflexivity).
  split; [exact Hrun|].
  exact (proj2 (every_finding_is_accounted_for (hash := identityDigest)
                  (parser := emptyParse) _ _ _ _ Hrun)).
Defined.


Lemma repositioning_writes_positions_only_and_once_witness :
  ∃ threads',
    fixThreadPositions (parser := exampleParse) [exampleThread] "diff --git a/a.ts b/a.ts"
    = Some threads'
    ∧ threads' ≠ [exampleThread]
    ∧ map threadShape threads' = map threadShape [exampleThread]
    ∧ fixThreadPositions (parser := exampleParse) threads' "diff --git a/a.ts b/a.ts"
      = Some threads'.
Proof.
  assert (∃ threads',
            fixThreadPositions (parser := exampleParse) [exampleThread]
              "diff --git a/a.ts b/a.ts"
            = Some threads'
            ∧ threads' ≠ [exampleThread]) as (threads' & Hfix & Hmoved).
  { eexists. split; [vm_compute; reflexivity|]. discriminate. }
  destruct (repositioning_writes_positions_only_and_once (parser := exampleParse)
              _ _ _ Hfix) as (Hshape & _ & _ & Hagain).
  exists threads'. split; [exact Hfix|]. split; [exact Hmoved|].
  split; [exact Hshape|exact Hagain].
Defined.

Lemma normalizeComment_writes_the_score_only_witness :
  let fields := [("content", Json.Str "Old issue"); ("confidenceScore", Json.Num 8)] in
  NoDup fields.*1
  ∧ ∃ fields',
      normalizeComment (runtime := sampleRuntime) (Json.Obj fields) = Some (Json.Obj fields')
      ∧ Json.lookup "confidenceScore" fields' = Some (Json.Num 0.8)
      ∧ Json.lookup "content" fields' = Some (Json.Str "Old issue").
Proof.
  intros fields.
  assert (NoDup fields.*1) as Hnd.
  { apply NoDup_cons. split; [|apply NoDup_singleton].
    intros Hin. apply list_elem_of_singleton in Hin. discriminate Hin. }
  split; [exact Hnd|].
  destruct (normalizeComment_writes_the_score_only (runtime := sampleRuntime) fields Hnd)
    as (fields' & Hnorm & Hscore & Hother & _).
  exists fields'. split; [exact Hnorm|]. split; [exact Hscore|].
  exact (Hother "content" ltac:(discriminate)).
Defined.

Lemma gateway_returns_valid_threads_witness :
  LlmReviewRequest.filePath sampleRequest ≠ EmptyString
  ∧ ∃ threads,
      gatewayReviewCode (runtime := sampleRuntime) (endpoint := sampleEndpoint)
        sampleConfig sampleRequest
      = Some threads
      ∧ length threads = 1%nat
      ∧ Forall (fun thread => isValidReviewThread thread = true) threads.
Proof.
  assert (LlmReviewRequest.filePath sampleRequest ≠ EmptyString) as Hpath by discriminate.
  assert (∃ threads,
            gatewayReviewCode (runtime := sampleRuntime) (endpoint := sampleEndpoint)
              sampleConfig sampleRequest
            = Some threads ∧ length threads = 1%nat) as (threads & Hcall & Hlen)
    by (eexists; split; [vm_compute; reflexivity|reflexivity]).
  split; [exact Hpath|]. exists threads. split; [exact Hcall|]. split; [exact Hlen|].
  exact (gateway_returns_valid_threads (runtime := sampleRuntime)
           (endpoint := sampleEndpoint) _ _ _ Hpath Hcall).
Defined.

Lemma dedup_ignores_surrounding_white_space_witness :
  let f := Finding.mk EmptyString "/src/file.ts" None None medium None "Code review"
             "Old issue" None None None None in
  let g := Finding.mk EmptyString "/src/file.ts" None None medium None "Code review"
             "  Old issue " None None None None in
  Finding.content g = "  " +:+ Finding.content f +:+ " "
  ∧ signatureOf (hash := identityDigest) g = signatureOf (hash := identityDigest) f
  ∧ (dedupeAgainstPrevious (hash := identityDigest) [f; g] None ∅).1
    = ([Finding.withId f "/src/file.ts|Old issue"], [g]).
Proof.
  intros f g.
  assert (Finding.content g = "  " +:+ Finding.content f +:+ " ") as Hcontent
    by reflexivity.
  destruct (dedup_ignores_surrounding_white_space (hash := identityDigest) None ∅ f g
              "  " " " eq_refl eq_refl eq_refl eq_refl eq_refl Hcontent) as [Hsig Hrun].
  split; [exact Hcontent|]. split; [exact Hsig|].
  rewrite Hrun. reflexivity.
Defined.

Lemma requests_follow_the_files_witness :
  ∃ st sent,
    reviewFiles (hash := identityDigest) (parser := emptyParse)
      (sampleInput None) (recordingClient (fun _ => [])) [sampleFile]
      (initialState (recordingClient (fun _ => [])))
    = Some st
    ∧ llmState st = [] ++ sent
    ∧ map (fun r => (LlmReviewRequest.filePath r, LlmReviewRequest.diff r)) sent
      = [("/src/file.ts", "diff --git a/src/file.ts b/src/file.ts")].
Proof.
  assert (∃ st,
            reviewFiles (hash := identityDigest) (parser := emptyParse)
              (sampleInput None) (recordingClient (fun _ => [])) [sampleFile]
              (initialState (recordingClient (fun _ => [])))
            = Some st) as [st Hrun] by (eexists; vm_compute; reflexivity).
  destruct (requests_follow_the_files (hash := identityDigest) (parser := emptyParse)
              _ _ _ _ _ Hrun) as (sent & Hlog & Hpaths & _).
  exists st, sent. split; [exact Hrun|]. split; [exact Hlog|]. exact Hpaths.
Defined.

Lemma normalized_previous_comments_are_recognised_witness :
  let input := sampleInput (Some [previousAt "/src/file.ts" "Low confidence"]) in
  (∀ c, c ∈ default [] (ReviewInput.previousComments input) ->
        Js.startsWith (default EmptyString (PreviousComment.filePath c)) "/" = true)
  ∧ ∃ report,
      reviewCode (hash := identityDigest) (parser := emptyParse) input
        (stubClient sampleRespond)
      = Some report
      ∧ ∀ f c, f ∈ ReviewReport.findings report ->
               c ∈ default [] (ReviewInput.previousComments input) ->
               normalizePath (default EmptyString (PreviousComment.filePath c))
               = Finding.filePath f ->
               Js.trim (PreviousComment.content c) ≠ Js.trim (Finding.content f).
Proof.
  intros input.
  assert (∀ c, c ∈ default [] (ReviewInput.previousComments input) ->
               Js.startsWith (default EmptyString (PreviousComment.filePath c)) "/" = true)
    as Hslash.
  { intros c Hc. simpl in Hc. apply list_elem_of_singleton in Hc. by subst c. }
  assert (∃ report,
            reviewCode (hash := identityDigest) (parser := emptyParse) input
              (stubClient sampleRespond)
            = Some report) as [report Hcode] by (eexists; vm_compute; reflexivity).
  split; [exact Hslash|]. exists report. split; [exact Hcode|].
  exact (normalized_previous_comments_are_recognised (hash := identityDigest)
           (parser := emptyParse) input (stubClient sampleRespond) report Hslash Hcode).
Defined.

Lemma fetched_comments_are_never_repeated_witness :
  let threads := [AdoThread.mk (Some "/src/file.ts") [("7", "Low confidence")]] in
  let previous := getCommentsForFiles threads (map FileDiff.path [sampleFile]) in
  previous = [PreviousComment.mk (Some "7") (Some "/src/file.ts") "Low confidence" None]
  ∧ ∃ report,
      reviewCode (hash := identityDigest) (parser := emptyParse)
        (ReviewInput.mk [sampleFile] samplePolicy (Some previous)) (stubClient sampleRespond)
      = Some report
      ∧ ∀ f thread comment,
          f ∈ ReviewReport.findings report ->
          thread ∈ threads ->
          AdoThread.filePath thread = Some (Finding.filePath f) ->
          comment ∈ AdoThread.comments thread ->
          Js.trim comment.2 ≠ Js.trim (Finding.content f).
Proof.
  intros threads previous.
  assert (∃ report,
            reviewCode (hash := identityDigest) (parser := emptyParse)
              (ReviewInput.mk [sampleFile] samplePolicy (Some previous))
              (stubClient sampleRespond)
            = Some report) as [report Hcode] by (eexists; vm_compute; reflexivity).
  split; [reflexivity|]. exists report. split; [exact Hcode|].
  exact (fetched_comments_are_never_repeated (hash := identityDigest)
           (parser := emptyParse) threads [sampleFile] samplePolicy
           (stubClient sampleRespond) report Hcode).
Defined.

Lemma low_and_medium_block_on_any_finding_witness :
  reviewCode (hash := identityDigest) (parser := emptyParse)
    (sampleInput None) (stubClient sampleRespond)
  = Some sampleReport
  ∧ hasBlocking sampleReport "low" = hasBlocking sampleReport "medium"
  ∧ hasBlocking sampleReport "medium" = true
  ∧ hasBlocking sampleReport "high" = false.
Proof.
  assert (reviewCode (hash := identityDigest) (parser := emptyParse)
            (sampleInput None) (stubClient sampleRespond)
          = Some sampleReport) as Hcode by (vm_compute; reflexivity).
  split; [exact Hcode|].
  split; [|split; reflexivity].
  exact (proj1 (low_and_medium_block_on_any_finding (hash := identityDigest)
                  (parser := emptyParse) _ _ _ Hcode)).
Defined.

Lemma latched_request_lists_every_generated_finding_witness :
  let input := ReviewInput.mk [sampleFile; secondFile] latchPolicy None in
  ∃ st st',
    reviewFiles (hash := identityDigest) (parser := emptyParse) input
      (recordingClient oneComment) [sampleFile] (initialState (recordingClient oneComment))
    = Some st
    ∧ reviewFile (hash := identityDigest) (parser := emptyParse) input
        (recordingClient oneComment) st secondFile
      = Some st'
    ∧ dedupeCriteriaMet st' = true
    ∧ map Finding.content (generated st) = ["Old issue"]
    ∧ ∃ request,
        llmState st' = llmState st ++ [request]
        ∧ LlmReviewRequest.filePath request = "/src/other.ts"
        ∧ LlmReviewRequest.existingComments request
          = map ReviewComment.content (previousFileCommentsOf None secondFile)
            ++ map Finding.content (generated st).
Proof.
  intros input.
  assert (∃ st st',
            reviewFiles (hash := identityDigest) (parser := emptyParse) input
              (recordingClient oneComment) [sampleFile]
              (initialState (recordingClient oneComment))
            = Some st
            ∧ reviewFile (hash := identityDigest) (parser := emptyParse) input
                (recordingClient oneComment) st secondFile
              = Some st'
            ∧ dedupeCriteriaMet st' = true
            ∧ map Finding.content (generated st) = ["Old issue"])
    as (st & st' & Hbefore & Hstep & Hmet & Hgen).
  { eexists _, _. split; [vm_compute; reflexivity|].
    split; [vm_compute; reflexivity|]. split; reflexivity. }
  exists st, st'. split; [exact Hbefore|]. split; [exact Hstep|].
  split; [exact Hmet|]. split; [exact Hgen|].
  exact (latched_request_lists_every_generated_finding (hash := identityDigest)
           (parser := emptyParse) oneComment input [sampleFile] secondFile st st'
           Hbefore Hstep eq_refl Hmet).
Defined.

Lemma one_entry_per_reviewed_file_witness :
  reviewCode (hash := identityDigest) (parser := emptyParse)
    (sampleInput None) (stubClient sampleRespond)
  = Some sampleReport
  ∧ groupByFile (ReviewReport.findings sampleReport) = [("/src/file.ts", [sampleKept])]
  ∧ (length (groupByFile (ReviewReport.findings sampleReport))
     <= length (ReviewInput.files (sampleInput None)))%nat.
Proof.
  assert (reviewCode (hash := identityDigest) (parser := emptyParse)
            (sampleInput None) (stubClient sampleRespond)
          = Some sampleReport) as Hcode by (vm_compute; reflexivity).
  split; [exact Hcode|]. split; [reflexivity|].
  exact (proj2 (one_entry_per_reviewed_file (hash := identityDigest)
                  (parser := emptyParse) _ _ _ Hcode)).
Defined.

(** The unit tests of the file filter that need no more of the matcher
    than the sample libraries know. *)
Example file_filter_unit_tests :
  filterFilesForReview (libraries := sampleLibraries)
    (FileFilterOptions.mk None None None None ["file1.txt"; "file2.js"; "file3.exe"; "file4.pdf"])
  = ["file1.txt"; "file2.js"]
  ∧ filterFilesForReview (libraries := sampleLibraries)
      (FileFilterOptions.mk (Some ".txt,.js") None None None
         ["file1.txt"; "file2.js"; "file3.cs"])
    = ["file1.txt"; "file2.js"]
  ∧ filterFilesForReview (libraries := sampleLibraries)
      (FileFilterOptions.mk None (Some ".js") None None
         ["file1.txt"; "file2.js"; "file3.cs"])
    = ["file1.txt"; "file3.cs"]
  ∧ filterFilesForReview (libraries := sampleLibraries)
      (FileFilterOptions.mk None None None (Some "src/*")
         ["src/file1.txt"; "src/file2.js"; "test/file3.js"])
    = ["test/file3.js"].
Proof. repeat split. Qed.

(** A path with a dot in a directory name and none in the file name: the
    extension runs from that dot. A diff over the limit is cut and noted. *)
Example extension_and_clamp :
  getFileExtension "src/v1.2/Makefile" = ".2/Makefile"
  ∧ getFileExtension ".gitignore" = ".gitignore"
  ∧ getFileExtension "README" = EmptyString
  ∧ map FileDiff.diff
        (filterAndClampDiffs (libraries := sampleLibraries)
           [FileDiff.mk "a.ts" "0123456789"; FileDiff.mk "b.exe" "01"; FileDiff.mk "c.ts" "01"]
           4)
    = ["0123" +:+ truncationNote 4; "01"].
Proof. repeat split. Qed.
